(** * DAION build orchestrator: a shallow embedding of [App.tsx] and
    [services/geminiService.ts]

    The orchestrator is asynchronous React code: a handler runs between
    suspension points ([await]), talks to the generative service at each
    of them, and updates three pieces of React state ([state],
    [messages], [metricsData]) plus one mutable ref ([abortController]).

    The embedding is a state-and-exception monad over a record [Sys]
    holding exactly those four stores.  The outside world (what the
    service answers to the n-th request, and whether the user clicks
    Stop while the n-th request is pending) is a record of oracles
    [World]; every statement below is quantified over it. *)

From Stdlib Require Import String Ascii ZArith Bool.
From Stdlib Require Import Decimal DecimalString DecimalNat.
From stdpp Require Import base decidable option list numbers strings.

Local Open Scope string_scope.
Local Open Scope list_scope.
Local Open Scope nat_scope.

(* ================================================================== *)
(** ** Data model ([types.ts]) *)
(* ================================================================== *)

Inductive AgentStatus :=
  IDLE | PLANNING | CODING | TESTING | REFINING | COMPLETED | FAILED | STOPPED.

#[global] Instance AgentStatus_eq_dec : EqDecision AgentStatus.
Proof. solve_decision. Defined.

Module File.
Inductive Status := pending | created | verified | buggy.
Record t := mk {
    name : string;
    language : string;
    content : string;
    status : Status;
  }.
End File.
Abbreviation ProjectFile := File.t.

Module Test.
Record t := mk {
    id : string;
    testName : string;
    passed : bool;
    message : string;
  }.
End Test.
Abbreviation TestResult := Test.t.

(** [LogEntry] without its random [id] and wall-clock [timestamp]. *)
Module Log.
Inductive Kind := info | success | warning | error | system.
Record t := mk {
    message : string;
    type : Kind;
  }.
End Log.
Abbreviation LogEntry := Log.t.

#[global] Instance LogKind_eq_dec : EqDecision Log.Kind.
Proof. solve_decision. Defined.

(** [Message] without its [timestamp]. *)
Module Msg.
Inductive Role := user | agent.
Record t := mk {
    role : Role;
    text : string;
  }.
End Msg.
Abbreviation Message := Msg.t.

#[global] Instance Role_eq_dec : EqDecision Msg.Role.
Proof. solve_decision. Defined.

Module Chart.
Record t := mk {
    iteration : nat;
    quality : Z;
    bugs : nat;
  }.
End Chart.
Abbreviation ChartDataPoint := Chart.t.

Record ProjectState := mkState {
  name : string;
  description : string;
  files : list ProjectFile;
  testResults : list TestResult;
  qualityScore : Z;
  iteration : nat;
  logs : list LogEntry;
  status : AgentStatus;
  generatedArtifacts : list string;
  report : option string;
}.

Definition INITIAL_STATE : ProjectState :=
  {| name := ""; description := ""; files := []; testResults := [];
     qualityScore := 0%Z; iteration := 0; logs := []; status := IDLE;
     generatedArtifacts := []; report := None |}.

(** Object spread [{...prev, field: v}], one setter per field that the
    orchestrator writes. *)
Definition set_files (v : list ProjectFile) (p : ProjectState) :=
  mkState (name p) (description p) v (testResults p) (qualityScore p)
          (iteration p) (logs p) (status p) (generatedArtifacts p) (report p).
Definition set_testResults (v : list TestResult) (p : ProjectState) :=
  mkState (name p) (description p) (files p) v (qualityScore p)
          (iteration p) (logs p) (status p) (generatedArtifacts p) (report p).
Definition set_qualityScore (v : Z) (p : ProjectState) :=
  mkState (name p) (description p) (files p) (testResults p) v
          (iteration p) (logs p) (status p) (generatedArtifacts p) (report p).
Definition set_iteration (v : nat) (p : ProjectState) :=
  mkState (name p) (description p) (files p) (testResults p) (qualityScore p)
          v (logs p) (status p) (generatedArtifacts p) (report p).
Definition set_logs (v : list LogEntry) (p : ProjectState) :=
  mkState (name p) (description p) (files p) (testResults p) (qualityScore p)
          (iteration p) v (status p) (generatedArtifacts p) (report p).
Definition set_status (v : AgentStatus) (p : ProjectState) :=
  mkState (name p) (description p) (files p) (testResults p) (qualityScore p)
          (iteration p) (logs p) v (generatedArtifacts p) (report p).
Definition set_report (v : option string) (p : ProjectState) :=
  mkState (name p) (description p) (files p) (testResults p) (qualityScore p)
          (iteration p) (logs p) (status p) (generatedArtifacts p) v.

(* ================================================================== *)
(** ** Strings: template literals and the two fence-stripping regexes *)
(* ================================================================== *)

Definition nl : string := String (ascii_of_nat 10) EmptyString.

(** [`${n}`] for a non-negative count and for a score. *)
Definition show_nat (n : nat) : string := NilZero.string_of_uint (Nat.to_uint n).
Definition show_Z (z : Z) : string := NilZero.string_of_int (Z.to_int z).

Definition is_letter (c : ascii) : bool :=
  let n := nat_of_ascii c in
  ((65 <=? n) && (n <=? 90)) || ((97 <=? n) && (n <=? 122)).

Fixpoint skip_letters (s : string) : string :=
  match s with
  | String c r => if is_letter c then skip_letters r else s
  | EmptyString => s
  end.

Definition backtick : ascii := ascii_of_nat 96.
Definition fence : string := String backtick (String backtick (String backtick EmptyString)).

(** [text.replace(/^```[a-z]*\n/i, '')] *)
Definition strip_open_fence (s : string) : string :=
  if String.prefix fence s then
    match skip_letters (substring 3 (String.length s - 3) s) with
    | String c r => if Ascii.eqb c (ascii_of_nat 10) then r else s
    | EmptyString => s
    end
  else s.

(** [text.replace(/\n```$/, '')] *)
Definition strip_close_fence (s : string) : string :=
  let n := String.length s in
  if (4 <=? n) && String.eqb (substring (n - 4) 4 s) (nl +:+ fence)
  then substring 0 (n - 4) s else s.

Definition strip_fences (s : string) : string :=
  strip_close_fence (strip_open_fence s).

(** JavaScript [a || b] on a string that may be missing: the empty
    string is falsy. *)
Definition or_else (t : option string) (d : string) : string :=
  match t with
  | Some s => if String.eqb s "" then d else s
  | None => d
  end.

(* ================================================================== *)
(** ** The service boundary *)
(* ================================================================== *)

(** What one [ai.models.generateContent] round trip can do: reject (or
    deliver a body that [JSON.parse] rejects) with an error message,
    resolve without text, or resolve with a body of the schema the
    request asked for. *)
Inductive Reply (A : Type) :=
  | Failure (msg : string)
  | NoText
  | Body (a : A).
Arguments Failure {A} msg.
Arguments NoText {A}.
Arguments Body {A} a.

Record PlanData := mkPlan {
  plan_files : list ProjectFile;
  planSummary : string;
}.

Record RawResult := mkRaw {
  raw_testName : string;
  raw_passed : bool;
  raw_message : string;
}.

Record VibeCheck := mkVibe {
  degraded : bool;
  reason : string;
}.

Record AnalysisData := mkAnalysisData {
  data_qualityScore : Z;
  data_vibeCheck : option VibeCheck;
  data_results : list RawResult;
}.

Module Analysis.
Record t := mk {
    results : list TestResult;
    qualityScore : Z;
    vibeCheck : VibeCheck;
  }.
End Analysis.

Record Change := mkChange {
  change_name : string;
  change_content : string;
  change_language : string;
}.

Record RefineData := mkRefine {
  changedFiles : list Change;
  explanation : string;
}.

(** One suspension point of a handler.  The payload is what the request
    is about, kept so that a run can be read back from its trace. *)
Inductive Call :=
  | GenerateProjectPlan (prompt : string)
  | GenerateFileContent (filename : string)
  | RunAutonomousTests
  | RefactorCode (filename : string)
  | GenerateFinalReport (iteration : nat) (qualityScore : Z) (nfiles : nat)
  | RefineProject (prompt : string)
  | Delay.

#[global] Instance Call_eq_dec : EqDecision Call.
Proof. solve_decision. Defined.

(** The environment of a run.  Suspensions are numbered from 0 in the
    order the handlers reach them; [stop_during n] says that the user
    clicks the Stop button while suspension [n] is pending. *)
Record World := mkWorld {
  api_key : bool;
  stop_during : nat -> bool;
  plan_reply : nat -> Reply PlanData;
  generate_reply : nat -> Reply string;
  analysis_reply : nat -> Reply AnalysisData;
  refactor_reply : nat -> Reply string;
  report_reply : nat -> Reply string;
  refine_reply : nat -> Reply RefineData;
}.

(* ================================================================== *)
(** ** The [try]/[catch] bodies of the two services that absorb a failure *)
(* ================================================================== *)

(** [generateFileContent]: what the function returns for each way its
    request can end.  A rejected request is caught and replaced by a
    placeholder comment. *)
Definition generated_content (filename : string) (r : Reply string) : string :=
  match r with
  | Body t => strip_fences (or_else (Some t) "")
  | NoText => strip_fences (or_else None "")
  | Failure _ => "// Error generating content for " +:+ filename
  end.

(** [data.results.map((r, idx) => ({...r, id: `test-${idx}`}))] *)
Definition number_results (rs : list RawResult) : list TestResult :=
  imap (fun idx r => Test.mk ("test-" +:+ show_nat idx) (raw_testName r)
                             (raw_passed r) (raw_message r)) rs.

Definition failed_analysis : Analysis.t :=
  Analysis.mk [] 0%Z (mkVibe false "Error running checks").

(** [refactorCode], once the request has returned:
    [response.text || file.content], then the two [replace]s. *)
Definition refactored (file : ProjectFile) (text : option string) : string :=
  strip_fences (or_else text (File.content file)).

(** [runAutonomousTests]: a missing text throws inside the [try], so it
    ends in the [catch] like a rejected request. *)
Definition read_analysis (r : Reply AnalysisData) : Analysis.t :=
  match r with
  | Body data =>
      Analysis.mk (number_results (data_results data))
                  (data_qualityScore data)
                  (default (mkVibe false "Stable") (data_vibeCheck data))
  | NoText => failed_analysis
  | Failure _ => failed_analysis
  end.

(* ================================================================== *)
(** ** Merging a refinement response ([refineProject], the pure part) *)
(* ================================================================== *)

Definition has_name (n : string) (f : ProjectFile) : Prop := File.name f = n.

#[global] Instance has_name_dec n f : Decision (has_name n f).
Proof. unfold has_name. apply _. Defined.

Definition with_content (c : string) (f : ProjectFile) : ProjectFile :=
  File.mk (File.name f) (File.language f) c (File.status f).

(** The body of [data.changedFiles.forEach(...)]. *)
Definition mergeChange (newFiles : list ProjectFile) (change : Change)
  : list ProjectFile :=
  match list_find (has_name (change_name change)) newFiles with
  | Some (idx, f) => <[idx := with_content (change_content change) f]> newFiles
  | None =>
      newFiles ++ [File.mk (change_name change) (change_language change)
                           (change_content change) File.created]
  end.

Definition mergeChanges (files0 : list ProjectFile) (changes : list Change)
  : list ProjectFile :=
  foldl mergeChange files0 changes.

(* ================================================================== *)
(** ** The stores and the handler monad *)
(* ================================================================== *)

(** [st], [messages], [metricsData] are the three [useState] stores of
    [App]; [abortController] is the [useRef] flag.  [trace] lists the
    suspensions reached so far, oldest first: its length numbers the next
    suspension for the oracles of [World].  [phases] records the value of
    [status] after every [setState], oldest first.  The last two are
    observations of the run; nothing in the handlers reads [phases], and
    [trace] is read only for its length. *)
Record Sys := mkSys {
  st : ProjectState;
  messages : list Message;
  metricsData : list ChartDataPoint;
  abortController : bool;
  trace : list Call;
  phases : list AgentStatus;
}.

(** A handler either returns, throws a JavaScript [Error] with a message,
    or (for the two loops, which are written with an explicit fuel) runs
    out of fuel. *)
Inductive Outcome (A : Type) :=
  | Ok (a : A)
  | Thrown (message : string)
  | OutOfFuel.
Arguments Ok {A} a.
Arguments Thrown {A} message.
Arguments OutOfFuel {A}.

Definition M (A : Type) : Type := Sys -> Outcome A * Sys.

#[global] Instance M_ret : MRet M := fun A a s => (Ok a, s).

#[global] Instance M_bind : MBind M := fun A B f m s =>
  match m s with
  | (Ok a, s') => f a s'
  | (Thrown msg, s') => (Thrown msg, s')
  | (OutOfFuel, s') => (OutOfFuel, s')
  end.

Definition throw {A} (msg : string) : M A := fun s => (Thrown msg, s).
Definition outOfFuel {A} : M A := fun s => (OutOfFuel, s).

(** [try { body } catch (e) { handler(e.message) }] *)
Definition tryCatch {A} (body : M A) (handler : string -> M A) : M A := fun s =>
  match body s with
  | (Thrown msg, s') => handler msg s'
  | r => r
  end.

Definition setState (f : ProjectState -> ProjectState) : M unit := fun s =>
  let p := f (st s) in
  (Ok tt, mkSys p (messages s) (metricsData s) (abortController s) (trace s)
                (phases s ++ [status p])).

Definition setMessages (f : list Message -> list Message) : M unit := fun s =>
  (Ok tt, mkSys (st s) (f (messages s)) (metricsData s) (abortController s)
                (trace s) (phases s)).

Definition setMetricsData (f : list ChartDataPoint -> list ChartDataPoint)
  : M unit := fun s =>
  (Ok tt, mkSys (st s) (messages s) (f (metricsData s)) (abortController s)
                (trace s) (phases s)).

Definition setAbort (b : bool) : M unit := fun s =>
  (Ok tt, mkSys (st s) (messages s) (metricsData s) b (trace s) (phases s)).

Definition addLog (message : string) (type : Log.Kind) : M unit :=
  setState (fun prev => set_logs (logs prev ++ [Log.mk message type]) prev).

Definition STOP_MESSAGE : string := "Process stopped by user".

Definition handleStop : M unit :=
  setAbort true ;;
  addLog "Process termination requested by user." Log.warning ;;
  setState (set_status STOPPED).

Definition checkAbort : M unit := fun s =>
  if abortController s then (Thrown STOP_MESSAGE, s) else (Ok tt, s).

(** [[PLANNING, CODING, TESTING, REFINING].includes(state.status)] *)
Definition isBusy (a : AgentStatus) : bool :=
  match a with
  | PLANNING | CODING | TESTING | REFINING => true
  | IDLE | COMPLETED | FAILED | STOPPED => false
  end.

Section Handlers.
Context (W : World).

(** One [await]: the request is recorded, and while it is pending the
    user may click Stop, which the page offers only while [isBusy].  The
    result is the number of the suspension, under which the oracles of
    [W] hold its reply. *)
Definition suspend (c : Call) : M nat := fun s =>
  let n := length (trace s) in
  let s1 := mkSys (st s) (messages s) (metricsData s) (abortController s)
                  (trace s ++ [c]) (phases s) in
  if stop_during W n && isBusy (status (st s))
  then (Ok n, snd (handleStop s1))
  else (Ok n, s1).

(* ---------------------------------------------------------------- *)
(** *** [services/geminiService.ts] *)

Definition getAiClient : M unit :=
  if api_key W then mret tt
  else throw "API_KEY environment variable is not set.".

Definition generateProjectPlan (prompt : string) : M PlanData :=
  getAiClient ;;
  n ← suspend (GenerateProjectPlan prompt);
  match plan_reply W n with
  | Body d => mret d
  | NoText => throw "No response text from Gemini"
  | Failure msg => throw msg
  end.

Definition generateFileContent (filename projectDescription : string)
    (otherFiles : list ProjectFile) : M string :=
  getAiClient ;;
  n ← suspend (GenerateFileContent filename);
  mret (generated_content filename (generate_reply W n)).


Definition runAutonomousTests (files0 : list ProjectFile) : M Analysis.t :=
  getAiClient ;;
  n ← suspend RunAutonomousTests;
  mret (read_analysis (analysis_reply W n)).

Definition refactorCode (file : ProjectFile) (errorContext : string) : M string :=
  getAiClient ;;
  n ← suspend (RefactorCode (File.name file));
  match refactor_reply W n with
  | Body t => mret (refactored file (Some t))
  | NoText => mret (refactored file None)
  | Failure msg => throw msg
  end.

Definition generateFinalReport (iteration0 : nat) (qualityScore0 : Z)
    (files0 : list ProjectFile) : M string :=
  getAiClient ;;
  n ← suspend (GenerateFinalReport iteration0 qualityScore0 (length files0));
  match report_reply W n with
  | Body t => mret (or_else (Some t) "Report generation failed.")
  | NoText => mret (or_else None "Report generation failed.")
  | Failure msg => throw msg
  end.

Definition refineProject (prompt : string) (files0 : list ProjectFile)
  : M (list ProjectFile * string) :=
  getAiClient ;;
  n ← suspend (RefineProject prompt);
  match refine_reply W n with
  | Body data => mret (mergeChanges files0 (changedFiles data), explanation data)
  | NoText => throw "Refinement failed"
  | Failure msg => throw msg
  end.

End Handlers.

(* ================================================================== *)
(** ** [App.tsx]: the handlers *)
(* ================================================================== *)

Definition MAX_ITERATIONS : nat := 3.

Definition bugCount (a : Analysis.t) : nat :=
  length (filter (fun r => negb (Test.passed r)) (Analysis.results a)).

(** [bugCount > 0 || analysis.vibeCheck.degraded] *)
Definition needsRefinement (a : Analysis.t) : bool :=
  (0 <? bugCount a) || degraded (Analysis.vibeCheck a).

(** [failedTests.map(t => t.message).join('\n')], extended with the vibe
    reason when the vibe is degraded. *)
Definition errorContext (a : Analysis.t) : string :=
  let failedTests := filter (fun r => negb (Test.passed r)) (Analysis.results a) in
  let base := String.concat nl (map Test.message failedTests) in
  if degraded (Analysis.vibeCheck a)
  then base +:+ nl +:+ "QUALITY ISSUE: " +:+ reason (Analysis.vibeCheck a) +:+ nl
       +:+ "Action: Refactor to clean up code, remove hacks, deduplicate logic."
  else base.

(** [f.language !== 'json' && f.content.length > 0] *)
Definition fixable (f : ProjectFile) : bool :=
  negb (String.eqb (File.language f) "json")
  && (0 <? String.length (File.content f)).

(** [currentFiles.filter(...).slice(0, 3)] *)
Definition filesToFix (currentFiles : list ProjectFile) : list ProjectFile :=
  take 3 (filter (fun f => fixable f = true) currentFiles).

(** [chatInput.trim()] is empty: every character is white space (the
    ASCII ones; the string is a byte string here). *)
Definition is_space (c : ascii) : bool :=
  let n := nat_of_ascii c in
  ((9 <=? n) && (n <=? 13)) || (n =? 32).

Fixpoint blank (s : string) : bool :=
  match s with
  | EmptyString => true
  | String c r => is_space c && blank r
  end.

Inductive LoopStep := Break | Continue.

Section App.
Context (W : World).

(** [handleManualTest], run from a render whose [state] is [view]. *)
Definition handleManualTest (view : ProjectState) : M unit :=
  if length (files view) =? 0 then mret tt else
  let wasCompleted := bool_decide (status view = COMPLETED) in
  setState (set_status TESTING) ;;
  addLog "Manual Override: Initiating autonomous test suite..." Log.system ;;
  tryCatch
    (analysis ← runAutonomousTests W (files view);
     let qualityScore0 := Analysis.qualityScore analysis in
     let bugCount0 := bugCount analysis in
     setMetricsData (fun prev =>
       let nextIter := match last prev with
                       | Some p => Chart.iteration p + 1
                       | None => 1
                       end in
       prev ++ [Chart.mk nextIter qualityScore0 bugCount0]) ;;
     setState (fun prev =>
       set_status (if wasCompleted then COMPLETED else IDLE)
         (set_qualityScore (Analysis.qualityScore analysis)
            (set_testResults (Analysis.results analysis) prev))) ;;
     if degraded (Analysis.vibeCheck analysis) then
       addLog "System vibe degraded." Log.warning ;;
       addLog ("Vibe Inspector: " +:+ reason (Analysis.vibeCheck analysis)) Log.info
     else
       addLog ("Quality Score: " +:+ show_Z qualityScore0 +:+ "/100. Bugs detected: "
               +:+ show_nat bugCount0)
              (if (80 <? qualityScore0)%Z then Log.success else Log.warning))
    (fun msg =>
       addLog ("Test run failed: " +:+ msg) Log.error ;;
       setState (set_status IDLE)).

(** [handleRefinement]; [state.files] and the [handleManualTest] it calls
    are those of the render that dispatched the message. *)
Definition handleRefinement (view : ProjectState) (request : string) : M unit :=
  setState (set_status REFINING) ;;
  addLog ("User Request: " +:+ request) Log.system ;;
  addLog "Analyzing request and updating codebase..." Log.info ;;
  tryCatch
    ('(files0, explanation0) ← refineProject W request (files view);
     checkAbort ;;
     setState (fun prev => set_status TESTING (set_files files0 prev)) ;;
     addLog ("Refinement applied: " +:+ explanation0) Log.success ;;
     setMessages (fun prev => prev ++
       [Msg.mk Msg.agent ("I've updated the code: " +:+ explanation0
                          +:+ ". Running tests now...")]) ;;
     handleManualTest view)
    (fun msg =>
       (if bool_decide (msg ≠ STOP_MESSAGE) then
          addLog ("Refinement failed: " +:+ msg) Log.error ;;
          setMessages (fun prev => prev ++
            [Msg.mk Msg.agent "I couldn't apply those changes. Check the logs."])
        else mret tt) ;;
       setState (set_status IDLE)).

(** The [for] loop of phase 2.  [todo] is fuel; the loop test is the
    source's [i < currentFiles.length]. *)
Fixpoint codingLoop (todo : nat) (promptText : string) (i : nat)
    (currentFiles : list ProjectFile) : M (list ProjectFile) :=
  if i <? length currentFiles then
    match todo with
    | 0 => outOfFuel
    | S todo' =>
        checkAbort ;;
        match currentFiles !! i with
        | None => mret currentFiles
        | Some file =>
            addLog ("Generating artifact: " +:+ File.name file +:+ "...") Log.info ;;
            content ← generateFileContent W (File.name file) promptText currentFiles;
            let currentFiles' :=
              <[i := File.mk (File.name file) (File.language file) content
                             File.created]> currentFiles in
            setState (set_files currentFiles') ;;
            suspend W Delay ;;
            codingLoop todo' promptText (S i) currentFiles'
        end
    end
  else mret currentFiles.

(** The [for (const file of filesToFix)] loop of a refine pass. *)
Fixpoint refactorLoop (context : string) (targets : list ProjectFile)
    (currentFiles : list ProjectFile) : M (list ProjectFile) :=
  match targets with
  | [] => mret currentFiles
  | file :: rest =>
      checkAbort ;;
      addLog ("Refactoring " +:+ File.name file +:+ "...") Log.info ;;
      newContent ← refactorCode W file context;
      match list_find (has_name (File.name file)) currentFiles with
      | Some (index, _) =>
          let currentFiles' :=
            <[index := File.mk (File.name file) (File.language file) newContent
                               File.verified]> currentFiles in
          setState (set_files currentFiles') ;;
          refactorLoop context rest currentFiles'
      | None => refactorLoop context rest currentFiles
      end
  end.

(** The refine branch of the loop body. *)
Definition refinePass (a : Analysis.t) (currentFiles : list ProjectFile)
  : M (list ProjectFile) :=
  checkAbort ;;
  setState (set_status REFINING) ;;
  refactorLoop (errorContext a) (filesToFix currentFiles) currentFiles.

(** One run of the body of the [while] loop of phase 3, up to (not
    including) [iteration++].  It returns whether the body left by
    [break], the new [qualityScore] and the new [currentFiles]. *)
Definition convergePass (iteration0 : nat) (currentFiles : list ProjectFile)
  : M (LoopStep * Z * list ProjectFile) :=
  checkAbort ;;
  setState (fun prev => set_iteration iteration0 (set_status TESTING prev)) ;;
  addLog ("Iteration " +:+ show_nat iteration0 +:+ ": Running tests...") Log.system ;;
  analysis ← runAutonomousTests W currentFiles;
  checkAbort ;;
  let qualityScore0 := Analysis.qualityScore analysis in
  setMetricsData (fun prev =>
    prev ++ [Chart.mk iteration0 qualityScore0 (bugCount analysis)]) ;;
  setState (fun prev =>
    set_qualityScore (Analysis.qualityScore analysis)
      (set_testResults (Analysis.results analysis) prev)) ;;
  (if degraded (Analysis.vibeCheck analysis)
   then addLog "Vibe degraded. Refactoring." Log.warning else mret tt) ;;
  if needsRefinement analysis && (iteration0 <? MAX_ITERATIONS) then
    currentFiles' ← refinePass analysis currentFiles;
    mret (Continue, qualityScore0, currentFiles')
  else if (95 <=? qualityScore0)%Z && negb (degraded (Analysis.vibeCheck analysis)) then
    addLog "System stable." Log.success ;;
    mret (Break, qualityScore0, currentFiles)
  else if MAX_ITERATIONS <=? iteration0 then
    addLog "Max iterations reached." Log.warning ;;
    mret (Break, qualityScore0, currentFiles)
  else mret (Continue, qualityScore0, currentFiles).

(** [while (iteration <= MAX_ITERATIONS && qualityScore < 95) { ...;
    iteration++ }], returning the three locals the report reads. *)
Fixpoint convergeLoop (fuel : nat) (iteration0 : nat) (qualityScore0 : Z)
    (currentFiles : list ProjectFile) : M (nat * Z * list ProjectFile) :=
  if (iteration0 <=? MAX_ITERATIONS) && (qualityScore0 <? 95)%Z then
    match fuel with
    | 0 => outOfFuel
    | S fuel' =>
        '(step, q, currentFiles') ← convergePass iteration0 currentFiles;
        match step with
        | Break => mret (iteration0, q, currentFiles')
        | Continue => convergeLoop fuel' (S iteration0) q currentFiles'
        end
    end
  else mret (iteration0, qualityScore0, currentFiles).

(** The first three statements of [handleStartMarathon]. *)
Definition startBuild (promptText : string) : M unit :=
  setState (fun _ =>
    set_status PLANNING
      (mkState "New Project" promptText (files INITIAL_STATE)
               (testResults INITIAL_STATE) (qualityScore INITIAL_STATE)
               (iteration INITIAL_STATE) (logs INITIAL_STATE)
               (status INITIAL_STATE) (generatedArtifacts INITIAL_STATE)
               (report INITIAL_STATE))) ;;
  setMetricsData (fun _ => []) ;;
  setMessages (fun prev => prev ++
    [Msg.mk Msg.agent "Target acquired. Initializing DAION build sequence..."]).

(** Phase 1 of the [try] block of [handleStartMarathon]: planning. *)
Definition planPhase (promptText : string) : M PlanData :=
  checkAbort ;;
  addLog "Phase 1: Architecture & Planning" Log.system ;;
  plan ← generateProjectPlan W promptText;
  checkAbort ;;
  setState (fun prev => set_status CODING (set_files (plan_files plan) prev)) ;;
  addLog ("Plan generated. " +:+ show_nat (length (plan_files plan))
          +:+ " artifacts defined.") Log.success ;;
  mret plan.

(** Phase 2: coding. *)
Definition codingPhase (promptText : string) (plan : PlanData)
  : M (list ProjectFile) :=
  addLog "Phase 2: Autonomous Construction" Log.system ;;
  codingLoop (length (plan_files plan)) promptText 0 (plan_files plan).

(** Phase 3: the loop, entered with [iteration = 1] and
    [qualityScore = 0]. *)
Definition loopPhase (fuel : nat) (currentFiles : list ProjectFile)
  : M (nat * Z * list ProjectFile) :=
  addLog "Phase 3: Optimization Loop" Log.system ;;
  convergeLoop fuel 1 0%Z currentFiles.

(** Phase 4: reporting. *)
Definition reportPhase (iteration0 : nat) (qualityScore0 : Z)
    (currentFiles : list ProjectFile) : M unit :=
  checkAbort ;;
  setState (set_status COMPLETED) ;;
  report0 ← generateFinalReport W iteration0 qualityScore0 currentFiles;
  setState (set_report (Some report0)) ;;
  addLog "Mission Complete." Log.success ;;
  setMessages (fun prev => prev ++
    [Msg.mk Msg.agent
       "Mission complete. I've built the application. Check the Preview tab."]).

(** The [try] block of [handleStartMarathon]. *)
Definition buildBody (fuel : nat) (promptText : string) : M unit :=
  plan ← planPhase promptText;
  currentFiles ← codingPhase promptText plan;
  '(iteration0, qualityScore0, currentFiles') ← loopPhase fuel currentFiles;
  reportPhase iteration0 qualityScore0 currentFiles'.

(** The [catch] block of [handleStartMarathon]. *)
Definition buildCatch (msg : string) : M unit :=
  if bool_decide (msg = STOP_MESSAGE) then
    addLog "Process halted." Log.warning ;;
    setMessages (fun prev => prev ++ [Msg.mk Msg.agent "Process stopped."])
  else
    addLog ("FAILURE: " +:+ msg) Log.error ;;
    setState (set_status FAILED) ;;
    setMessages (fun prev => prev ++
      [Msg.mk Msg.agent "I encountered a critical error."]).

Definition handleStartMarathonFuel (fuel : nat) (promptText : string) : M unit :=
  startBuild promptText ;;
  addLog "DAION Agent Initialized." Log.system ;;
  addLog ("Goal: " +:+ promptText) Log.info ;;
  tryCatch (buildBody fuel promptText) buildCatch.

Definition handleStartMarathon : string -> M unit :=
  handleStartMarathonFuel (S MAX_ITERATIONS).

Inductive Dispatch := StartBuild | Refinement | Ignored.

(** The two [if]s of [handleSendMessage] that pick the scenario. *)
Definition dispatch (view : ProjectState) : Dispatch :=
  if bool_decide (status view = IDLE) || bool_decide (status view = STOPPED)
     || (length (files view) =? 0)
  then StartBuild
  else if bool_decide (status view ∈ [COMPLETED; FAILED; TESTING; CODING])
  then Refinement
  else Ignored.

(** Whether [handleSendMessage] gets past its first line. *)
Definition accepted (chatInput : string) : bool :=
  negb (blank chatInput) && api_key W.

Definition handleSendMessage (chatInput : string) : M unit := fun s =>
  let view := st s in
  if negb (accepted chatInput) then (Ok tt, s) else
  (setMessages (fun prev => prev ++ [Msg.mk Msg.user chatInput]) ;;
   setAbort false ;;
   match dispatch view with
   | StartBuild => handleStartMarathon chatInput
   | Refinement => handleRefinement view chatInput
   | Ignored => mret tt
   end) s.

(** A click on the manual-test button: [handleManualTest] of the
    current render. *)
Definition clickManualTest : M unit := fun s => handleManualTest (st s) s.

End App.

(* ================================================================== *)
(** ** Vocabulary of the statements *)
(* ================================================================== *)

Arguments needsRefinement : simpl never.
Arguments bugCount : simpl never.
Arguments errorContext : simpl never.
Arguments filesToFix : simpl never.
Arguments read_analysis : simpl never.
Arguments generated_content : simpl never.
Arguments strip_fences : simpl never.
Arguments refactored : simpl never.
Arguments show_nat : simpl never.
Arguments show_Z : simpl never.
Arguments String.append : simpl never.
Arguments Nat.leb : simpl nomatch.
Arguments Nat.ltb : simpl nomatch.

(** The project a build starts from: [INITIAL_STATE] with the name, the
    goal and the phase filled in. *)
Definition fresh_project (promptText : string) : ProjectState :=
  mkState "New Project" promptText [] [] 0%Z 0 [] PLANNING [] None.

Definition next_manual_iteration (series : list ChartDataPoint) : nat :=
  match last series with
  | Some p => Chart.iteration p + 1
  | None => 1
  end.

(** [wp m s Q]: running [m] from [s] ends in an outcome and stores that
    satisfy [Q]. *)
Definition wp {A} (m : M A) (s : Sys) (Q : Outcome A → Sys → Prop) : Prop :=
  Q (m s).1 (m s).2.

(** [l'] is [l] followed by entries that all satisfy [P]. *)
Definition grows {A} (P : A → Prop) (l l' : list A) : Prop :=
  ∃ k, l' = l ++ k ∧ Forall P k.

(** The same with a predicate that also sees the position of the entry
    in [l']. *)
Definition igrows {A} (P : nat → A → Prop) (l l' : list A) : Prop :=
  ∃ k, l' = l ++ k ∧ ∀ i x, k !! i = Some x → P (length l + i) x.

(** The orchestrator is running and no stop was requested. *)
Definition Live (s : Sys) : Prop :=
  abortController s = false ∧ isBusy (status (st s)) = true.

(** A stop was requested: the flag is set and the phase is Stopped. *)
Definition Halted (s : Sys) : Prop :=
  abortController s = true ∧ status (st s) = STOPPED.

Definition Good (s : Sys) : Prop := Live s ∨ Halted s.

Definition exhausted_entry : LogEntry :=
  Log.mk "Max iterations reached." Log.warning.

Definition halted_entry : LogEntry := Log.mk "Process halted." Log.warning.

(** The number of analysis calls in a trace. *)
Definition count_tests (t : list Call) : nat :=
  length (filter (λ c, c = RunAutonomousTests) t).

(** The iteration count a report request carries is within the budget. *)
Definition within_budget (c : Call) : Prop :=
  match c with
  | GenerateFinalReport it _ _ => it ≤ MAX_ITERATIONS
  | _ => True
  end.

(** What the [try] block of a build may do to the stores, whatever its
    outcome: the conversation is untouched, the log grows by entries that
    are not errors, the phase never becomes Failed, report requests carry
    an iteration within the budget, and [iteration] stays within the
    budget. *)
Definition Ext (s s' : Sys) : Prop :=
  grows (λ e, Log.type e ≠ Log.error) (logs (st s)) (logs (st s'))
  ∧ grows (λ x, x ≠ FAILED) (phases s) (phases s')
  ∧ grows within_budget (trace s) (trace s')
  ∧ (iteration (st s) ≤ MAX_ITERATIONS → iteration (st s') ≤ MAX_ITERATIONS).

(** The phase was set to [x] at some point between [s] and [s']. *)
Definition Reached (x : AgentStatus) (s s' : Sys) : Prop :=
  ∃ p1 p2, phases s' = phases s ++ p1 ++ x :: p2.

(** No exhaustion warning was logged between [s] and [s']. *)
Definition NoMax (s s' : Sys) : Prop :=
  grows (λ e, e ≠ exhausted_entry) (logs (st s)) (logs (st s')).

Section Failure.
Context (W : World).

(** The message with which the service function behind suspension [n]
    throws, if it throws.  File generation and analysis never do. *)
Definition failure_of (n : nat) (c : Call) : option string :=
  match c with
  | GenerateProjectPlan _ =>
      match plan_reply W n with
      | Failure m => Some m
      | NoText => Some "No response text from Gemini"
      | Body _ => None
      end
  | RefactorCode _ =>
      match refactor_reply W n with Failure m => Some m | _ => None end
  | GenerateFinalReport _ _ _ =>
      match report_reply W n with Failure m => Some m | _ => None end
  | RefineProject _ =>
      match refine_reply W n with
      | Failure m => Some m
      | NoText => Some "Refinement failed"
      | Body _ => None
      end
  | GenerateFileContent _ | RunAutonomousTests | Delay => None
  end.

(** Every suspension between [s] and [s'] ended without a throw. *)
Definition Clean (s s' : Sys) : Prop :=
  igrows (λ n c, failure_of n c = None) (trace s) (trace s').

(** The last suspension between [s] and [s'] threw [msg]; the ones before
    it did not throw. *)
Definition FailedAt (s s' : Sys) (msg : string) : Prop :=
  ∃ t c, trace s' = trace s ++ t ++ [c]
         ∧ (∀ i x, t !! i = Some x → failure_of (length (trace s) + i) x = None)
         ∧ failure_of (length (trace s) + length t) c = Some msg.

(** The contract of a piece of the [try] block of a build that makes at
    most [k] analysis calls. *)
Definition Post (k : nat) (s : Sys) {A} (r : Outcome A) (s' : Sys) : Prop :=
  Ext s s'
  ∧ messages s' = messages s
  ∧ count_tests (trace s') ≤ count_tests (trace s) + k
  ∧ match r with
    | Ok _ => Good s' ∧ Clean s s'
    | Thrown msg =>
        (msg = STOP_MESSAGE ∧ Halted s' ∧ Clean s s') ∨ FailedAt s s' msg
    | OutOfFuel => True
    end.

Definition mission_complete : Message :=
  Msg.mk Msg.agent
    "Mission complete. I've built the application. Check the Preview tab.".

(** The contract of the whole [try] block of a build. *)
Definition BuildPost (fuel : nat) (s : Sys) (r : Outcome unit) (s' : Sys) : Prop :=
  Ext s s'
  ∧ count_tests (trace s') ≤ count_tests (trace s) + MAX_ITERATIONS
  ∧ match r with
    | Ok _ =>
        status (st s') = COMPLETED ∧ abortController s' = false
        ∧ messages s' = messages s ++ [mission_complete]
        ∧ Clean s s' ∧ Reached COMPLETED s s'
    | Thrown msg =>
        messages s' = messages s
        ∧ ((msg = STOP_MESSAGE ∧ Halted s' ∧ Clean s s' ∧ NoMax s s')
           ∨ (FailedAt s s' msg
              ∧ (NoMax s s'
                 ∨ (Reached COMPLETED s s' ∧ status (st s') = COMPLETED
                    ∧ ∃ it q k, last (trace s') = Some (GenerateFinalReport it q k)))))
    | OutOfFuel => fuel < MAX_ITERATIONS ∧ NoMax s s' ∧ messages s' = messages s
    end.

End Failure.

Definition target_acquired : Message :=
  Msg.mk Msg.agent "Target acquired. Initializing DAION build sequence...".

Definition process_stopped : Message := Msg.mk Msg.agent "Process stopped.".

Definition critical_error : Message :=
  Msg.mk Msg.agent "I encountered a critical error.".

(** The stores when the [try] block of [handleStartMarathon] is entered. *)
Definition after_start (promptText : string) (s : Sys) : Sys :=
  mkSys (set_logs [Log.mk "DAION Agent Initialized." Log.system;
                   Log.mk ("Goal: " +:+ promptText) Log.info]
                  (fresh_project promptText))
        (messages s ++ [target_acquired]) [] (abortController s) (trace s)
        (((phases s ++ [PLANNING]) ++ [PLANNING]) ++ [PLANNING]).

(** The three ways a build that was started with the flag cleared and a
    configured service can end: completed, stopped at a checkpoint, or
    with a request that threw [msg]. *)
Definition BuildEnd (W : World) (promptText : string) (s s' : Sys) : Prop :=
  let s1 := after_start promptText s in
  (status (st s') = COMPLETED ∧ abortController s' = false
   ∧ messages s' = messages s ++ [target_acquired; mission_complete]
   ∧ Clean W s1 s' ∧ Ext s1 s')
  ∨ (status (st s') = STOPPED ∧ abortController s' = true
     ∧ messages s' = messages s ++ [target_acquired; process_stopped]
     ∧ Clean W s1 s'
     ∧ ∃ sb, Ext s1 sb ∧ logs (st s') = logs (st sb) ++ [halted_entry]
             ∧ phases s' = phases sb ++ [STOPPED])
  ∨ (∃ msg sb,
       FailedAt W s1 s' msg ∧ Ext s1 sb
       ∧ ((msg ≠ STOP_MESSAGE ∧ status (st s') = FAILED
           ∧ logs (st s') = logs (st sb) ++ [Log.mk ("FAILURE: " +:+ msg) Log.error]
           ∧ messages s' = messages s ++ [target_acquired; critical_error])
          ∨ (msg = STOP_MESSAGE
             ∧ logs (st s') = logs (st sb) ++ [halted_entry]
             ∧ messages s' = messages s ++ [target_acquired; process_stopped]))).


Definition code_updated (explanation0 : string) : Message :=
  Msg.mk Msg.agent ("I've updated the code: " +:+ explanation0
                    +:+ ". Running tests now...").





Definition stable_entry : LogEntry := Log.mk "System stable." Log.success.

(** The stores after the analysis part of a loop pass in which Stop was
    not clicked: phase and iteration set, the test log written, the
    request recorded, the snapshot appended, findings and score stored,
    and the vibe warning logged if the vibe is degraded. *)
Definition tested (it : nat) (a : Analysis.t) (s : Sys) : Sys :=
  ((setState (fun prev => set_iteration it (set_status TESTING prev)) ;;
    addLog ("Iteration " +:+ show_nat it +:+ ": Running tests...") Log.system ;;
    (fun s0 => (Ok tt, mkSys (st s0) (messages s0) (metricsData s0)
                             (abortController s0)
                             (trace s0 ++ [RunAutonomousTests]) (phases s0))) ;;
    setMetricsData (fun prev =>
      prev ++ [Chart.mk it (Analysis.qualityScore a) (bugCount a)]) ;;
    setState (fun prev =>
      set_qualityScore (Analysis.qualityScore a)
        (set_testResults (Analysis.results a) prev)) ;;
    (if degraded (Analysis.vibeCheck a)
     then addLog "Vibe degraded. Refactoring." Log.warning else mret tt)) s).2.

(** The text of a reply, if it has one. *)
Definition reply_text (r : Reply string) : option string :=
  match r with
  | Body t => Some t
  | NoText | Failure _ => None
  end.


(* ================================================================== *)
(** ** Concrete artifacts, worlds and stores used as examples *)
(* ================================================================== *)

Definition demo_app : ProjectFile := File.mk "App.tsx" "typescript" "old" File.verified.
Definition demo_cfg : ProjectFile := File.mk "package.json" "json" "{}" File.created.

Definition skeleton_app : ProjectFile := File.mk "App.tsx" "typescript" "" File.pending.
Definition skeleton_cfg : ProjectFile := File.mk "package.json" "json" "" File.pending.

Definition two_files : PlanData := mkPlan [skeleton_app; skeleton_cfg] "two files".
Definition one_file : PlanData := mkPlan [skeleton_app] "one file".

Definition steady : VibeCheck := mkVibe false "ok".
Definition failing_finding : RawResult := mkRaw "renders" false "boom".

(** The stores of a freshly loaded page. *)
Definition idle_sys : Sys := mkSys INITIAL_STATE [] [] false [] [].

(** The stores after a completed build of two artifacts. *)
Definition completed_sys : Sys :=
  mkSys (mkState "New Project" "todo app" [demo_app; demo_cfg] [] 97%Z 2 []
                 COMPLETED [] (Some "report"))
        [] [] false [] [].

(** The stores at the top of a loop pass over generated artifacts. *)
Definition testing_sys : Sys :=
  mkSys (mkState "New Project" "todo app" [demo_app; demo_cfg] [] 0%Z 0 []
                 CODING [] None)
        [] [] false [] [].

(** The scenario of the specification: the first analysis (suspension 5)
    scores 60 with one failed finding, the next one 97 with none. *)
Definition todo_world : World :=
  mkWorld true (fun _ => false)
    (fun _ => Body two_files)
    (fun _ => Body "code")
    (fun n => if n =? 5 then Body (mkAnalysisData 60%Z (Some steady) [failing_finding])
              else Body (mkAnalysisData 97%Z (Some steady) []))
    (fun _ => Body "fixed")
    (fun _ => Body "report")
    (fun _ => Body (mkRefine [mkChange "App.tsx" "blue" "typescript"] "made it blue")).

(** Every analysis scores 97 with a vibe that is not degraded, and
    reports one failed finding. *)
Definition bug_at_97 : World :=
  mkWorld true (fun _ => false)
    (fun _ => Body one_file)
    (fun _ => Body "code")
    (fun _ => Body (mkAnalysisData 97%Z (Some steady) [failing_finding]))
    (fun _ => Body "fixed")
    (fun _ => Body "report")
    (fun _ => NoText).

(** Stop is clicked while the first file is being generated
    (suspension 1). *)
Definition stop_in_coding : World :=
  mkWorld true (fun n => n =? 1)
    (fun _ => Body two_files)
    (fun _ => Body "code")
    (fun _ => Body (mkAnalysisData 97%Z (Some steady) []))
    (fun _ => Body "fixed")
    (fun _ => Body "report")
    (fun _ => NoText).

(** Stop is clicked while the plan is being made (suspension 0). *)
Definition stop_in_plan : World :=
  mkWorld true (fun n => n =? 0)
    (fun _ => Body two_files)
    (fun _ => Body "code")
    (fun _ => Body (mkAnalysisData 97%Z (Some steady) []))
    (fun _ => Body "fixed")
    (fun _ => Body "report")
    (fun _ => NoText).

(** The plan request fails. *)
Definition plan_down : World :=
  mkWorld true (fun _ => false)
    (fun _ => Failure "network down")
    (fun _ => Body "code")
    (fun _ => Body (mkAnalysisData 97%Z (Some steady) []))
    (fun _ => Body "fixed")
    (fun _ => Body "report")
    (fun _ => NoText).

(** The refine request fails. *)
Definition refine_down : World :=
  mkWorld true (fun _ => false)
    (fun _ => Body two_files)
    (fun _ => Body "code")
    (fun _ => Body (mkAnalysisData 97%Z (Some steady) []))
    (fun _ => Body "fixed")
    (fun _ => Body "report")
    (fun _ => Failure "boom").

(** Stop is clicked while the refine request is pending. *)
Definition stop_in_refine : World :=
  mkWorld true (fun n => n =? 0)
    (fun _ => Body two_files)
    (fun _ => Body "code")
    (fun _ => Body (mkAnalysisData 97%Z (Some steady) []))
    (fun _ => Body "fixed")
    (fun _ => Body "report")
    (fun _ => Body (mkRefine [mkChange "App.tsx" "blue" "typescript"] "made it blue")).


(** The values of [status] in order, without the repetitions. *)
Fixpoint transitions (l : list AgentStatus) : list AgentStatus :=
  match l with
  | [] => []
  | x :: rest =>
      match rest with
      | [] => [x]
      | y :: _ => if bool_decide (x = y) then transitions rest else x :: transitions rest
      end
  end.
(* ================================================================== *)
(** ** [App.tsx]: the editor pane and the mount effect *)
(* ================================================================== *)

(** The [selectedFile] store beside the project. *)
Record Editor := mkEditor {
  selectedFile : option ProjectFile;
  project : ProjectState;
}.

(** [onSelectFile] of the file explorer: [setSelectedFile(f)]. *)
Definition selectFile (f : ProjectFile) (e : Editor) : Editor :=
  mkEditor (Some f) (project e).

(** [handleCodeChange], run from a render whose [selectedFile] is
    [view]; the two updates are functional, so they read the live
    stores. *)
Definition handleCodeChange (view : option ProjectFile) (newContent : string)
    (e : Editor) : Editor :=
  match view with
  | None => e
  | Some sel =>
      mkEditor
        (with_content newContent <$> selectedFile e)
        (set_files
           ((fun f => if bool_decide (File.name f = File.name sel)
                      then with_content newContent f else f) <$> files (project e))
           (project e))
  end.

(** The effect that runs once after the page is mounted: a project that
    was loaded with [iteration > 0] gets a one-snapshot series when the
    series is empty. *)
Definition mountEffect : M unit := fun s =>
  if (0 <? iteration (st s)) && (length (metricsData s) =? 0)
  then setMetricsData (fun _ =>
         [Chart.mk (iteration (st s)) (qualityScore (st s))
                   (length (filter (fun t => negb (Test.passed t))
                                   (testResults (st s))))]) s
  else (Ok tt, s).

(** [s] consists of ASCII letters only: what [[a-z]*] of the opening
    fence regex (flag [i]) consumes. *)
Fixpoint all_letters (s : string) : bool :=
  match s with
  | EmptyString => true
  | String c r => is_letter c && all_letters r
  end.

(* ================================================================== *)
(** ** Vocabulary of the statements about a whole build *)
(* ================================================================== *)

(** What the coding loop and a refine pass leave alone, whatever their
    outcome: the names of the artifacts (and so their number and order),
    the series, the score, the findings and the iteration count; the
    trace only grows. *)
Definition Untouched (s s' : Sys) : Prop :=
  File.name <$> files (st s') = File.name <$> files (st s)
  ∧ metricsData s' = metricsData s
  ∧ qualityScore (st s') = qualityScore (st s)
  ∧ testResults (st s') = testResults (st s)
  ∧ iteration (st s') = iteration (st s)
  ∧ ∃ t, trace s' = trace s ++ t.

(** The snapshot that describes a project: its iteration, its score and
    the number of its failed findings. *)
Definition snapshot_of (p : ProjectState) : ChartDataPoint :=
  Chart.mk (iteration p) (qualityScore p)
           (length (filter (fun t => negb (Test.passed t)) (testResults p))).


(** The artifact that the coding loop stores for a planned artifact
    whose generation request is suspension [n]. *)
Definition generated_file (W : World) (n : nat) (f : ProjectFile) : ProjectFile :=
  File.mk (File.name f) (File.language f)
          (generated_content (File.name f) (generate_reply W n)) File.created.

(** The suspensions of the coding loop for one artifact: the generation
    request and the pacing delay. *)
Definition generation_of (f : ProjectFile) : list Call :=
  [GenerateFileContent (File.name f); Delay].

(** An artifact that the coding loop or a refine pass has written. *)
Definition built (f : ProjectFile) : Prop :=
  File.status f = File.created ∨ File.status f = File.verified.

(** How promptly a piece of a build reacts to the Stop button.  The
    piece makes the suspensions [t].  If the flag was already set it
    makes none.  If Stop is clicked during one of them, the flag is set
    when the piece ends and nothing follows that suspension but, at
    most, one pacing delay. *)
Definition Prompt (W : World) (s s' : Sys) : Prop :=
  ∃ t, trace s' = trace s ++ t
       ∧ (abortController s = true → t = [] ∧ abortController s' = true)
       ∧ ∀ k, k < length t → stop_during W (length (trace s) + k) = true →
           length t ≤ k + 2
           ∧ (length t = k + 2 → last t = Some Delay)
           ∧ abortController s' = true.

(** The project has an artifact of that name. *)
Definition present (n : string) (l : list ProjectFile) : Prop :=
  ∃ i f, list_find (has_name n) l = Some (i, f).

(* ================================================================== *)
(** * Properties *)
(* ================================================================== *)

(** ** Merging by name *)

Lemma mergeChange_found files0 change idx f :
  list_find (has_name (change_name change)) files0 = Some (idx, f) →
  mergeChange files0 change = <[idx := with_content (change_content change) f]> files0.
Proof. intros H. unfold mergeChange. by rewrite H. Qed.

Lemma mergeChange_fresh files0 change :
  Forall (λ f, File.name f ≠ change_name change) files0 →
  mergeChange files0 change =
    files0 ++ [File.mk (change_name change) (change_language change)
                       (change_content change) File.created].
Proof.
  intros H. unfold mergeChange.
  assert (list_find (has_name (change_name change)) files0 = None) as ->; [|done].
  by apply list_find_None.
Qed.

Lemma mergeChange_names_found files0 change idx f :
  list_find (has_name (change_name change)) files0 = Some (idx, f) →
  File.name <$> mergeChange files0 change = File.name <$> files0.
Proof.
  intros H. rewrite (mergeChange_found _ _ _ _ H).
  apply list_find_Some in H as (Hl & _ & _).
  rewrite list_fmap_insert. simpl. apply list_insert_id.
  by rewrite list_lookup_fmap, Hl.
Qed.

(** The uniqueness of names is kept by a merge. *)
Lemma mergeChange_NoDup files0 change :
  NoDup (File.name <$> files0) → NoDup (File.name <$> mergeChange files0 change).
Proof.
  intros Hnd.
  destruct (list_find (has_name (change_name change)) files0) as [[idx f]|] eqn:E.
  - by rewrite (mergeChange_names_found _ _ _ _ E).
  - apply list_find_None in E. rewrite (mergeChange_fresh _ _ E).
    rewrite fmap_app. simpl. apply NoDup_app. split; [done|]. split.
    + intros x Hx Hx'. apply list_elem_of_singleton in Hx'. subst x.
      apply list_elem_of_fmap in Hx as (g & Hg & Hin).
      rewrite Forall_forall in E. by apply (E g Hin).
    + apply NoDup_singleton.
Qed.

Lemma mergeChanges_NoDup changes files0 :
  NoDup (File.name <$> files0) → NoDup (File.name <$> mergeChanges files0 changes).
Proof.
  revert files0. induction changes as [|c cs IH]; intros files0 H; simpl; [done|].
  apply IH. by apply mergeChange_NoDup.
Qed.

(** C6.  One changed file of a refinement response, merged into the
    artifact list as [refineProject] does it.  If an artifact of that
    name exists, the list keeps its length and only the content of the
    (first) artifact of that name is replaced: its name, language tag and
    status, and every other artifact, are untouched.  If no artifact has
    that name, the list grows by exactly one artifact, appended at the
    end with status [created] and the name, language and content of the
    change.  A whole response is the left fold of this step. *)
Theorem refine_merge_by_name (files0 : list ProjectFile) (change : Change) :
  (∀ changes, mergeChanges files0 (change :: changes)
              = mergeChanges (mergeChange files0 change) changes)
  ∧ ((∃ f, f ∈ files0 ∧ File.name f = change_name change) →
     length (mergeChange files0 change) = length files0 ∧
     ∃ idx f,
       files0 !! idx = Some f ∧ File.name f = change_name change ∧
       mergeChange files0 change !! idx
         = Some (File.mk (File.name f) (File.language f)
                         (change_content change) (File.status f)) ∧
       ∀ j, j ≠ idx → mergeChange files0 change !! j = files0 !! j)
  ∧ ((∀ f, f ∈ files0 → File.name f ≠ change_name change) →
     length (mergeChange files0 change) = length files0 + 1 ∧
     mergeChange files0 change !! length files0
       = Some (File.mk (change_name change) (change_language change)
                       (change_content change) File.created) ∧
     ∀ j, j < length files0 → mergeChange files0 change !! j = files0 !! j).
Proof.
  split; [done|]. split.
  - intros (f & Hin & Hname).
    destruct (list_find_elem_of (has_name (change_name change)) files0 f Hin Hname)
      as [[idx g] Hfind].
    rewrite (mergeChange_found _ _ _ _ Hfind).
    pose proof Hfind as (Hl & Hg & _)%list_find_Some.
    split; [by rewrite length_insert|].
    exists idx, g. split; [done|]. split; [done|]. split.
    + apply list_lookup_insert_eq. by eapply lookup_lt_Some.
    + intros j Hj. by apply list_lookup_insert_ne.
  - intros Hfresh.
    rewrite mergeChange_fresh by (by apply Forall_forall).
    split; [rewrite length_app; simpl; lia|]. split.
    + rewrite lookup_app_r by lia. by rewrite Nat.sub_diag.
    + intros j Hj. by apply lookup_app_l.
Qed.

(** ** Starting a build *)

Lemma startBuild_run promptText s :
  startBuild promptText s =
    (Ok tt,
     mkSys (fresh_project promptText)
           (messages s ++ [Msg.mk Msg.agent
              "Target acquired. Initializing DAION build sequence..."])
           [] (abortController s) (trace s) (phases s ++ [PLANNING])).
Proof. reflexivity. Qed.

(** C9.  [handleStartMarathon] begins with [startBuild]; after it the
    live project is the fresh one (no files, no findings, [iteration] 0,
    [qualityScore] 0, no logs, no report, phase Planning) and the metrics
    series is empty, whatever the project and the series were before.
    The replacement is one [setState] of a whole new value, and nothing
    of the old project or series survives it: two runs of the handler
    that start from stores differing only in the project and the series
    end in the same stores. *)
Theorem start_build_resets W (fuel : nat) (promptText : string) (s : Sys) :
  let s1 := snd (startBuild promptText s) in
  (handleStartMarathonFuel W fuel promptText s =
     (addLog "DAION Agent Initialized." Log.system ;;
      addLog ("Goal: " +:+ promptText) Log.info ;;
      tryCatch (buildBody W fuel promptText) (buildCatch)) s1)
  ∧ st s1 = fresh_project promptText
  ∧ iteration (st s1) = 0
  ∧ qualityScore (st s1) = 0%Z
  ∧ metricsData s1 = []
  ∧ ∀ old_project old_metrics,
      handleStartMarathonFuel W fuel promptText
        (mkSys old_project (messages s) old_metrics (abortController s)
               (trace s) (phases s))
      = handleStartMarathonFuel W fuel promptText s.
Proof.
  cbv zeta. rewrite startBuild_run. simpl.
  split; [reflexivity|]. repeat (split; [reflexivity|]).
  intros old_project old_metrics. reflexivity.
Qed.

(** ** A manual test run *)

(** What [handleManualTest] does to the stores when the analysis call
    returns, for the render [view] it was created in. *)
Lemma handleManualTest_frame W view s :
  api_key W = true →
  files view ≠ [] →
  let a := read_analysis (analysis_reply W (length (trace s))) in
  let s' := snd (handleManualTest W view s) in
  fst (handleManualTest W view s) = Ok tt
  ∧ files (st s') = files (st s)
  ∧ name (st s') = name (st s)
  ∧ description (st s') = description (st s)
  ∧ iteration (st s') = iteration (st s)
  ∧ report (st s') = report (st s)
  ∧ generatedArtifacts (st s') = generatedArtifacts (st s)
  ∧ testResults (st s') = Analysis.results a
  ∧ qualityScore (st s') = Analysis.qualityScore a
  ∧ metricsData s' = metricsData s ++
      [Chart.mk (next_manual_iteration (metricsData s))
                (Analysis.qualityScore a) (bugCount a)]
  ∧ status (st s') = (if bool_decide (status view = COMPLETED)
                      then COMPLETED else IDLE)
  ∧ messages s' = messages s.
Proof.
  intros Hkey Hfiles. cbv zeta.
  unfold handleManualTest.
  destruct (files view) as [|f0 fs] eqn:Ef; [done|]. simpl length. simpl Nat.eqb. cbv iota.
  unfold tryCatch, runAutonomousTests, getAiClient. rewrite Hkey.
  unfold mbind, M_bind, mret, M_ret, setState, addLog, setState, setMetricsData, suspend.
  simpl.
  destruct (stop_during W (length (trace s))); simpl;
    destruct (degraded (Analysis.vibeCheck
                (read_analysis (analysis_reply W (length (trace s)))))); simpl;
    repeat split; reflexivity.
Qed.

(** C10.  A click on the manual-test button with a non-empty artifact
    list and a configured service (so that the analysis call is made and
    returns, with a real or with the absorbed zero result): the handler
    returns; [files], [name], [description], [iteration] and [report]
    are what they were; [testResults] and [qualityScore] are exactly
    those of the analysis; the metrics series has exactly one more
    snapshot, numbered one past the last one (1 on an empty series) and
    holding the analysis' score and number of failed findings; and the
    phase is Completed if it was Completed at the click and Idle
    otherwise.  This holds whether or not Stop is clicked during the
    call. *)
Theorem manual_test_frame W (s : Sys) :
  api_key W = true →
  files (st s) ≠ [] →
  let a := read_analysis (analysis_reply W (length (trace s))) in
  let s' := snd (clickManualTest W s) in
  fst (clickManualTest W s) = Ok tt
  ∧ files (st s') = files (st s)
  ∧ name (st s') = name (st s)
  ∧ description (st s') = description (st s)
  ∧ iteration (st s') = iteration (st s)
  ∧ report (st s') = report (st s)
  ∧ testResults (st s') = Analysis.results a
  ∧ qualityScore (st s') = Analysis.qualityScore a
  ∧ metricsData s' = metricsData s ++
      [Chart.mk (next_manual_iteration (metricsData s))
                (Analysis.qualityScore a) (bugCount a)]
  ∧ length (metricsData s') = length (metricsData s) + 1
  ∧ status (st s') = (if bool_decide (status (st s) = COMPLETED)
                      then COMPLETED else IDLE).
Proof.
  intros Hkey Hfiles. cbv zeta. unfold clickManualTest.
  destruct (handleManualTest_frame W (st s) s Hkey Hfiles)
    as (H1 & H2 & H3 & H4 & H5 & H6 & _ & H7 & H8 & H9 & H10 & _).
  repeat (split; [assumption|]).
  split; [|assumption]. rewrite H9, length_app. simpl. reflexivity.
Qed.

(** ** Reasoning about runs *)

Lemma wp_bind {A B} (m : M A) (f : A → M B) s (Q : Outcome B → Sys → Prop) :
  wp m s (λ r s1, match r with
                  | Ok a => wp (f a) s1 Q
                  | Thrown e => Q (Thrown e) s1
                  | OutOfFuel => Q OutOfFuel s1
                  end) →
  wp (m ≫= f) s Q.
Proof.
  unfold wp, mbind, M_bind. destruct (m s) as [[a|e|] s1]; simpl; auto.
Qed.

Lemma wp_mono {A} (m : M A) s (Q Q' : Outcome A → Sys → Prop) :
  wp m s Q → (∀ r s', Q r s' → Q' r s') → wp m s Q'.
Proof. unfold wp. auto. Qed.

Lemma grows_refl {A} (P : A → Prop) l : grows P l l.
Proof. exists []. by rewrite app_nil_r. Qed.

Lemma grows_trans {A} (P : A → Prop) l1 l2 l3 :
  grows P l1 l2 → grows P l2 l3 → grows P l1 l3.
Proof.
  intros (k1 & -> & H1) (k2 & -> & H2). exists (k1 ++ k2).
  split; [by rewrite app_assoc | by apply Forall_app].
Qed.

Lemma grows_snoc {A} (P : A → Prop) l x : P x → grows P l (l ++ [x]).
Proof. intros H. exists [x]. split; [done | by constructor]. Qed.


Lemma igrows_refl {A} (P : nat → A → Prop) l : igrows P l l.
Proof. exists []. split; [by rewrite app_nil_r | intros i x; by rewrite lookup_nil]. Qed.

Lemma igrows_trans {A} (P : nat → A → Prop) l1 l2 l3 :
  igrows P l1 l2 → igrows P l2 l3 → igrows P l1 l3.
Proof.
  intros (k1 & -> & H1) (k2 & -> & H2). exists (k1 ++ k2).
  split; [by rewrite app_assoc|]. intros i x Hi.
  apply lookup_app_Some in Hi as [Hi|[Hle Hi]]; [by apply H1|].
  specialize (H2 _ _ Hi). rewrite length_app in H2.
  replace (length l1 + i) with (length l1 + length k1 + (i - length k1)) by lia.
  done.
Qed.

Lemma igrows_snoc {A} (P : nat → A → Prop) l x : P (length l) x → igrows P l (l ++ [x]).
Proof.
  intros H. exists [x]. split; [done|]. intros [|i] y Hy; simpl in Hy; [|done].
  injection Hy as <-. by rewrite Nat.add_0_r.
Qed.

Lemma count_tests_app t1 t2 : count_tests (t1 ++ t2) = count_tests t1 + count_tests t2.
Proof. unfold count_tests. by rewrite filter_app, length_app. Qed.

Lemma Ext_refl s : Ext s s.
Proof. repeat split; auto using grows_refl. Qed.

Lemma Ext_trans s1 s2 s3 : Ext s1 s2 → Ext s2 s3 → Ext s1 s3.
Proof.
  intros (A1 & B1 & C1 & D1) (A2 & B2 & C2 & D2).
  repeat split; eauto using grows_trans.
Qed.

Lemma Reached_later x s1 s2 s3 :
  Ext s1 s2 → (∃ p, phases s3 = phases s2 ++ x :: p) → Reached x s1 s3.
Proof.
  intros (_ & (k & Hk & _) & _) (p & Hp). exists k, p.
  by rewrite Hp, Hk, <- app_assoc.
Qed.

Lemma NoMax_refl s : NoMax s s.
Proof. apply grows_refl. Qed.

Lemma NoMax_trans s1 s2 s3 : NoMax s1 s2 → NoMax s2 s3 → NoMax s1 s3.
Proof. apply grows_trans. Qed.

Section Runs.
Context (W : World).

Lemma Clean_refl s : Clean W s s.
Proof. apply igrows_refl. Qed.

Lemma Clean_trans s1 s2 s3 : Clean W s1 s2 → Clean W s2 s3 → Clean W s1 s3.
Proof. apply igrows_trans. Qed.

Lemma Clean_FailedAt s1 s2 s3 msg :
  Clean W s1 s2 → FailedAt W s2 s3 msg → FailedAt W s1 s3 msg.
Proof.
  intros (k & Hk & H1) (t & c & Ht & H2 & H3). rewrite Hk in *.
  exists (k ++ t), c. split; [by rewrite Ht, !app_assoc|]. split.
  - intros i x Hi. apply lookup_app_Some in Hi as [Hi|[Hle Hi]]; [by apply H1|].
    specialize (H2 _ _ Hi). rewrite length_app in H2.
    replace (length (trace s1) + i)
      with (length (trace s1) + length k + (i - length k)) by lia.
    done.
  - rewrite !length_app in *. by rewrite Nat.add_assoc.
Qed.

Lemma Post_trans {A B} k1 k2 s1 s2 s3 (a : A) (r : Outcome B) :
  Post W k1 s1 (Ok a) s2 → Post W k2 s2 r s3 → Post W (k1 + k2) s1 r s3.
Proof.
  intros (E1 & M1 & C1 & G1 & L1) (E2 & M2 & C2 & R2).
  split; [by eapply Ext_trans|]. split; [congruence|]. split; [lia|].
  destruct r as [b|msg|]; [| |done].
  - destruct R2 as [G2 L2]. split; [done | by eapply Clean_trans].
  - destruct R2 as [(-> & H2 & L2)|F2].
    + left. split; [done|]. split; [done | by eapply Clean_trans].
    + right. by eapply Clean_FailedAt.
Qed.

Lemma Post_Ok_any {A B} k s (a : A) (b : B) s' :
  Post W k s (Ok a) s' → Post W k s (Ok b) s'.
Proof. intros H. exact H. Qed.

Lemma Post_Ok_Good {A} k s (a : A) s' : Post W k s (Ok a) s' → Good s'.
Proof. by intros (_ & _ & _ & ? & _). Qed.

Lemma Post_weaken {A} k k' s (r : Outcome A) s' :
  k ≤ k' → Post W k s r s' → Post W k' s r s'.
Proof.
  intros Hk (E & M0 & C & R).
  split; [done|]. split; [done|]. split; [lia | done].
Qed.

End Runs.

(** ** The pieces of a build, one contract each *)

Lemma isBusy_not_FAILED x : isBusy x = true → x ≠ FAILED.
Proof. by intros H ->. Qed.

Ltac side_tac :=
  simpl; unfold exhausted_entry;
  try done; try discriminate;
  try (apply isBusy_not_FAILED; assumption);
  try (intros ?; congruence).

Ltac grows_tac :=
  simpl;
  first
    [ apply grows_refl
    | repeat rewrite <- app_assoc; simpl; eexists; split; [reflexivity|];
      repeat (apply Forall_cons; split); try apply Forall_nil; side_tac ].

Ltac ext_tac :=
  split; [grows_tac|]; split; [grows_tac|]; split; [grows_tac|];
  simpl; try done; try lia.

Ltac count_tac :=
  simpl; rewrite ?count_tests_app;
  repeat match goal with
         | |- context [count_tests [?c]] =>
             let v := eval vm_compute in (count_tests [c]) in
             change (count_tests [c]) with v
         end;
  simpl; try lia.

Ltac good_tac :=
  first [ assumption
        | left; split; simpl; done
        | right; split; simpl; done ].

(** Symbolic execution of the primitives of the handler monad. *)
Ltac run :=
  cbv beta iota zeta delta
    [wp mbind M_bind mret M_ret throw outOfFuel tryCatch checkAbort addLog
     setState setMessages setMetricsData setAbort handleStop suspend
     getAiClient generateProjectPlan generateFileContent runAutonomousTests
     refactorCode generateFinalReport refineProject];
  simpl.

Section Blocks.
Context (W : World) (Hkey : api_key W = true).

Lemma Post_ret {A} (a : A) s : Good s → Post W 0 s (Ok a) s.
Proof.
  intros HG. split; [apply Ext_refl|]. split; [done|]. split; [lia|].
  split; [done | apply Clean_refl].
Qed.

Lemma Post_halt {A} s : Halted s → @Post W 0 s A (Thrown STOP_MESSAGE) s.
Proof.
  intros HG. split; [apply Ext_refl|]. split; [done|]. split; [lia|].
  left. split; [done|]. split; [done | apply Clean_refl].
Qed.

Lemma Clean_same s s' : trace s' = trace s → Clean W s s'.
Proof. intros H. unfold Clean. rewrite H. apply igrows_refl. Qed.

Lemma Clean_one s s' c :
  trace s' = trace s ++ [c] → failure_of W (length (trace s)) c = None →
  Clean W s s'.
Proof. intros H Hc. unfold Clean. rewrite H. by apply igrows_snoc. Qed.

Lemma Clean_two s s' c d :
  trace s' = (trace s ++ [c]) ++ [d] →
  failure_of W (length (trace s)) c = None →
  failure_of W (S (length (trace s))) d = None →
  Clean W s s'.
Proof.
  intros H Hc Hd. unfold Clean. rewrite H.
  eapply igrows_trans; [by apply igrows_snoc|].
  apply igrows_snoc. rewrite length_app. simpl. by rewrite Nat.add_1_r.
Qed.

Lemma FailedAt_one s s' c msg :
  trace s' = trace s ++ [c] → failure_of W (length (trace s)) c = Some msg →
  FailedAt W s s' msg.
Proof.
  intros H Hc. exists [], c. split; [done|]. split.
  - intros i x. by rewrite lookup_nil.
  - simpl. by rewrite Nat.add_0_r.
Qed.

Lemma wp_step {A} k1 k2 s s1 (m : M A) :
  Post W k1 s (Ok tt) s1 → NoMax s s1 →
  wp m s1 (λ r s', Post W k2 s1 r s' ∧ NoMax s1 s') →
  wp m s1 (λ r s', Post W (k1 + k2) s r s' ∧ NoMax s s').
Proof.
  intros HP HN Hm. eapply wp_mono; [exact Hm|]. simpl. intros r s' [HP' HN'].
  split; [by eapply Post_trans | by eapply NoMax_trans].
Qed.

Lemma wp_step3 {A} k1 k2 s s1 (m : M A) (R : Outcome A → Sys → Prop) :
  Post W k1 s (Ok tt) s1 → NoMax s s1 →
  wp m s1 (λ r s', Post W k2 s1 r s' ∧ NoMax s1 s' ∧ R r s') →
  wp m s1 (λ r s', Post W (k1 + k2) s r s' ∧ NoMax s s' ∧ R r s').
Proof.
  intros HP HN Hm. eapply wp_mono; [exact Hm|]. simpl. intros r s' (HP' & HN' & HR).
  split; [by eapply Post_trans|]. split; [by eapply NoMax_trans | done].
Qed.

Lemma chain {B} k1 k2 s s1 (r : Outcome B) s' :
  Post W k1 s (Ok tt) s1 → NoMax s s1 →
  Post W k2 s1 r s' → NoMax s1 s' →
  Post W (k1 + k2) s r s' ∧ NoMax s s'.
Proof.
  intros HP1 HN1 HP HN. split; [by eapply Post_trans | by eapply NoMax_trans].
Qed.

Ltac clean_tac :=
  first [ apply Clean_same; reflexivity
        | eapply Clean_one; [reflexivity | simpl; try done; try by rewrite_reply ]
        | eapply Clean_two; [reflexivity | simpl; try done | simpl; try done ] ]
with rewrite_reply :=
  match goal with
  | H : _ = _ |- _ => rewrite H; reflexivity
  end.

Ltac post_ok :=
  split; [ext_tac|]; split; [reflexivity|]; split; [count_tac|];
  split; [good_tac | clean_tac].

Ltac post_stop :=
  split; [ext_tac|]; split; [reflexivity|]; split; [count_tac|];
  left; split; [reflexivity|]; split; [split; simpl; done | clean_tac].

Ltac post_fail :=
  split; [ext_tac|]; split; [reflexivity|]; split; [count_tac|];
  right; eapply FailedAt_one; [reflexivity | simpl; by rewrite_reply].

Lemma refactorLoop_post context targets currentFiles s :
  Good s →
  wp (refactorLoop W context targets currentFiles) s
     (λ r s', Post W 0 s r s' ∧ NoMax s s' ∧ r ≠ OutOfFuel).
Proof.
  revert currentFiles s. induction targets as [|file rest IH]; intros cur s HG.
  - split; [by apply Post_ret | split; [apply NoMax_refl | done]].
  - simpl refactorLoop. run. rewrite Hkey.
    destruct HG as [[Ha Hb]|[Ha Hs]]; rewrite Ha; simpl.
    2:{ split; [by apply Post_halt | split; [apply NoMax_refl | done]]. }
    rewrite Hb, andb_true_r.
    destruct (stop_during W (length (trace s))) eqn:Estop; simpl;
      destruct (refactor_reply W (length (trace s))) as [msg| |t] eqn:Er; simpl;
      try (split; [post_fail | split; [grows_tac | done]]);
      destruct (list_find (has_name (File.name file)) cur) as [[index g]|]; simpl;
      match goal with
      | |- context [refactorLoop W ?ctx ?tg ?c ?s1] =>
          assert (HG1 : Good s1) by good_tac;
          assert (HP1 : Post W 0 s (Ok tt) s1) by post_ok;
          assert (HN1 : NoMax s s1) by grows_tac;
          pose proof (IH c s1 HG1) as HI; unfold wp in HI;
          destruct (refactorLoop W ctx tg c s1) as [r s']; simpl in HI |- *;
          destruct HI as (HP & HN & HF);
          destruct (chain 0 0 s s1 r s' HP1 HN1 HP HN) as [HP' HN'];
          split; [exact HP' | split; [exact HN' | exact HF]]
      end.
Qed.

Lemma planPhase_post promptText s :
  Good s →
  wp (planPhase W promptText) s
     (λ r s', Post W 0 s r s' ∧ NoMax s s' ∧ r ≠ OutOfFuel).
Proof.
  intros HG. unfold planPhase. run. rewrite Hkey.
  destruct HG as [[Ha Hb]|[Ha Hs]]; rewrite Ha; simpl.
  2:{ split; [by apply Post_halt | split; [apply NoMax_refl | done]]. }
  rewrite Hb, andb_true_r.
  destruct (stop_during W (length (trace s))) eqn:Estop; simpl;
    destruct (plan_reply W (length (trace s))) as [msg| |d] eqn:Er; simpl;
    first [ split; [post_fail | split; [grows_tac | done]]
          | split; [post_stop | split; [grows_tac | done]]
          | rewrite Ha; simpl; split; [post_ok | split; [grows_tac | done]] ].
Qed.

Lemma codingLoop_post todo promptText i currentFiles s :
  Good s →
  wp (codingLoop W todo promptText i currentFiles) s
     (λ r s', Post W 0 s r s' ∧ NoMax s s'
              ∧ (length currentFiles ≤ todo + i → r ≠ OutOfFuel)).
Proof.
  revert i currentFiles s.
  induction todo as [|todo IH]; intros i cur s HG; simpl codingLoop;
    destruct (i <? length cur) eqn:Ei;
    try (split; [by apply Post_ret | split; [apply NoMax_refl | done]]).
  - apply Nat.ltb_lt in Ei.
    split; [|split; [apply NoMax_refl | intros Hl; exfalso; lia]].
    split; [apply Ext_refl|]. split; [done|]. split; [simpl; lia | done].
  - apply Nat.ltb_lt in Ei. run. rewrite Hkey.
    destruct HG as [[Ha Hb]|[Ha Hs]]; rewrite Ha; simpl.
    2:{ split; [by apply Post_halt | split; [apply NoMax_refl | done]]. }
    destruct (cur !! i) as [file|] eqn:Ef; simpl.
    2:{ split; [apply Post_ret; by left | split; [apply NoMax_refl | done]]. }
    rewrite Hb, andb_true_r.
    destruct (stop_during W (length (trace s))) eqn:Estop; simpl;
      [ rewrite andb_false_r; simpl
      | rewrite Hb, andb_true_r; rewrite length_app; simpl;
        destruct (stop_during W (length (trace s) + 1)) eqn:Estop2; simpl ].
      all: match goal with
      | |- context [codingLoop W ?t ?p ?j ?c ?s1] =>
          assert (HG1 : Good s1) by good_tac;
          assert (HP1 : Post W 0 s (Ok tt) s1) by post_ok;
          assert (HN1 : NoMax s s1) by grows_tac;
          pose proof (IH j c s1 HG1) as HI; unfold wp in HI;
          destruct (codingLoop W t p j c s1) as [r s']; simpl in HI |- *;
          destruct HI as (HP & HN & HR);
          destruct (chain 0 0 s s1 r s' HP1 HN1 HP HN) as [HP' HN'];
          split; [exact HP' | split; [exact HN' |]];
          intros Hlen; apply HR; rewrite length_insert; lia
      end.
Qed.

Lemma convergePass_post it currentFiles s :
  Good s → it ≤ MAX_ITERATIONS →
  wp (convergePass W it currentFiles) s
     (λ r s', Post W 1 s r s'
              ∧ match r with
                | Ok (Continue, _, _) => it < MAX_ITERATIONS ∧ NoMax s s'
                | Ok (Break, _, _) => Live s'
                | Thrown _ => NoMax s s'
                | OutOfFuel => False
                end).
Proof.
  intros HG Hit. unfold convergePass. run. rewrite Hkey.
  destruct HG as [[Ha Hb]|[Ha Hs]]; rewrite Ha; simpl.
  2:{ split; [eapply Post_weaken; [|by apply Post_halt]; lia | apply NoMax_refl]. }
  destruct (stop_during W (length (trace s))) eqn:Estop; simpl.
  { split; [post_stop | grows_tac]. }
  rewrite Ha; simpl.
  set (a := read_analysis (analysis_reply W (length (trace s)))).
  destruct (degraded (Analysis.vibeCheck a)) eqn:Edeg; simpl;
    (destruct (needsRefinement a && (it <? MAX_ITERATIONS)) eqn:Eref; simpl;
     [ apply andb_true_iff in Eref as [_ Hlt%Nat.ltb_lt];
       unfold refinePass; run
     | destruct ((95 <=? Analysis.qualityScore a)%Z) eqn:Eq; simpl;
       try match goal with
           | |- context [MAX_ITERATIONS <=? it] =>
               destruct (MAX_ITERATIONS <=? it) eqn:Emax; simpl
           end ]).
  all: try match goal with
      | |- context [refactorLoop W ?ctx ?tg ?c ?s1] =>
          assert (HG1 : Good s1) by good_tac;
          assert (HP1 : Post W 1 s (Ok tt) s1) by post_ok;
          assert (HN1 : NoMax s s1) by grows_tac;
          pose proof (refactorLoop_post ctx tg c s1 HG1) as HI; unfold wp in HI;
          destruct (refactorLoop W ctx tg c s1) as [r s']; simpl in HI |- *;
          destruct HI as (HP & HN & HF);
          destruct (chain 1 0 s s1 r s' HP1 HN1 HP HN) as [HP' HN'];
          destruct r as [cur'|msg|]; simpl;
          [ split; [exact HP' | split; [exact Hlt | exact HN']]
          | split; [exact HP' | exact HN']
          | done ]
      end.
  all: try (apply Nat.leb_gt in Emax).
  all: try (split; [post_ok|]; first [ split; [done | grows_tac] | split; simpl; done ]).
Qed.

Lemma convergeLoop_post fuel it q currentFiles s :
  Good s →
  wp (convergeLoop W fuel it q currentFiles) s
     (λ r s', Post W (S MAX_ITERATIONS - it) s r s'
              ∧ match r with
                | Ok (it', _, _) =>
                    (it ≤ MAX_ITERATIONS → it' ≤ MAX_ITERATIONS)
                    ∧ (Live s' ∨ NoMax s s')
                | Thrown _ => NoMax s s'
                | OutOfFuel => fuel + it < S MAX_ITERATIONS ∧ NoMax s s'
                end).
Proof.
  revert it q currentFiles s.
  induction fuel as [|fuel IH]; intros it q cur s HG; simpl convergeLoop;
    destruct ((it <=? MAX_ITERATIONS) && (q <? 95)%Z) eqn:Eg;
    try (split; [eapply Post_weaken; [|by apply Post_ret]; lia
                | split; [done | right; apply NoMax_refl]]);
    apply andb_true_iff in Eg as [Hit%Nat.leb_le _].
  - split; [|split; [simpl; lia | apply NoMax_refl]].
    split; [apply Ext_refl|]. split; [done|]. split; [simpl; lia | done].
  - unfold wp, mbind, M_bind.
    pose proof (convergePass_post it cur s HG Hit) as HP. unfold wp in HP.
    destruct (convergePass W it cur s) as [[[[[|] q'] cur']|msg|] s1];
      simpl in HP |- *.
    + destruct HP as [HP HL]. split; [eapply Post_weaken; [|exact HP]; lia|].
      split; [done | by left].
    + destruct HP as (HP & Hlt & HN).
      assert (HG1 : Good s1) by (by eapply Post_Ok_Good).
      pose proof (IH (S it) q' cur' s1 HG1) as HI. unfold wp in HI.
      destruct (convergeLoop W fuel (S it) q' cur' s1) as [r s']; simpl in HI |- *.
      destruct HI as [HP' HX].
      split.
      { replace (S MAX_ITERATIONS - it) with (1 + (S MAX_ITERATIONS - S it)) by lia.
        eapply Post_trans; [|exact HP']. eapply (Post_Ok_any _ _ _ _ tt), HP. }
      destruct r as [[[it' q''] cur'']|msg'|].
      * destruct HX as [Hb [HL|HN']]; (split; [intros _; apply Hb; lia|]);
          [by left | right; by eapply NoMax_trans].
      * by eapply NoMax_trans.
      * destruct HX as [Hf HN']. split; [lia | by eapply NoMax_trans].
    + destruct HP as [HP HN]. split; [eapply Post_weaken; [|exact HP]; lia | done].
    + by destruct HP.
Qed.

Lemma codingPhase_post promptText plan s :
  Good s →
  wp (codingPhase W promptText plan) s
     (λ r s', Post W 0 s r s' ∧ NoMax s s' ∧ r ≠ OutOfFuel).
Proof.
  intros HG. unfold codingPhase. run.
  match goal with
  | |- context [codingLoop W ?t ?p ?j ?c ?s1] =>
      assert (HG1 : Good s1)
        by (destruct HG as [[Ha Hb]|[Ha Hs]]; [left | right]; split; simpl; done);
      assert (HP1 : Post W 0 s (Ok tt) s1)
        by (destruct HG as [[Ha Hb]|[Ha Hs]]; [|rewrite Hs]; post_ok);
      assert (HN1 : NoMax s s1) by grows_tac;
      pose proof (codingLoop_post t p j c s1 HG1) as HI; unfold wp in HI;
      destruct (codingLoop W t p j c s1) as [r s']; simpl in HI |- *;
      destruct HI as (HP & HN & HR);
      destruct (chain 0 0 s s1 r s' HP1 HN1 HP HN) as [HP' HN'];
      split; [exact HP' | split; [exact HN' | apply HR; lia]]
  end.
Qed.

Lemma loopPhase_post fuel currentFiles s :
  Good s →
  wp (loopPhase W fuel currentFiles) s
     (λ r s', Post W MAX_ITERATIONS s r s'
              ∧ match r with
                | Ok (it', _, _) => it' ≤ MAX_ITERATIONS ∧ (Live s' ∨ NoMax s s')
                | Thrown _ => NoMax s s'
                | OutOfFuel => fuel < MAX_ITERATIONS ∧ NoMax s s'
                end).
Proof.
  intros HG. unfold loopPhase. run.
  match goal with
  | |- context [convergeLoop W ?f ?j ?q ?c ?s1] =>
      assert (HG1 : Good s1)
        by (destruct HG as [[Ha Hb]|[Ha Hs]]; [left | right]; split; simpl; done);
      assert (HP1 : Post W 0 s (Ok tt) s1)
        by (destruct HG as [[Ha Hb]|[Ha Hs]]; [|rewrite Hs]; post_ok);
      assert (HN1 : NoMax s s1) by grows_tac;
      pose proof (convergeLoop_post f j q c s1 HG1) as HI; unfold wp in HI;
      destruct (convergeLoop W f j q c s1) as [r s']; simpl in HI |- *;
      destruct HI as (HP & HX)
  end.
  split; [exact (Post_trans W 0 _ _ _ _ tt r HP1 HP)|].
  destruct r as [[[it' q'] cur']|msg|].
  - destruct HX as [Hb [HL|HN]]; (split; [apply Hb; unfold MAX_ITERATIONS; lia|]);
      [by left | right; by eapply NoMax_trans].
  - by eapply NoMax_trans.
  - destruct HX as [Hf HN]. split; [unfold MAX_ITERATIONS in *; lia|].
    by eapply NoMax_trans.
Qed.

Lemma reportPhase_post it q currentFiles s :
  Good s → it ≤ MAX_ITERATIONS →
  wp (reportPhase W it q currentFiles) s
     (λ r s',
        Ext s s'
        ∧ count_tests (trace s') ≤ count_tests (trace s) + 0
        ∧ match r with
          | Ok _ =>
              Live s ∧ status (st s') = COMPLETED ∧ abortController s' = false
              ∧ messages s' = messages s ++ [mission_complete]
              ∧ Clean W s s'
              ∧ ∃ p, phases s' = phases s ++ COMPLETED :: p
          | Thrown msg =>
              messages s' = messages s
              ∧ ((msg = STOP_MESSAGE ∧ Halted s ∧ s' = s)
                 ∨ (Live s
                    ∧ trace s' = trace s
                                 ++ [GenerateFinalReport it q (length currentFiles)]
                    ∧ failure_of W (length (trace s))
                        (GenerateFinalReport it q (length currentFiles)) = Some msg
                    ∧ status (st s') = COMPLETED
                    ∧ ∃ p, phases s' = phases s ++ COMPLETED :: p))
          | OutOfFuel => False
          end).
Proof.
  intros HG Hit. unfold reportPhase. run. rewrite Hkey.
  destruct HG as [[Ha Hb]|[Ha Hs]]; rewrite Ha; simpl.
  2:{ split; [apply Ext_refl|]. split; [lia|]. split; [done|]. left. done. }
  rewrite andb_false_r. simpl.
  destruct (report_reply W (length (trace s))) as [msg| |t] eqn:Er; simpl.
  - split; [ext_tac|]. split; [count_tac|]. split; [done|]. right.
    split; [done|]. split; [done|]. split; [by rewrite ?Er|].
    split; [done | by exists []].
  - split; [ext_tac|]. split; [count_tac|]. split; [done|].
    split; [done|]. split; [done|]. split; [done|]. split; [clean_tac|].
    eexists. by rewrite <- !app_assoc.
  - split; [ext_tac|]. split; [count_tac|]. split; [done|].
    split; [done|]. split; [done|]. split; [done|]. split; [clean_tac|].
    eexists. by rewrite <- !app_assoc.
Qed.

Lemma BuildPost_thrown fuel k s msg s' :
  k ≤ MAX_ITERATIONS →
  @Post W k s unit (Thrown msg) s' → NoMax s s' →
  BuildPost W fuel s (Thrown msg) s'.
Proof.
  intros Hk (HE & HM & HC & HR) HN.
  split; [done|]. split; [lia|]. split; [done|].
  destruct HR as [(-> & HH & HCl)|HF]; [left | right]; auto.
Qed.

Lemma buildBody_post fuel promptText s :
  Good s →
  wp (buildBody W fuel promptText) s (BuildPost W fuel s).
Proof.
  intros HG. unfold buildBody, wp, mbind, M_bind.
  pose proof (planPhase_post promptText s HG) as H1. unfold wp in H1.
  destruct (planPhase W promptText s) as [[plan|msg|] s1]; simpl in H1 |- *;
    destruct H1 as (HP1 & HN1 & HF1); [| | done].
  2:{ eapply (BuildPost_thrown _ 0); [lia | exact HP1 | exact HN1]. }
  pose proof (codingPhase_post promptText plan s1 (Post_Ok_Good W _ _ _ _ HP1)) as H2.
  unfold wp in H2.
  destruct (codingPhase W promptText plan s1) as [[cur|msg|] s2]; simpl in H2 |- *;
    destruct H2 as (HP2 & HN2 & HF2); [| | done].
  2:{ eapply (BuildPost_thrown _ (0 + 0)); [lia | | by eapply NoMax_trans].
      eapply Post_trans; [|exact HP2]. eapply (Post_Ok_any _ _ _ _ tt), HP1. }
  pose proof (Post_trans W 0 0 _ _ _ tt _
                (Post_Ok_any W _ _ _ tt _ HP1) HP2) as HP12.
  pose proof (NoMax_trans _ _ _ HN1 HN2) as HN12.
  pose proof (loopPhase_post fuel cur s2 (Post_Ok_Good W _ _ _ _ HP2)) as H3.
  unfold wp in H3.
  destruct (loopPhase W fuel cur s2) as [[[[it q] cur']|msg|] s3]; simpl in H3 |- *;
    destruct H3 as (HP3 & HX3).
  2:{ eapply (BuildPost_thrown _ (0 + 0 + MAX_ITERATIONS));
        [lia | | by eapply NoMax_trans].
      eapply Post_trans; [|exact HP3]. eapply (Post_Ok_any _ _ _ _ tt), HP12. }
  2:{ pose proof (Post_trans W _ _ _ _ _ tt _
                    (Post_Ok_any W _ _ _ tt _ HP12) HP3) as (HE & HM & HC & _).
      destruct HX3 as [Hf HN3].
      split; [done|]. split; [lia|]. split; [done|].
      split; [by eapply NoMax_trans | done]. }
  destruct HX3 as [Hit HLN].
  pose proof (Post_trans W _ _ _ _ _ tt _
                (Post_Ok_any W _ _ _ tt _ HP12) HP3) as HP123.
  destruct HP123 as (HE & HM & HC & HG3 & HCl).
  pose proof (reportPhase_post it q cur' s3 HG3 Hit) as H4.
  unfold wp in H4.
  destruct (reportPhase W it q cur' s3) as [[[]|msg|] s4]; simpl in H4 |- *;
    destruct H4 as (HE4 & HC4 & HR4); [| | done].
  - destruct HR4 as (HL3 & Hst & Hab & Hmsg & HCl4 & Hph).
    split; [by eapply Ext_trans|]. split; [lia|].
    split; [done|]. split; [done|]. split; [congruence|].
    split; [by eapply Clean_trans | by eapply Reached_later].
  - destruct HR4 as (Hmsg & [(-> & HH3 & ->)|(HL3 & Htr & Hfail & Hst & Hph)]).
    + split; [done|]. split; [lia|]. split; [congruence|]. left.
      split; [done|]. split; [done|]. split; [done|].
      destruct HLN as [[Ha _]|HN]; [destruct HH3; congruence | by eapply NoMax_trans].
    + split; [by eapply Ext_trans|]. split; [lia|]. split; [congruence|]. right.
      split.
      * eapply Clean_FailedAt; [exact HCl|]. by eapply FailedAt_one.
      * right. split; [by eapply Reached_later|]. split; [done|].
        eexists _, _, _. rewrite Htr. apply last_snoc.
Qed.

End Blocks.

(** ** A whole build *)

Lemma handleStartMarathonFuel_eq W fuel promptText s :
  handleStartMarathonFuel W fuel promptText s
  = tryCatch (buildBody W fuel promptText) buildCatch (after_start promptText s).
Proof. reflexivity. Qed.

Lemma after_start_Live promptText s :
  abortController s = false → Live (after_start promptText s).
Proof. intros H. split; [exact H | reflexivity]. Qed.






Lemma buildCatch_frame msg sb :
  (buildCatch msg sb).1 = Ok tt
  ∧ trace (buildCatch msg sb).2 = trace sb
  ∧ iteration (st (buildCatch msg sb).2) = iteration (st sb)
  ∧ files (st (buildCatch msg sb).2) = files (st sb)
  ∧ abortController (buildCatch msg sb).2 = abortController sb
  ∧ metricsData (buildCatch msg sb).2 = metricsData sb
  ∧ ∃ p, phases (buildCatch msg sb).2 = phases sb ++ p.
Proof.
  unfold buildCatch. case_bool_decide; run; repeat (split; [done|]);
    rewrite <- ?app_assoc; by eexists.
Qed.

Lemma buildCatch_stop sb :
  status (st (buildCatch STOP_MESSAGE sb).2) = status (st sb)
  ∧ logs (st (buildCatch STOP_MESSAGE sb).2) = logs (st sb) ++ [halted_entry]
  ∧ messages (buildCatch STOP_MESSAGE sb).2 = messages sb ++ [process_stopped]
  ∧ phases (buildCatch STOP_MESSAGE sb).2 = phases sb ++ [status (st sb)].
Proof. done. Qed.

Lemma buildCatch_fail msg sb :
  msg ≠ STOP_MESSAGE →
  status (st (buildCatch msg sb).2) = FAILED
  ∧ logs (st (buildCatch msg sb).2)
    = logs (st sb) ++ [Log.mk ("FAILURE: " +:+ msg) Log.error]
  ∧ messages (buildCatch msg sb).2 = messages sb ++ [critical_error].
Proof. intros H. unfold buildCatch. rewrite bool_decide_eq_false_2 by done. done. Qed.






Lemma build_outcome W promptText s :
  api_key W = true → abortController s = false →
  (handleStartMarathon W promptText s).1 = Ok tt
  ∧ BuildEnd W promptText s (handleStartMarathon W promptText s).2.
Proof.
  intros Hkey Ha. unfold handleStartMarathon, BuildEnd. cbv zeta.
  rewrite handleStartMarathonFuel_eq. unfold tryCatch.
  set (s1 := after_start promptText s).
  pose proof (buildBody_post W Hkey (S MAX_ITERATIONS) promptText s1
                (or_introl (after_start_Live promptText s Ha))) as HB.
  unfold wp in HB.
  destruct (buildBody W (S MAX_ITERATIONS) promptText s1) as [[[]|msg|] sb];
    simpl in HB |- *; destruct HB as (HE & HC & HR).
  - destruct HR as (Hst & Hab & Hmsg & HCl & HRe).
    split; [done|]. left. rewrite Hmsg. simpl. rewrite <- app_assoc. done.
  - destruct (buildCatch_frame msg sb) as (Hr & Htr & _ & _ & Hab & _ & _).
    split; [done|]. right.
    destruct HR as (Hmsg & [(-> & [HH1 HH2] & HCl & HN)|(HF & _)]).
    + left. destruct (buildCatch_stop sb) as (Hst & Hl & Hm & Hp).
      rewrite Hst, Hab, Hm, Hmsg. simpl. rewrite <- app_assoc.
      split; [done|]. split; [done|]. split; [done|].
      split; [unfold Clean in *; by rewrite ?Htr|].
      exists sb. rewrite ?Hp, ?HH2. done.
    + right. exists msg, sb.
      split; [unfold FailedAt in *; by rewrite ?Htr|]. split; [done|].
      destruct (decide (msg = STOP_MESSAGE)) as [->|Hne].
      * right. destruct (buildCatch_stop sb) as (Hst & Hl & Hm & Hp).
        rewrite Hl, Hm, Hmsg. simpl. rewrite <- app_assoc. done.
      * left. destruct (buildCatch_fail msg sb Hne) as (Hst & Hl & Hm).
        rewrite Hst, Hl, Hm, Hmsg. simpl. rewrite <- app_assoc. done.
  - destruct HR as (Hf & _). unfold MAX_ITERATIONS in Hf. lia.
Qed.

(** ** Failures and cancellation of a build *)

Lemma Clean_lookup W s s' n c :
  Clean W s s' → length (trace s) ≤ n → trace s' !! n = Some c →
  failure_of W n c = None.
Proof.
  intros (t & Ht & H) Hn Hl. rewrite Ht in Hl.
  rewrite lookup_app_r in Hl by done. specialize (H _ _ Hl).
  by replace (length (trace s) + (n - length (trace s))) with n in H by lia.
Qed.

Lemma FailedAt_lookup W s s' msg' n c msg :
  FailedAt W s s' msg' → length (trace s) ≤ n → trace s' !! n = Some c →
  failure_of W n c = Some msg → msg' = msg.
Proof.
  intros (t & c' & Ht & Hclean & Hlast) Hn Hl Hf. rewrite Ht in Hl.
  rewrite lookup_app_r in Hl by done.
  apply lookup_app_Some in Hl as [Hl|[Hle Hl]].
  - specialize (Hclean _ _ Hl).
    replace (length (trace s) + (n - length (trace s))) with n in Hclean by lia.
    congruence.
  - apply list_lookup_singleton_Some in Hl as [Hi <-].
    replace (length (trace s) + length t) with n in Hlast by lia. congruence.
Qed.

Lemma last_snoc2 {A} (l : list A) a b : last (l ++ [a; b]) = Some b.
Proof. change (l ++ [a; b]) with (l ++ [a] ++ [b]). by rewrite app_assoc, last_snoc. Qed.

Lemma Ext_no_error s s' :
  Ext s s' → Forall (λ e, Log.type e ≠ Log.error) (logs (st s)) →
  Forall (λ e, Log.type e ≠ Log.error) (logs (st s')).
Proof. intros ((k & -> & Hk) & _) H. by apply Forall_app. Qed.

Lemma after_start_no_error promptText s :
  Forall (λ e, Log.type e ≠ Log.error) (logs (st (after_start promptText s))).
Proof. simpl. repeat constructor; done. Qed.

(** What [handleRefinement] does when its [refineProject] call throws
    something else than the stop message. *)
Lemma handleRefinement_failure W view request s msg :
  api_key W = true →
  failure_of W (length (trace s)) (RefineProject request) = Some msg →
  msg ≠ STOP_MESSAGE →
  let s' := (handleRefinement W view request s).2 in
  (handleRefinement W view request s).1 = Ok tt
  ∧ status (st s') = IDLE
  ∧ last (logs (st s')) = Some (Log.mk ("Refinement failed: " +:+ msg) Log.error)
  ∧ messages s' = messages s ++
      [Msg.mk Msg.agent "I couldn't apply those changes. Check the logs."]
  ∧ files (st s') = files (st s).
Proof.
  intros Hkey Hf Hne. cbv zeta. unfold handleRefinement. run. rewrite Hkey. simpl.
  simpl in Hf.
  destruct (stop_during W (length (trace s))); simpl;
    destruct (refine_reply W (length (trace s))) as [m| |d]; simpl;
    try discriminate; injection Hf as <-;
    rewrite ?(bool_decide_eq_true_2 _ Hne); simpl;
    rewrite ?last_snoc; done.
Qed.

(** C4, as amended.  In a build (started with the flag cleared and a
    configured service) a request that throws - the plan, a refactor or
    the report request, thrown message other than the stop message -
    sets the phase to Failed and logs an [error] entry, and the
    conversation ends with the generic error notice.  In a refinement
    turn the [refineProject] request that throws is logged as [error]
    too and answered in the conversation, but the phase is set to Idle,
    not to Failed. *)
Theorem service_failure_outcome W :
  api_key W = true →
  (∀ promptText s n c msg,
     abortController s = false →
     let s' := (handleStartMarathon W promptText s).2 in
     length (trace s) ≤ n → trace s' !! n = Some c →
     failure_of W n c = Some msg → msg ≠ STOP_MESSAGE →
     status (st s') = FAILED
     ∧ last (logs (st s')) = Some (Log.mk ("FAILURE: " +:+ msg) Log.error)
     ∧ last (messages s') = Some critical_error)
  ∧ (∀ view request s msg,
       let s' := (handleRefinement W view request s).2 in
       failure_of W (length (trace s)) (RefineProject request) = Some msg →
       msg ≠ STOP_MESSAGE →
       status (st s') = IDLE
       ∧ last (logs (st s'))
         = Some (Log.mk ("Refinement failed: " +:+ msg) Log.error)
       ∧ last (messages s')
         = Some (Msg.mk Msg.agent "I couldn't apply those changes. Check the logs.")).
Proof.
  intros Hkey. split.
  - intros promptText s n c msg Ha s' Hn Hl Hf Hne. subst s'.
    destruct (build_outcome W promptText s Hkey Ha) as [_ HB].
    destruct HB as [(_ & _ & _ & HCl & _)|[(_ & _ & _ & HCl & _)|(msg' & sb & HF & _ & HR)]].
    + pose proof (Clean_lookup _ _ _ _ _ HCl Hn Hl). congruence.
    + pose proof (Clean_lookup _ _ _ _ _ HCl Hn Hl). congruence.
    + pose proof (FailedAt_lookup _ _ _ _ _ _ _ HF Hn Hl Hf) as ->.
      destruct HR as [(_ & Hst & Hlog & Hmsg)|(-> & _)]; [|done].
      rewrite Hst, Hlog, Hmsg.
      split; [done|]. split; [apply last_snoc | apply last_snoc2].
  - intros view request s msg s' Hf Hne. subst s'.
    destruct (handleRefinement_failure W view request s msg Hkey Hf Hne)
      as (_ & Hst & Hlog & Hmsg & _).
    rewrite Hmsg, last_snoc. done.
Qed.

(** C3, as amended.  A build started with the flag cleared and a
    configured service, during which Stop is clicked (the flag is set at
    the end) and no request throws: it ends in the Stopped phase; its
    last log entry is the warning "Process halted."; no log entry is an
    error; the phase is never Failed; the conversation gets the build
    announcement and "Process stopped.".  The result of a plan request
    that was in flight at the click is discarded: [files] stays what it
    was.  So is the result of an analysis request: [files],
    [testResults], [qualityScore] and the metrics series stay what they
    were.  (No statement is made here about a file-generation or a
    refactor request in flight at the click.)  In a refinement turn the
    result of the refine request in flight at the click is discarded
    too ([files] stays what it was) and no agent message is appended,
    but the turn ends in the Idle phase. *)
Theorem cancellation_unwinds W :
  api_key W = true →
  (∀ promptText s,
     abortController s = false →
     let s' := (handleStartMarathon W promptText s).2 in
     abortController s' = true →
     (∀ n c, length (trace s) ≤ n → trace s' !! n = Some c →
             failure_of W n c = None) →
     status (st s') = STOPPED
     ∧ last (logs (st s')) = Some halted_entry
     ∧ Forall (λ e, Log.type e ≠ Log.error) (logs (st s'))
     ∧ (∃ p, phases s' = phases s ++ p ∧ FAILED ∉ p)
     ∧ messages s' = messages s ++ [target_acquired; process_stopped])
  ∧ (∀ promptText s d,
       Live s → stop_during W (length (trace s)) = true →
       plan_reply W (length (trace s)) = Body d →
       let s' := (planPhase W promptText s).2 in
       (planPhase W promptText s).1 = Thrown STOP_MESSAGE
       ∧ files (st s') = files (st s)
       ∧ status (st s') = STOPPED)
  ∧ (∀ it currentFiles s,
       Live s → stop_during W (length (trace s)) = true →
       let s' := (convergePass W it currentFiles s).2 in
       (convergePass W it currentFiles s).1 = Thrown STOP_MESSAGE
       ∧ files (st s') = files (st s)
       ∧ testResults (st s') = testResults (st s)
       ∧ qualityScore (st s') = qualityScore (st s)
       ∧ metricsData s' = metricsData s
       ∧ status (st s') = STOPPED)
  ∧ (∀ view request s d,
       abortController s = false → stop_during W (length (trace s)) = true →
       refine_reply W (length (trace s)) = Body d →
       let s' := (handleRefinement W view request s).2 in
       status (st s') = IDLE
       ∧ files (st s') = files (st s)
       ∧ messages s' = messages s
       ∧ Forall (λ e, Log.type e ≠ Log.error)
                (drop (length (logs (st s))) (logs (st s')))).
Proof.
  intros Hkey. split; [|split; [|split]].
  - intros promptText s Ha s' Hab Hclean. subst s'.
    destruct (build_outcome W promptText s Hkey Ha) as [_ HB].
    destruct HB as [(_ & Hab' & _)|[(Hst & _ & Hmsg & HCl & sb & HE & Hlog & Hph)
                                   |(msg' & sb & HF & _)]].
    + congruence.
    + split; [done|]. split; [rewrite Hlog; apply last_snoc|].
      split; [|split; [|done]].
      * rewrite Hlog. apply Forall_app. split; [|repeat constructor; done].
        eapply Ext_no_error; [exact HE | apply after_start_no_error].
      * destruct HE as (_ & (k & Hk & HFk) & _). rewrite Hph, Hk. simpl.
        rewrite <- !app_assoc. eexists. split; [reflexivity|]. simpl.
        rewrite !not_elem_of_cons, not_elem_of_app, not_elem_of_cons.
        rewrite Forall_forall in HFk.
        repeat split; try done. intros Hin. by apply (HFk _ Hin).
        apply not_elem_of_nil.
    + destruct HF as (t & c & Ht & _ & Hf).
      assert (failure_of W (length (trace s) + length t) c = None) as Hn; [|simpl in Hf; congruence].
      apply Hclean; [lia|]. rewrite Ht. simpl.
      rewrite lookup_app_r by lia. rewrite lookup_app_r by lia.
      replace (length (trace s) + length t - length (trace s) - length t) with 0 by lia.
      done.
  - intros promptText s d [Ha Hb] Hstop Hd. cbv zeta. unfold planPhase. run.
    rewrite Hkey, Ha. simpl. rewrite Hstop, Hb. simpl. rewrite Hd. simpl. done.
  - intros it cur s [Ha Hb] Hstop. cbv zeta. unfold convergePass. run.
    rewrite Hkey, Ha. simpl. rewrite Hstop. simpl. done.
  - intros view request s d Ha Hstop Hd. cbv zeta. unfold handleRefinement. run.
    rewrite Hkey. simpl. rewrite Hstop. simpl. rewrite Hd. simpl.
    repeat (split; [done|]). rewrite <- !app_assoc, drop_app_length. simpl.
    repeat constructor; done.
Qed.

(** ** The conversation *)




(** ** Failures that are absorbed *)

Section Absorbed.
Context (W : World) (Hkey : api_key W = true).
Context (Hquiet : ∀ n, stop_during W n = false).



Context (Hfails : ∀ n d, analysis_reply W n ≠ Body d).



Context (Hreport : ∀ n msg, report_reply W n ≠ Failure msg).


End Absorbed.



(** ** The decision of a loop pass *)

Section Decision.
Context (W : World) (Hkey : api_key W = true).

(** A loop pass without a stop click is the analysis part followed by
    the decision. *)
Lemma convergePass_tested it currentFiles s :
  Live s → stop_during W (length (trace s)) = false →
  let a := read_analysis (analysis_reply W (length (trace s))) in
  convergePass W it currentFiles s =
    (if needsRefinement a && (it <? MAX_ITERATIONS) then
       currentFiles' ← refinePass W a currentFiles;
       mret (Continue, Analysis.qualityScore a, currentFiles')
     else if (95 <=? Analysis.qualityScore a)%Z
             && negb (degraded (Analysis.vibeCheck a)) then
       addLog "System stable." Log.success ;;
       mret (Break, Analysis.qualityScore a, currentFiles)
     else if MAX_ITERATIONS <=? it then
       addLog "Max iterations reached." Log.warning ;;
       mret (Break, Analysis.qualityScore a, currentFiles)
     else mret (Continue, Analysis.qualityScore a, currentFiles))
    (tested it a s).
Proof.
  intros [Ha Hb] Hstop. cbv zeta. unfold convergePass, tested. run.
  rewrite Hkey, Ha. simpl. rewrite Hstop. simpl. rewrite Ha. simpl.
  destruct (degraded (Analysis.vibeCheck
              (read_analysis (analysis_reply W (length (trace s)))))); reflexivity.
Qed.

Lemma tested_Live it a s : Live s → Live (tested it a s).
Proof.
  intros [Ha Hb]. unfold tested. run.
  destruct (degraded (Analysis.vibeCheck a)); split; simpl; done.
Qed.

Lemma tested_status it a s : status (st (tested it a s)) = TESTING.
Proof. unfold tested. run. by destruct (degraded (Analysis.vibeCheck a)). Qed.

Lemma tested_trace it a s : trace (tested it a s) = trace s ++ [RunAutonomousTests].
Proof. unfold tested. run. by destruct (degraded (Analysis.vibeCheck a)). Qed.

Lemma tested_phases it a s :
  ∃ k, phases (tested it a s) = phases s ++ k ∧ Forall (λ x, x = TESTING) k.
Proof.
  unfold tested. run.
  destruct (degraded (Analysis.vibeCheck a)); simpl; rewrite <- !app_assoc;
    (eexists; split; [reflexivity|]); simpl; repeat constructor.
Qed.

Lemma tested_last_log it a s : last (logs (st (tested it a s))) ≠ Some stable_entry.
Proof.
  unfold tested. run.
  destruct (degraded (Analysis.vibeCheck a)); simpl; rewrite last_snoc; discriminate.
Qed.

Lemma needsRefinement_false a :
  needsRefinement a = false ↔ bugCount a = 0 ∧ degraded (Analysis.vibeCheck a) = false.
Proof.
  unfold needsRefinement. rewrite orb_false_iff, Nat.ltb_ge. split.
  - intros [H1 H2]. split; [lia | done].
  - intros [H1 H2]. split; [lia | done].
Qed.

Lemma convergeLoop_step fuel it q0 currentFiles s :
  it ≤ MAX_ITERATIONS → (q0 < 95)%Z →
  convergeLoop W (S fuel) it q0 currentFiles s =
    match convergePass W it currentFiles s with
    | (Ok (Break, q, cur'), s') => (Ok (it, q, cur'), s')
    | (Ok (Continue, q, cur'), s') => convergeLoop W fuel (S it) q cur' s'
    | (Thrown msg, s') => (Thrown msg, s')
    | (OutOfFuel, s') => (OutOfFuel, s')
    end.
Proof.
  intros Hit Hq. simpl convergeLoop.
  rewrite (proj2 (Nat.leb_le _ _) Hit), (proj2 (Z.ltb_lt _ _) Hq). simpl.
  unfold mbind, M_bind.
  destruct (convergePass W it currentFiles s) as [[[[[|] q] cur']|msg|] s']; done.
Qed.

Lemma convergeLoop_done fuel it q currentFiles s :
  (95 ≤ q)%Z → convergeLoop W fuel it q currentFiles s = (Ok (it, q, currentFiles), s).
Proof.
  intros Hq. destruct fuel; simpl convergeLoop;
    rewrite (proj2 (Z.ltb_ge _ _) Hq), andb_false_r; done.
Qed.

Lemma refine_branch_not_break a currentFiles (q : Z) t q' c :
  ((currentFiles' ← refinePass W a currentFiles;
    mret (Continue, q, currentFiles')) t).1 ≠ Ok (Break, q', c).
Proof.
  unfold mbind, M_bind.
  destruct (refinePass W a currentFiles t) as [[?|?|] ?]; simpl; discriminate.
Qed.

Lemma refinePass_Reached a currentFiles t :
  Live t → Reached REFINING t (refinePass W a currentFiles t).2.
Proof.
  intros [Ha Hb]. unfold refinePass. run. rewrite Ha. simpl.
  match goal with
  | |- context [refactorLoop W ?ctx ?tg ?c ?s1] =>
      assert (HG1 : Good s1) by good_tac;
      pose proof (refactorLoop_post W Hkey ctx tg c s1 HG1) as HI; unfold wp in HI;
      destruct (refactorLoop W ctx tg c s1) as [r s']; simpl in HI |- *;
      destruct HI as ((HE & _) & _)
  end.
  destruct HE as (_ & (k & Hk & _) & _). simpl in Hk.
  exists [], k. by rewrite Hk, <- app_assoc.
Qed.

Lemma reportPhase_phases it q c s :
  Live s → ∃ p, phases (reportPhase W it q c s).2 = phases s ++ COMPLETED :: p.
Proof.
  intros [Ha Hb]. unfold reportPhase. run. rewrite Ha, Hkey. simpl.
  rewrite andb_false_r. simpl.
  destruct (report_reply W _); simpl; rewrite <- ?app_assoc; simpl; by eexists.
Qed.

Lemma Reached_trans_l x s1 s2 s3 :
  (∃ k, phases s2 = phases s1 ++ k) → Reached x s2 s3 → Reached x s1 s3.
Proof.
  intros (k & Hk) (p1 & p2 & Hp). exists (k ++ p1), p2.
  by rewrite Hp, Hk, <- !app_assoc.
Qed.

(** C1, as amended.  One pass of the loop, entered with the flag clear
    and [iteration] within the budget, in which Stop is not clicked
    during the analysis; [a] is the analysis the pass receives.
    - The pass ends the loop with the success entry "System stable."
      exactly when [a] has [qualityScore] >= 95, a vibe that is not
      degraded, and either no failed finding or no budget left.
    - When [a] has [qualityScore] >= 95, a vibe that is not degraded and
      no failed finding, the pass makes no refactor request and never
      sets the phase to Refining, the loop returns at once whatever the
      remaining budget, and the phase that is set next is Completed.
    - When [a] has a failed finding or a degraded vibe and budget
      remains, the pass sets the phase to Refining (a refine pass) and
      does not end the loop by itself; if the refine pass returns, the
      loop goes on with the next iteration, which analyses again only if
      [qualityScore] < 95 and leaves the loop without a further request
      otherwise.
    - When [a] has no failed finding and a vibe that is not degraded but
      [qualityScore] < 95 and budget remains, the pass makes no refactor
      request and the loop goes on to analyse again. *)
Theorem converge_decision (it : nat) (currentFiles : list ProjectFile) (s : Sys) :
  Live s → it ≤ MAX_ITERATIONS → stop_during W (length (trace s)) = false →
  let a := read_analysis (analysis_reply W (length (trace s))) in
  let q := Analysis.qualityScore a in
  let r := (convergePass W it currentFiles s).1 in
  let s' := (convergePass W it currentFiles s).2 in
  ((r = Ok (Break, q, currentFiles) ∧ last (logs (st s')) = Some stable_entry)
   ↔ ((95 ≤ q)%Z ∧ degraded (Analysis.vibeCheck a) = false
      ∧ (bugCount a = 0 ∨ it = MAX_ITERATIONS)))
  ∧ ((95 ≤ q)%Z → degraded (Analysis.vibeCheck a) = false → bugCount a = 0 →
     r = Ok (Break, q, currentFiles)
     ∧ trace s' = trace s ++ [RunAutonomousTests]
     ∧ ¬ Reached REFINING s s'
     ∧ (∀ fuel q0, (q0 < 95)%Z →
          convergeLoop W (S fuel) it q0 currentFiles s = (Ok (it, q, currentFiles), s'))
     ∧ (∀ it' q' c, ∃ p,
          phases (reportPhase W it' q' c s').2 = phases s' ++ COMPLETED :: p))
  ∧ (needsRefinement a = true → it < MAX_ITERATIONS →
     Reached REFINING s s'
     ∧ (∀ q' c, r ≠ Ok (Break, q', c))
     ∧ ∀ c', r = Ok (Continue, q, c') →
         (∀ fuel q0, (q0 < 95)%Z →
            convergeLoop W (S fuel) it q0 currentFiles s
            = convergeLoop W fuel (S it) q c' s')
         ∧ ((95 ≤ q)%Z →
            ∀ fuel, convergeLoop W fuel (S it) q c' s' = (Ok (S it, q, c'), s')))
  ∧ (needsRefinement a = false → (q < 95)%Z → it < MAX_ITERATIONS →
     r = Ok (Continue, q, currentFiles)
     ∧ trace s' = trace s ++ [RunAutonomousTests]
     ∧ ∀ fuel q0, (q0 < 95)%Z →
         convergeLoop W (S fuel) it q0 currentFiles s
         = convergeLoop W fuel (S it) q currentFiles s').
Proof.
  intros HL Hit Hstop. cbv zeta.
  pose proof (convergePass_tested it currentFiles s HL Hstop) as Hrun. cbv zeta in Hrun.
  set (a := read_analysis (analysis_reply W (length (trace s)))) in *.
  set (t := tested it a s) in *.
  pose proof (tested_Live it a s HL) as HLt. fold t in HLt.
  split; [|split; [|split]].
  - split.
    + intros [Hr Hlast]. rewrite Hrun in Hr, Hlast.
      destruct (needsRefinement a && (it <? MAX_ITERATIONS)) eqn:E1.
      { by apply refine_branch_not_break in Hr. }
      destruct ((95 <=? Analysis.qualityScore a)%Z
                && negb (degraded (Analysis.vibeCheck a))) eqn:E2.
      * apply andb_true_iff in E2 as [Hq%Z.leb_le Hd%negb_true_iff].
        split; [done|]. split; [done|].
        apply andb_false_iff in E1 as [E1|E1].
        -- left. by apply needsRefinement_false in E1 as [? _].
        -- right. apply Nat.ltb_ge in E1. lia.
      * destruct (MAX_ITERATIONS <=? it); [|discriminate].
        revert Hlast. run. rewrite last_snoc. discriminate.
    + intros (Hq & Hd & Hb). rewrite Hrun.
      assert (needsRefinement a && (it <? MAX_ITERATIONS) = false) as ->.
      { apply andb_false_iff. destruct Hb as [Hb| ->].
        - left. by apply needsRefinement_false.
        - right. by apply Nat.ltb_ge. }
      rewrite (proj2 (Z.leb_le _ _) Hq), Hd. run. by rewrite last_snoc.
  - intros Hq Hd Hb. rewrite Hrun.
    rewrite (proj2 (needsRefinement_false a) (conj Hb Hd)).
    rewrite (proj2 (Z.leb_le _ _) Hq), Hd.
    assert (Hrun' : convergePass W it currentFiles s
                    = (addLog "System stable." Log.success ;;
                       mret (Break, Analysis.qualityScore a, currentFiles)) t).
    { rewrite Hrun, (proj2 (needsRefinement_false a) (conj Hb Hd)).
      by rewrite (proj2 (Z.leb_le _ _) Hq), Hd. }
    split; [by run|]. split; [run; apply tested_trace|]. split; [|split].
    + run. intros (p1 & p2 & Hp).
      destruct (tested_phases it a s) as (k & Hk & HFk). fold t in Hk.
      rewrite Hk, <- app_assoc in Hp. apply app_inv_head in Hp.
      assert (REFINING ∈ k ++ [status (st t)]) as [Hin|Hin%list_elem_of_singleton]%elem_of_app.
      { rewrite Hp. apply elem_of_app. right. apply list_elem_of_here. }
      * rewrite Forall_forall in HFk. by apply HFk in Hin.
      * unfold t in Hin. rewrite tested_status in Hin. discriminate.
    + intros fuel q0 Hq0. rewrite convergeLoop_step; [|exact Hit|exact Hq0].
      rewrite Hrun'. by run.
    + run. intros it' q' c. apply reportPhase_phases.
      destruct HLt. split; simpl; done.
  - intros Href Hlt.
    assert (Hrun' : convergePass W it currentFiles s
                    = (currentFiles' ← refinePass W a currentFiles;
                       mret (Continue, Analysis.qualityScore a, currentFiles')) t).
    { by rewrite Hrun, Href, (proj2 (Nat.ltb_lt _ _) Hlt). }
    rewrite Hrun'. split; [|split].
    + eapply Reached_trans_l.
      { destruct (tested_phases it a s) as (k & Hk & _). by exists k. }
      pose proof (refinePass_Reached a currentFiles t HLt) as HR.
      unfold mbind, M_bind.
      by destruct (refinePass W a currentFiles t) as [[?|?|] ?].
    + intros q' c. apply refine_branch_not_break.
    + intros c' Hr. split.
      * intros fuel q0 Hq0. rewrite convergeLoop_step; [|exact Hit|exact Hq0].
        rewrite Hrun'.
        destruct ((currentFiles' ← refinePass W a currentFiles;
                   mret (Continue, Analysis.qualityScore a, currentFiles')) t)
          as [r0 s0]. simpl in Hr |- *. by subst r0.
      * intros Hq fuel. by apply convergeLoop_done.
  - intros Href Hq Hlt.
    assert (Hrun' : convergePass W it currentFiles s
                    = (Ok (Continue, Analysis.qualityScore a, currentFiles), t)).
    { rewrite Hrun, Href. simpl. rewrite (proj2 (Z.leb_gt _ _) Hq). simpl.
      by rewrite (proj2 (Nat.leb_gt _ _) Hlt). }
    rewrite Hrun'. split; [done|]. split; [apply tested_trace|].
    intros fuel q0 Hq0. rewrite convergeLoop_step; [|exact Hit|exact Hq0].
    by rewrite Hrun'.
Qed.

End Decision.

(** ** The targets of a refine pass *)



Lemma names_insert (l : list ProjectFile) idx g f :
  l !! idx = Some g → File.name f = File.name g →
  File.name <$> <[idx := f]> l = File.name <$> l.
Proof.
  intros Hl Hn. rewrite list_fmap_insert. apply list_insert_id.
  by rewrite list_lookup_fmap, Hl, Hn.
Qed.

Section Targets.
Context (W : World) (Hkey : api_key W = true).




End Targets.

(** ** The statements at concrete inputs *)

Lemma refine_merge_by_name_witness :
  length (mergeChange [demo_app; demo_cfg] (mkChange "App.tsx" "new" "javascript")) = 2
  ∧ length (mergeChange [demo_app; demo_cfg] (mkChange "index.css" "body{}" "css")) = 3.
Proof.
  split.
  - apply (proj1 (proj2 (refine_merge_by_name [demo_app; demo_cfg]
                           (mkChange "App.tsx" "new" "javascript")))).
    exists demo_app. split; [apply list_elem_of_here | reflexivity].
  - apply (proj2 (proj2 (refine_merge_by_name [demo_app; demo_cfg]
                           (mkChange "index.css" "body{}" "css")))).
    intros f Hf. apply elem_of_cons in Hf as [->|Hf]; [discriminate|].
    apply elem_of_cons in Hf as [->|Hf]; [discriminate|].
    by apply elem_of_nil in Hf.
Defined.

Lemma manual_test_frame_witness :
  status (st (clickManualTest todo_world completed_sys).2) = COMPLETED
  ∧ length (metricsData (clickManualTest todo_world completed_sys).2) = 1.
Proof.
  destruct (manual_test_frame todo_world completed_sys)
    as (_ & _ & _ & _ & _ & _ & _ & _ & _ & Hlen & Hst);
    [reflexivity | discriminate |].
  split; [exact Hst | exact Hlen].
Defined.





Lemma service_failure_outcome_witness :
  status (st (handleStartMarathon plan_down "todo app" idle_sys).2) = FAILED
  ∧ status (st (handleRefinement refine_down (st completed_sys) "make it blue"
                  completed_sys).2) = IDLE.
Proof.
  split.
  - apply (proj1 (service_failure_outcome plan_down eq_refl) "todo app" idle_sys 0
             (GenerateProjectPlan "todo app") "network down").
    + reflexivity.
    + simpl. lia.
    + reflexivity.
    + reflexivity.
    + discriminate.
  - apply (proj2 (service_failure_outcome refine_down eq_refl) (st completed_sys)
             "make it blue" completed_sys "boom").
    + reflexivity.
    + discriminate.
Defined.

Lemma cancellation_unwinds_witness :
  status (st (handleStartMarathon stop_in_plan "todo app" idle_sys).2) = STOPPED
  ∧ last (logs (st (handleStartMarathon stop_in_plan "todo app" idle_sys).2))
    = Some halted_entry.
Proof.
  destruct (proj1 (cancellation_unwinds stop_in_plan eq_refl) "todo app" idle_sys)
    as (Hst & Hlast & _).
  - reflexivity.
  - reflexivity.
  - intros n c _ Hl. vm_compute in Hl.
    destruct n as [|n]; [injection Hl as <-; reflexivity | discriminate].
  - split; [exact Hst | exact Hlast].
Defined.

Lemma converge_decision_witness :
  Reached REFINING testing_sys
    (convergePass bug_at_97 1 [demo_app] testing_sys).2.
Proof.
  apply (proj1 (proj2 (proj2 (converge_decision bug_at_97 eq_refl 1 [demo_app]
                                testing_sys ltac:(split; reflexivity)
                                ltac:(unfold MAX_ITERATIONS; lia) eq_refl)))).
  - reflexivity.
  - unfold MAX_ITERATIONS. lia.
Defined.

(** ** Where the specification and the code part *)

(** C1, as stated, fails.  In [bug_at_97] the analysis (suspension 3)
    returns [qualityScore] 97 with a vibe that is not degraded, and one
    failed finding.  The next transition is to Refining, and a refactor
    request for App.tsx is made before the phase becomes Completed. *)
Lemma converge_stops_at_target_counterexample :
  let a := read_analysis (analysis_reply bug_at_97 3) in
  let s' := (handleSendMessage bug_at_97 "todo app" idle_sys).2 in
  (95 ≤ Analysis.qualityScore a)%Z
  ∧ degraded (Analysis.vibeCheck a) = false
  ∧ trace s' = [GenerateProjectPlan "todo app"; GenerateFileContent "App.tsx";
                Delay; RunAutonomousTests; RefactorCode "App.tsx";
                GenerateFinalReport 2 97%Z 1]
  ∧ transitions (phases s') = [PLANNING; CODING; TESTING; REFINING; COMPLETED].
Proof.
  cbv zeta. split; [by vm_compute|].
  repeat split; vm_compute; reflexivity.
Qed.

(** C3, as stated, fails.  In [stop_in_refine] Stop is clicked while
    the refine request of a refinement turn is pending (suspension 0);
    the checkpoint that follows unwinds into the handler of that turn,
    which sets the phase to Idle: the turn does not end in Stopped.
    In [stop_in_coding] Stop is clicked while the request that generates
    App.tsx is pending (suspension 1).  The plan had set [files] to the
    two empty skeletons; the run ends in Stopped with the text that
    request returned stored in App.tsx. *)
Lemma cancellation_discards_counterexample :
  let r' := (handleSendMessage stop_in_refine "make it blue" completed_sys).2 in
  let s' := (handleSendMessage stop_in_coding "todo app" idle_sys).2 in
  (stop_during stop_in_refine 0 = true
   ∧ trace r' = [RefineProject "make it blue"]
   ∧ abortController r' = true
   ∧ transitions (phases r') = [REFINING; STOPPED; IDLE]
   ∧ status (st r') ≠ STOPPED)
  ∧ (stop_during stop_in_coding 1 = true
     ∧ trace s' !! 1 = Some (GenerateFileContent "App.tsx")
     ∧ plan_reply stop_in_coding 0
       = Body (mkPlan [skeleton_app; skeleton_cfg] "two files")
     ∧ abortController s' = true
     ∧ status (st s') = STOPPED
     ∧ files (st s')
       = [File.mk "App.tsx" "typescript" "code" File.created; skeleton_cfg]
     ∧ files (st s') ≠ [skeleton_app; skeleton_cfg]).
Proof.
  cbv zeta. split.
  - repeat (split; [vm_compute; reflexivity|]). vm_compute. discriminate.
  - repeat (split; [vm_compute; reflexivity|]). vm_compute. discriminate.
Qed.

(** C4, as stated, fails.  In [refine_down] a message sent after a
    completed build is dispatched as a refinement, the refine request
    throws "boom", and the phase ends Idle, not Failed. *)
Lemma refinement_failure_counterexample :
  let s' := (handleSendMessage refine_down "make it blue" completed_sys).2 in
  accepted refine_down "make it blue" = true
  ∧ dispatch (st completed_sys) = Refinement
  ∧ failure_of refine_down 0 (RefineProject "make it blue") = Some "boom"
  ∧ status (st s') = IDLE
  ∧ status (st s') ≠ FAILED.
Proof.
  cbv zeta. repeat (split; [vm_compute; reflexivity|]).
  vm_compute. discriminate.
Qed.

(* ================================================================== *)
(** * Further properties of the service functions *)
(* ================================================================== *)

(** ** The two fence-stripping replacements *)

Lemma append_cons c a b : String c a +:+ b = String c (a +:+ b).
Proof. reflexivity. Qed.

Lemma append_empty_l a : "" +:+ a = a.
Proof. reflexivity. Qed.

Lemma append_empty_r a : a +:+ "" = a.
Proof. induction a as [|c a IH]; [done|]. by rewrite append_cons, IH. Qed.

Lemma append_assoc a b c : (a +:+ b) +:+ c = a +:+ (b +:+ c).
Proof. induction a as [|x a IH]; [done|]. by rewrite !append_cons, IH. Qed.

Lemma length_append a b :
  String.length (a +:+ b) = String.length a + String.length b.
Proof. induction a as [|x a IH]; [done|]. rewrite append_cons. simpl. by rewrite IH. Qed.

Lemma substring_all a : substring 0 (String.length a) a = a.
Proof. induction a as [|x a IH]; [done|]. simpl. by rewrite IH. Qed.

Lemma substring_app_l a b : substring 0 (String.length a) (a +:+ b) = a.
Proof.
  induction a as [|x a IH]; [by destruct b|]. rewrite append_cons. simpl. by rewrite IH.
Qed.

Lemma substring_app_r a b :
  substring (String.length a) (String.length b) (a +:+ b) = b.
Proof.
  induction a as [|x a IH]; [apply substring_all|]. rewrite append_cons. simpl. exact IH.
Qed.

(** A string is its first [k] characters followed by the rest. *)
Lemma substring_split k a :
  k ≤ String.length a →
  a = substring 0 k a +:+ substring k (String.length a - k) a.
Proof.
  revert k. induction a as [|x a IH]; intros k Hk.
  - simpl in Hk. by replace k with 0 by lia.
  - destruct k as [|k].
    + simpl. by rewrite substring_all.
    + simpl in Hk |- *. rewrite append_cons. f_equal. apply IH. lia.
Qed.

Lemma skip_letters_app lang r :
  all_letters lang = true → skip_letters (lang +:+ nl +:+ r) = nl +:+ r.
Proof.
  induction lang as [|c lang IH]; intros H; [done|].
  simpl in H. apply andb_true_iff in H as [Hc Hl].
  rewrite append_cons. simpl. rewrite Hc. by apply IH.
Qed.

Lemma skip_letters_split s :
  ∃ lang, all_letters lang = true ∧ s = lang +:+ skip_letters s.
Proof.
  induction s as [|c s (lang & Hl & Hs)]; [by exists ""|].
  simpl. destruct (is_letter c) eqn:Hc.
  - exists (String c lang). split; [simpl; by rewrite Hc|].
    rewrite append_cons. by f_equal.
  - by exists "".
Qed.

Lemma strip_open_fence_fenced lang r :
  all_letters lang = true → strip_open_fence (fence +:+ lang +:+ nl +:+ r) = r.
Proof.
  intros Hl. unfold strip_open_fence, fence. rewrite !append_cons, append_empty_l.
  simpl. rewrite Nat.sub_0_r, substring_all, (skip_letters_app _ _ Hl).
  replace (String.prefix "" (lang +:+ nl +:+ r)) with true
    by (by destruct (lang +:+ nl +:+ r)).
  reflexivity.
Qed.

Lemma strip_close_fence_fenced body : strip_close_fence (body +:+ nl +:+ fence) = body.
Proof.
  unfold strip_close_fence. cbv zeta. rewrite length_append.
  change (String.length (nl +:+ fence)) with 4.
  replace (String.length body + 4 - 4) with (String.length body) by lia.
  replace (4 <=? String.length body + 4) with true by (symmetry; apply Nat.leb_le; lia).
  change 4 with (String.length (nl +:+ fence)) at 1.
  rewrite substring_app_r, String.eqb_refl. simpl.
  apply substring_app_l.
Qed.

(** What the opening replacement removes: nothing, or three backticks,
    letters and a line feed at the very start. *)
Lemma strip_open_fence_prefix s :
  ∃ a, s = a +:+ strip_open_fence s
       ∧ (a = "" ∨ ∃ lang, all_letters lang = true ∧ a = fence +:+ lang +:+ nl).
Proof.
  unfold strip_open_fence. destruct (String.prefix fence s) eqn:Hp.
  - apply prefix_correct in Hp. change (String.length fence) with 3 in Hp.
    assert (Hlen : 3 ≤ String.length s).
    { destruct s as [|? [|? [|? ?]]]; try discriminate. simpl. lia. }
    pose proof (substring_split 3 s Hlen) as Hs. rewrite Hp in Hs.
    destruct (skip_letters_split (substring 3 (String.length s - 3) s))
      as (lang & Hl & Hr).
    destruct (skip_letters (substring 3 (String.length s - 3) s)) as [|c r] eqn:Hk.
    + exists "". by split; [|left].
    + destruct (Ascii.eqb_spec c (ascii_of_nat 10)) as [->|_].
      * exists (fence +:+ lang +:+ nl). split; [|right; by exists lang].
        rewrite Hs at 1. rewrite Hr. by rewrite !append_assoc.
      * exists "". by split; [|left].
  - exists "". by split; [|left].
Qed.

(** What the closing replacement removes: nothing, or a line feed and
    three backticks at the very end. *)
Lemma strip_close_fence_suffix s :
  ∃ b, s = strip_close_fence s +:+ b ∧ (b = "" ∨ b = nl +:+ fence).
Proof.
  unfold strip_close_fence. cbv zeta.
  destruct (4 <=? String.length s) eqn:H4; simpl.
  - destruct (String.eqb_spec (substring (String.length s - 4) 4 s) (nl +:+ fence))
      as [He|_].
    + exists (nl +:+ fence). split; [|by right].
      apply Nat.leb_le in H4.
      pose proof (substring_split (String.length s - 4) s ltac:(lia)) as Hs.
      replace (String.length s - (String.length s - 4)) with 4 in Hs by lia.
      by rewrite He in Hs.
    + exists "". split; [by rewrite append_empty_r | by left].
  - exists "". split; [by rewrite append_empty_r | by left].
Qed.

(** X1.  Text that the service wrapped in a Markdown fence - three
    backticks, a language tag of letters (possibly none), a line feed,
    the code, a line feed, three backticks - is returned as the code
    alone, whatever the code is: by the two replacements, and so by
    [generateFileContent] and by [refactorCode]. *)
Theorem strip_fences_fenced (lang body filename : string) (file : ProjectFile) :
  all_letters lang = true →
  let text := fence +:+ lang +:+ nl +:+ body +:+ nl +:+ fence in
  strip_fences text = body
  ∧ generated_content filename (Body text) = body
  ∧ refactored file (Some text) = body.
Proof.
  intros Hl text.
  assert (Hs : strip_fences text = body).
  { unfold strip_fences, text.
    rewrite (strip_open_fence_fenced _ _ Hl). apply strip_close_fence_fenced. }
  assert (Ho : ∀ d, or_else (Some text) d = text) by done.
  unfold generated_content, refactored. by rewrite !Ho.
Qed.

Lemma strip_fences_fenced_witness :
  strip_fences (fence +:+ "tsx" +:+ nl +:+ "const a = 1;" +:+ nl +:+ fence)
  = "const a = 1;".
Proof.
  exact (proj1 (strip_fences_fenced "tsx" "const a = 1;" "App.tsx" demo_app eq_refl)).
Defined.

(** X2.  Stripping only ever removes an opening fence line at the very start
    and a closing fence at the very end: the input is the output with
    (possibly empty) such pieces around it, so the text in between is
    kept verbatim and nothing is removed from text without fences. *)
Theorem strip_fences_keeps_code (s : string) :
  ∃ a b,
    s = a +:+ strip_fences s +:+ b
    ∧ (a = "" ∨ ∃ lang, all_letters lang = true ∧ a = fence +:+ lang +:+ nl)
    ∧ (b = "" ∨ b = nl +:+ fence).
Proof.
  destruct (strip_open_fence_prefix s) as (a & Ha & Hopen).
  destruct (strip_close_fence_suffix (strip_open_fence s)) as (b & Hb & Hclose).
  exists a, b. split; [|done]. unfold strip_fences.
  rewrite <- Hb. exact Ha.
Qed.

(** ** Numbering the findings *)

Lemma show_nat_inj a b : show_nat a = show_nat b → a = b.
Proof.
  unfold show_nat. intros H.
  assert (Hn : ∀ n, NilZero.uint_of_string (NilZero.string_of_uint (Nat.to_uint n))
                    = Some (Nat.to_uint n)).
  { intros n. apply NilZero.usu. rewrite <- (Unsigned.of_to n), Unsigned.to_of.
    unfold unorm. by destruct (nzhead _). }
  apply (f_equal NilZero.uint_of_string) in H. rewrite !Hn in H.
  injection H as H. apply (f_equal Nat.of_uint) in H. by rewrite !Unsigned.of_to in H.
Qed.

Lemma append_inj_r p a b : p +:+ a = p +:+ b → a = b.
Proof.
  induction p as [|c p IH]; [done|]. rewrite !append_cons. intros H.
  injection H as H. by apply IH.
Qed.

Lemma failed_count_imap (f : nat → RawResult → TestResult) rs :
  (∀ i r, Test.passed (f i r) = raw_passed r) →
  length (filter (λ t, negb (Test.passed t)) (imap f rs))
  = length (filter (λ r, negb (raw_passed r)) rs).
Proof.
  revert f. induction rs as [|r rs IH]; intros f Hf; [done|]. simpl.
  rewrite !filter_cons, Hf.
  assert (Hrec := IH (f ∘ S) (λ i r, Hf (S i) r)).
  destruct (decide (negb (raw_passed r))); simpl; by rewrite Hrec.
Qed.

(** X3.  [runAutonomousTests] renumbers the findings of a reply: there are as
    many as the reply had, finding [i] gets the id "test-i" and keeps
    its name, verdict and message, no two findings share an id, and the
    number of failed findings is that of the reply. *)
Theorem number_results_ids (rs : list RawResult) :
  length (number_results rs) = length rs
  ∧ (∀ i r, rs !! i = Some r →
       number_results rs !! i
       = Some (Test.mk ("test-" +:+ show_nat i) (raw_testName r) (raw_passed r)
                       (raw_message r)))
  ∧ NoDup (Test.id <$> number_results rs)
  ∧ length (filter (λ t, negb (Test.passed t)) (number_results rs))
    = length (filter (λ r, negb (raw_passed r)) rs).
Proof.
  unfold number_results. split; [apply length_imap|]. split; [|split].
  - intros i r Hr. by rewrite list_lookup_imap, Hr.
  - rewrite fmap_imap.
    rewrite (imap_ext _ (λ j _, "test-" +:+ show_nat j)) by done.
    rewrite imap_seq_0. apply NoDup_fmap_2; [|apply NoDup_seq].
    intros a b H. by apply show_nat_inj, (append_inj_r "test-").
  - by apply failed_count_imap.
Qed.

(** ** Merging a whole refinement response *)

Lemma list_find_insert_other {A} (P : A → Prop) `{∀ x, Decision (P x)}
    (l : list A) i y :
  ¬ P y → (∀ x, l !! i = Some x → ¬ P x) →
  list_find P (<[i:=y]> l) = list_find P l.
Proof.
  revert i. induction l as [|x l IH]; intros i Hy Hx; [done|].
  destruct i as [|i]; simpl.
  - rewrite decide_False by done. rewrite decide_False by (by apply Hx). done.
  - destruct (decide (P x)); [done|]. by rewrite IH.
Qed.

Lemma list_find_snoc_other {A} (P : A → Prop) `{∀ x, Decision (P x)}
    (l : list A) y :
  ¬ P y → list_find P (l ++ [y]) = list_find P l.
Proof.
  intros Hy. destruct (list_find P l) as [[i x]|] eqn:E.
  - by apply list_find_app_l.
  - rewrite list_find_app_r by done. simpl. by rewrite decide_False.
Qed.

(** A change leaves the first artifact of every other name where and
    what it is. *)
Lemma mergeChange_find_other files0 change n :
  change_name change ≠ n →
  list_find (has_name n) (mergeChange files0 change) = list_find (has_name n) files0.
Proof.
  intros Hn. unfold mergeChange.
  destruct (list_find (has_name (change_name change)) files0) as [[idx f]|] eqn:E.
  - apply list_find_Some in E as (Hl & Hf & _).
    apply list_find_insert_other.
    + unfold has_name in *. simpl. congruence.
    + intros x Hx. rewrite Hl in Hx. injection Hx as <-. unfold has_name in *. congruence.
  - apply list_find_snoc_other. unfold has_name. simpl. congruence.
Qed.

(** After a change, the first artifact of its name holds its content. *)
Lemma mergeChange_find_self files0 change :
  ∃ i f, list_find (has_name (change_name change)) (mergeChange files0 change)
         = Some (i, f)
         ∧ File.content f = change_content change.
Proof.
  unfold mergeChange.
  destruct (list_find (has_name (change_name change)) files0) as [[idx f]|] eqn:E.
  - exists idx, (with_content (change_content change) f). split; [|done].
    apply list_find_Some in E as (Hl & Hf & Hlt).
    apply list_find_Some. split; [|split].
    + apply list_lookup_insert_eq. by eapply lookup_lt_Some.
    + done.
    + intros j y Hy Hj. rewrite list_lookup_insert_ne in Hy by lia. by eapply Hlt.
  - exists (length files0),
      (File.mk (change_name change) (change_language change)
               (change_content change) File.created).
    split; [|reflexivity].
    rewrite list_find_app_r by done. simpl. rewrite decide_True by done. simpl.
    done.
Qed.

(** X4.  When a refinement response names the same artifact several times,
    the last of these changes wins: for every change of the response
    that no later change of the response overrides, the (first)
    artifact of that name in the merged list holds its content.  In
    particular every name of the response is present after the merge. *)
Theorem merge_last_write_wins (files0 : list ProjectFile)
    (before after : list Change) (change : Change) :
  Forall (λ c, change_name c ≠ change_name change) after →
  ∃ i f,
    list_find (has_name (change_name change))
              (mergeChanges files0 (before ++ change :: after)) = Some (i, f)
    ∧ File.content f = change_content change.
Proof.
  intros Hafter. unfold mergeChanges. rewrite foldl_app. simpl.
  destruct (mergeChange_find_self (foldl mergeChange files0 before) change)
    as (i & f & Hfind & Hc).
  exists i, f. split; [|done]. revert Hfind.
  generalize (mergeChange (foldl mergeChange files0 before) change).
  induction Hafter as [|c cs Hc' _ IH]; intros l Hl; [done|]. simpl.
  apply IH. by rewrite mergeChange_find_other.
Qed.

Lemma merge_last_write_wins_witness :
  ∃ i f,
    list_find (has_name "App.tsx")
      (mergeChanges [demo_app; demo_cfg]
         ([mkChange "App.tsx" "first" "typescript"]
          ++ mkChange "App.tsx" "second" "typescript"
          :: [mkChange "index.css" "body{}" "css"])) = Some (i, f)
    ∧ File.content f = "second".
Proof.
  apply (merge_last_write_wins [demo_app; demo_cfg]
           [mkChange "App.tsx" "first" "typescript"]
           [mkChange "index.css" "body{}" "css"]
           (mkChange "App.tsx" "second" "typescript")).
  constructor; [intros H; discriminate H | constructor].
Defined.

Lemma mergeChange_layout files0 change :
  (∀ i f, files0 !! i = Some f →
     ∃ f', mergeChange files0 change !! i = Some f'
           ∧ File.name f' = File.name f ∧ File.language f' = File.language f
           ∧ File.status f' = File.status f
           ∧ (change_name change ≠ File.name f → f' = f))
  ∧ (length (mergeChange files0 change) = length files0
     ∨ mergeChange files0 change
       = files0 ++ [File.mk (change_name change) (change_language change)
                            (change_content change) File.created]).
Proof.
  split.
  - intros i f Hi. unfold mergeChange.
    destruct (list_find (has_name (change_name change)) files0) as [[idx g]|] eqn:E.
    + apply list_find_Some in E as (Hl & Hg & _).
      destruct (decide (i = idx)) as [->|Hne].
      * rewrite Hl in Hi. injection Hi as ->.
        exists (with_content (change_content change) f).
        rewrite list_lookup_insert_eq by (by eapply lookup_lt_Some).
        repeat (split; [done|]). intros Hn. by destruct Hn.
      * exists f. by rewrite list_lookup_insert_ne.
    + exists f. rewrite lookup_app_l by (by eapply lookup_lt_Some). done.
  - unfold mergeChange.
    destruct (list_find (has_name (change_name change)) files0) as [[idx g]|] eqn:E.
    + left. apply length_insert.
    + by right.
Qed.

(** X5.  The merge of a refinement response never removes, renames, moves or
    retags an artifact: after it every artifact the project had is at
    its old position with its old name, language tag and status, and
    with its old content too unless the response names it.  What the
    merge adds comes after them, at most one artifact per change, each
    with status [created] and with the name and language tag of a
    change of the response. *)
Theorem merge_keeps_layout (changes : list Change) (files0 : list ProjectFile) :
  length files0 ≤ length (mergeChanges files0 changes)
  ∧ length (mergeChanges files0 changes) ≤ length files0 + length changes
  ∧ (∀ i f, files0 !! i = Some f →
       ∃ f', mergeChanges files0 changes !! i = Some f'
             ∧ File.name f' = File.name f ∧ File.language f' = File.language f
             ∧ File.status f' = File.status f
             ∧ (Forall (λ c, change_name c ≠ File.name f) changes → f' = f))
  ∧ (∀ i g, mergeChanges files0 changes !! i = Some g → length files0 ≤ i →
       File.status g = File.created
       ∧ ∃ c, c ∈ changes ∧ change_name c = File.name g
              ∧ change_language c = File.language g).
Proof.
  revert files0. induction changes as [|c cs IH]; intros files0.
  - simpl. split; [lia|]. split; [lia|]. split.
    + intros i f Hi. by exists f.
    + intros i g Hi Hle. apply lookup_lt_Some in Hi. lia.
  - destruct (IH (mergeChange files0 c)) as (Hlo & Hhi & Hold & Hnew).
    destruct (mergeChange_layout files0 c) as (Hstep & Hlen).
    change (mergeChanges files0 (c :: cs)) with (mergeChanges (mergeChange files0 c) cs).
    assert (Hl1 : length files0 ≤ length (mergeChange files0 c)
                  ∧ length (mergeChange files0 c) ≤ length files0 + 1).
    { destruct Hlen as [->| ->]; [lia|]. rewrite length_app. simpl. lia. }
    split; [lia|]. split; [simpl; lia|]. split.
    + intros i f Hi. destruct (Hstep i f Hi) as (f1 & H1 & Hn1 & Hg1 & Hs1 & Hsame1).
      destruct (Hold i f1 H1) as (f' & H' & Hn & Hg & Hs & Hsame).
      exists f'. split; [done|]. repeat (split; [congruence|]).
      intros HF. apply Forall_cons in HF as [Hc Hcs].
      rewrite (Hsame1 Hc) in *. by apply Hsame.
    + intros i g Hi Hle.
      destruct (decide (length (mergeChange files0 c) ≤ i)) as [Hge|Hlt].
      * destruct (Hnew i g Hi Hge) as (Hst & c' & Hc' & Hn').
        split; [done|]. exists c'. split; [by apply list_elem_of_further | done].
      * destruct Hlen as [Hlen|Hlen]; [lia|].
        assert (i = length files0) as ->.
        { rewrite Hlen, length_app in Hlt. simpl in Hlt. lia. }
        assert (Hat : mergeChange files0 c !! length files0
                      = Some (File.mk (change_name c) (change_language c)
                                      (change_content c) File.created)).
        { rewrite Hlen. by rewrite list_lookup_middle. }
        destruct (Hold _ _ Hat) as (f' & H' & Hn & Hg & Hs & _).
        rewrite H' in Hi. injection Hi as ->.
        split; [done|]. exists c. split; [apply list_elem_of_here | done].
Qed.

(* ================================================================== *)
(** * Further properties of the handlers *)
(* ================================================================== *)

(** ** The manual test at its edges *)

(** X6.  A manual test on a project without artifacts does nothing at all,
    and a manual test without a configured API key makes no request: the
    key check throws before the request, the handler catches it, logs
    one [error] entry and sets the phase to Idle (also when it was
    Completed); findings, score, series, artifacts and conversation are
    what they were. *)
Theorem manual_test_edges W (view : ProjectState) (s : Sys) :
  (files view = [] → handleManualTest W view s = (Ok tt, s))
  ∧ (api_key W = false → files view ≠ [] →
     let s' := (handleManualTest W view s).2 in
     (handleManualTest W view s).1 = Ok tt
     ∧ status (st s') = IDLE
     ∧ logs (st s') = logs (st s) ++
         [Log.mk "Manual Override: Initiating autonomous test suite..." Log.system;
          Log.mk "Test run failed: API_KEY environment variable is not set."
                 Log.error]
     ∧ trace s' = trace s
     ∧ metricsData s' = metricsData s
     ∧ testResults (st s') = testResults (st s)
     ∧ qualityScore (st s') = qualityScore (st s)
     ∧ files (st s') = files (st s)
     ∧ messages s' = messages s).
Proof.
  split.
  - intros Hf. unfold handleManualTest. by rewrite Hf.
  - intros Hkey Hf. cbv zeta. unfold handleManualTest.
    destruct (files view) as [|f0 fs]; [done|]. simpl length. simpl Nat.eqb. cbv iota.
    run. rewrite Hkey. simpl. rewrite <- !app_assoc. done.
Qed.

Lemma manual_test_edges_witness :
  status (st (handleManualTest (mkWorld false (λ _, false) (λ _, NoText)
                (λ _, NoText) (λ _, NoText) (λ _, NoText) (λ _, NoText)
                (λ _, NoText)) (st completed_sys) completed_sys).2) = IDLE.
Proof.
  apply (proj2 (manual_test_edges _ (st completed_sys) completed_sys)).
  - reflexivity.
  - discriminate.
Defined.

(** ** The report phase *)

(** X7.  The report phase of a build that is entered with the flag clear:
    the phase is set to Completed first, which takes the Stop button off
    the page, so the report request cannot be cancelled.  A reply with
    text becomes the report; a reply without text (or with the empty
    text) becomes the report "Report generation failed." and the build
    still completes; only a request that throws leaves the [try] block,
    with the phase already Completed. *)
Theorem report_phase_outcome W (it : nat) (q : Z) (cur : list ProjectFile) (s : Sys) :
  api_key W = true → abortController s = false →
  let n := length (trace s) in
  let r := (reportPhase W it q cur s).1 in
  let s' := (reportPhase W it q cur s).2 in
  trace s' = trace s ++ [GenerateFinalReport it q (length cur)]
  ∧ abortController s' = false
  ∧ status (st s') = COMPLETED
  ∧ files (st s') = files (st s)
  ∧ match report_reply W n with
    | Failure msg => r = Thrown msg ∧ report (st s') = report (st s)
                     ∧ messages s' = messages s
    | reply =>
        r = Ok tt
        ∧ report (st s')
          = Some (or_else (reply_text reply) "Report generation failed.")
        ∧ last (logs (st s')) = Some (Log.mk "Mission Complete." Log.success)
        ∧ messages s' = messages s ++ [mission_complete]
    end.
Proof.
  intros Hkey Ha. cbv zeta. unfold reportPhase. run. rewrite Hkey, Ha. simpl.
  rewrite andb_false_r. simpl.
  destruct (report_reply W (length (trace s))) as [msg| |t]; simpl;
    repeat (split; [done|]); try done.
  all: by rewrite last_snoc.
Qed.

Lemma report_phase_outcome_witness :
  status (st (reportPhase todo_world 1 97%Z [demo_app; demo_cfg] testing_sys).2)
  = COMPLETED.
Proof.
  apply (proj1 (proj2 (proj2 (report_phase_outcome todo_world 1 97%Z
                                [demo_app; demo_cfg] testing_sys eq_refl eq_refl)))).
Defined.

(** ** A refinement turn that is applied *)

(** X8.  A refinement turn whose request returns a response and is not
    cancelled, run with a configured service from a render whose project
    has artifacts: the response is merged into the artifacts of that
    render, the conversation gets the one message that quotes the
    explanation, exactly one analysis follows the refine request, its
    findings and score are stored with one more snapshot, and the turn
    ends in Completed if the project was Completed when the message was
    sent and in Idle otherwise (so a refinement of a failed build ends
    in Idle). *)
Theorem refinement_applied W (view : ProjectState) (request : string) (s : Sys)
    (d : RefineData) :
  api_key W = true → abortController s = false → files view ≠ [] →
  stop_during W (length (trace s)) = false →
  refine_reply W (length (trace s)) = Body d →
  let a := read_analysis (analysis_reply W (S (length (trace s)))) in
  let s' := (handleRefinement W view request s).2 in
  (handleRefinement W view request s).1 = Ok tt
  ∧ files (st s') = mergeChanges (files view) (changedFiles d)
  ∧ trace s' = trace s ++ [RefineProject request; RunAutonomousTests]
  ∧ messages s' = messages s ++ [code_updated (explanation d)]
  ∧ testResults (st s') = Analysis.results a
  ∧ qualityScore (st s') = Analysis.qualityScore a
  ∧ metricsData s' = metricsData s ++
      [Chart.mk (next_manual_iteration (metricsData s))
                (Analysis.qualityScore a) (bugCount a)]
  ∧ status (st s') = (if bool_decide (status view = COMPLETED)
                      then COMPLETED else IDLE)
  ∧ Forall (λ e, Log.type e ≠ Log.error)
           (drop (length (logs (st s))) (logs (st s'))).
Proof.
  intros Hkey Ha Hfiles Hstop Hd. cbv zeta. unfold handleRefinement. run.
  rewrite Hkey. simpl. rewrite Hstop. simpl. rewrite Hd. simpl. rewrite Ha. simpl.
  unfold handleManualTest.
  destruct (files view) as [|f0 fs] eqn:Ef; [done|]. simpl length. simpl Nat.eqb.
  cbv iota. run. rewrite Hkey. simpl.
  rewrite length_app. simpl. rewrite Nat.add_1_r.
  destruct (stop_during W (S (length (trace s)))); simpl;
    destruct (degraded (Analysis.vibeCheck
                (read_analysis (analysis_reply W (S (length (trace s))))))); simpl;
    rewrite <- ?app_assoc; simpl;
    repeat (split; [reflexivity|]);
    rewrite drop_app_length;
    repeat (apply Forall_cons; split; [simpl; try done|]); try apply Forall_nil.
  all: try done.
  all: match goal with |- context [Z.ltb ?a ?b] => by destruct (Z.ltb a b) end.
Qed.

Lemma refinement_applied_witness :
  files (st (handleRefinement todo_world (st completed_sys) "make it blue"
               completed_sys).2)
  = mergeChanges [demo_app; demo_cfg]
      [mkChange "App.tsx" "blue" "typescript"].
Proof.
  apply (refinement_applied todo_world (st completed_sys) "make it blue"
           completed_sys
           (mkRefine [mkChange "App.tsx" "blue" "typescript"] "made it blue")).
  - reflexivity.
  - reflexivity.
  - discriminate.
  - reflexivity.
  - reflexivity.
Defined.

(** ** The editor pane *)

Lemma with_content_twice c1 c2 f :
  with_content c2 (with_content c1 f) = with_content c2 f.
Proof. reflexivity. Qed.

(** X9.  An edit in the code editor while an artifact of the project is
    selected: the selection and the project stay in step (the selected
    artifact, with the new content, is an artifact of the project); no
    artifact is added, removed, moved, renamed, retagged or given
    another status; the content changes exactly for the artifacts with
    the selected name; and nothing of the project but [files] changes. *)
Theorem code_change_synced (newContent : string) (e : Editor) (sel : ProjectFile) :
  selectedFile e = Some sel → sel ∈ files (project e) →
  let e' := handleCodeChange (selectedFile e) newContent e in
  selectedFile e' = Some (with_content newContent sel)
  ∧ with_content newContent sel ∈ files (project e')
  ∧ length (files (project e')) = length (files (project e))
  ∧ (∀ i f, files (project e) !! i = Some f →
       ∃ f', files (project e') !! i = Some f'
             ∧ File.name f' = File.name f ∧ File.language f' = File.language f
             ∧ File.status f' = File.status f
             ∧ File.content f' = (if bool_decide (File.name f = File.name sel)
                                  then newContent else File.content f))
  ∧ set_files (files (project e)) (project e') = project e.
Proof.
  intros Hsel Hin. cbv zeta. rewrite Hsel. unfold handleCodeChange. simpl.
  rewrite Hsel. simpl. split; [done|]. split; [|split; [|split]].
  - apply list_elem_of_fmap. exists sel. split; [|done].
    by rewrite bool_decide_eq_true_2.
  - apply length_fmap.
  - intros i f Hi. rewrite list_lookup_fmap, Hi. simpl. eexists. split; [done|].
    by destruct (bool_decide (File.name f = File.name sel)).
  - by destruct (project e).
Qed.

Lemma code_change_synced_witness :
  selectedFile (handleCodeChange (Some demo_app) "edited"
                  (selectFile demo_app (mkEditor None (st completed_sys))))
  = Some (with_content "edited" demo_app).
Proof.
  apply (code_change_synced "edited"
           (selectFile demo_app (mkEditor None (st completed_sys))) demo_app).
  - reflexivity.
  - apply list_elem_of_here.
Defined.

(** X10.  Edits compose: of two edits in a row while artifacts of the same
    name are selected only the second one shows, and an edit while
    nothing is selected changes nothing. *)
Theorem code_change_last_wins (v1 v2 : ProjectFile) (c1 c2 : string) (e : Editor) :
  File.name v2 = File.name v1 →
  handleCodeChange (Some v2) c2 (handleCodeChange (Some v1) c1 e)
  = handleCodeChange (Some v2) c2 e
  ∧ handleCodeChange None c1 e = e.
Proof.
  intros Hn. split; [|done]. unfold handleCodeChange. simpl. f_equal.
  - by destruct (selectedFile e).
  - rewrite Hn. destruct (project e) as [n d fs t q i l s g r]. simpl.
    unfold set_files. simpl. f_equal.
    rewrite <- list_fmap_compose. apply list_fmap_ext. intros _ f _. simpl.
    destruct (decide (File.name f = File.name v1)) as [H|H].
    + rewrite (bool_decide_eq_true_2 _ H). simpl.
      by rewrite (bool_decide_eq_true_2 _ H).
    + by rewrite !(bool_decide_eq_false_2 _ H).
Qed.

Lemma code_change_last_wins_witness :
  handleCodeChange (Some demo_app) "two"
    (handleCodeChange (Some demo_app) "one"
       (mkEditor (Some demo_app) (st completed_sys)))
  = handleCodeChange (Some demo_app) "two"
      (mkEditor (Some demo_app) (st completed_sys)).
Proof.
  apply (code_change_last_wins demo_app demo_app "one" "two"
           (mkEditor (Some demo_app) (st completed_sys))).
  reflexivity.
Defined.

(** ** The series after a reload *)

(** X11.  A page that is loaded with a stored project (the series starts
    empty) and on which the manual test is run next, with a configured
    service and a project with artifacts: when the stored project has
    [iteration] k > 0 the series becomes two snapshots numbered k and
    k + 1, the first one rebuilt from the stored score and findings;
    when it has [iteration] 0 the series is the one snapshot numbered
    1. *)
Theorem reload_then_manual_test W (s : Sys) :
  api_key W = true → files (st s) ≠ [] → metricsData s = [] →
  let a := read_analysis (analysis_reply W (length (trace s))) in
  let s' := ((mountEffect ;; clickManualTest W) s).2 in
  metricsData s'
  = if 0 <? iteration (st s)
    then [Chart.mk (iteration (st s)) (qualityScore (st s))
                   (length (filter (λ t, negb (Test.passed t)) (testResults (st s))));
          Chart.mk (iteration (st s) + 1) (Analysis.qualityScore a) (bugCount a)]
    else [Chart.mk 1 (Analysis.qualityScore a) (bugCount a)].
Proof.
  intros Hkey Hfiles Hm. cbv zeta. unfold mountEffect, clickManualTest. run.
  rewrite Hm. simpl. rewrite andb_true_r.
  destruct (0 <? iteration (st s)); simpl.
  - match goal with
    | |- context [handleManualTest W ?v ?s1] =>
        destruct (handleManualTest_frame W v s1 Hkey Hfiles)
          as (_ & _ & _ & _ & _ & _ & _ & _ & _ & H & _)
    end.
    rewrite H. reflexivity.
  - destruct (handleManualTest_frame W (st s) s Hkey Hfiles)
      as (_ & _ & _ & _ & _ & _ & _ & _ & _ & H & _).
    rewrite H, Hm. reflexivity.
Qed.

Lemma reload_then_manual_test_witness :
  Chart.iteration <$>
    metricsData ((mountEffect ;; clickManualTest todo_world) completed_sys).2
  = [2; 3].
Proof.
  rewrite (reload_then_manual_test todo_world completed_sys eq_refl).
  - reflexivity.
  - discriminate.
  - reflexivity.
Defined.

(* ================================================================== *)
(** * Further properties of a build *)
(* ================================================================== *)

Lemma Untouched_refl s : Untouched s s.
Proof. repeat split; try done. exists []. by rewrite app_nil_r. Qed.

Lemma Untouched_trans s1 s2 s3 : Untouched s1 s2 → Untouched s2 s3 → Untouched s1 s3.
Proof.
  intros (H1 & H2 & H3 & H4 & H5 & t & Ht) (K1 & K2 & K3 & K4 & K5 & u & Hu).
  repeat split; try congruence. exists (t ++ u). by rewrite Hu, Ht, app_assoc.
Qed.

Ltac untouched_tac :=
  repeat split; simpl; try done; try congruence;
  rewrite <- ?app_assoc; by eexists.

(** Case analysis on every Stop click that the goal still depends on. *)
Ltac split_stops :=
  repeat match goal with
         | |- context [stop_during ?w ?n && ?b] =>
             destruct (stop_during w n && b); simpl
         end.

Section Keeps.
Context (W : World) (Hkey : api_key W = true).

Lemma codingLoop_keeps todo promptText i cur s :
  File.name <$> files (st s) = File.name <$> cur →
  Untouched s (codingLoop W todo promptText i cur s).2
  ∧ ∀ cur', (codingLoop W todo promptText i cur s).1 = Ok cur' →
            File.name <$> cur' = File.name <$> cur.
Proof.
  revert i cur s.
  induction todo as [|todo IH]; intros i cur s Hn; simpl codingLoop;
    destruct (i <? length cur) eqn:Ei.
  - split; [apply Untouched_refl | done].
  - split; [apply Untouched_refl | by intros ? [= <-]].
  - run. rewrite Hkey.
    destruct (abortController s); simpl; [split; [apply Untouched_refl | done]|].
    destruct (cur !! i) as [file|] eqn:Ef; simpl;
      [|split; [apply Untouched_refl | by intros ? [= <-]]].
    assert (Hins : ∀ c, File.name <$> <[i:=File.mk (File.name file)
                          (File.language file) c File.created]> cur
                        = File.name <$> cur).
    { intros c. by apply (names_insert _ _ file). }
    split_stops.
    all: match goal with
         | |- context [codingLoop W ?t ?p ?j ?c ?s1] =>
             destruct (IH j c s1 eq_refl) as [HU HR];
             destruct (codingLoop W t p j c s1) as [r s']; simpl in HU, HR |- *
         end.
    all: split; [|intros cur' Hr; rewrite (HR cur' Hr); apply Hins].
    all: eapply Untouched_trans; [|exact HU].
    all: split; [simpl; rewrite Hins; by symmetry|]; untouched_tac.
  - split; [apply Untouched_refl | by intros ? [= <-]].
Qed.

Lemma refactorLoop_keeps context targets cur s :
  File.name <$> files (st s) = File.name <$> cur →
  Untouched s (refactorLoop W context targets cur s).2
  ∧ ∀ cur', (refactorLoop W context targets cur s).1 = Ok cur' →
            File.name <$> cur' = File.name <$> cur.
Proof.
  revert cur s.
  induction targets as [|file rest IH]; intros cur s Hn; simpl refactorLoop.
  - split; [apply Untouched_refl | by intros ? [= <-]].
  - run. rewrite Hkey.
    destruct (abortController s); simpl; [split; [apply Untouched_refl | done]|].
    assert (Hins : ∀ idx g c,
              list_find (has_name (File.name file)) cur = Some (idx, g) →
              File.name <$> <[idx:=File.mk (File.name file) (File.language file) c
                                           File.verified]> cur
              = File.name <$> cur).
    { intros idx g c Hf. apply list_find_Some in Hf as (Hl & Hg & _).
      by apply (names_insert _ _ g). }
    split_stops;
      destruct (refactor_reply W (length (trace s))) as [msg| |t]; simpl;
      try (split; [untouched_tac | done]);
      destruct (list_find (has_name (File.name file)) cur) as [[idx g]|] eqn:Ef;
      simpl.
    all: match goal with
         | |- context [refactorLoop W ?x ?t ?c ?s1] =>
             destruct (IH c s1) as [HU HR];
               [simpl; try done; try (rewrite (Hins idx g) by done; exact Hn) |];
             destruct (refactorLoop W x t c s1) as [r s']; simpl in HU, HR |- *
         end.
    all: split;
      [|intros cur' Hr; rewrite (HR cur' Hr); try done; by apply (Hins idx g)].
    all: eapply Untouched_trans; [|exact HU].
    all: split; [simpl; rewrite ?(Hins idx g) by done; by symmetry|]; untouched_tac.
Qed.

Lemma convergePass_series it cur s :
  File.name <$> files (st s) = File.name <$> cur →
  File.name <$> files (st (convergePass W it cur s).2) = File.name <$> cur
  ∧ (∃ t, trace (convergePass W it cur s).2 = trace s ++ t)
  ∧ (metricsData (convergePass W it cur s).2 = metricsData s
     ∨ ∃ q b, metricsData (convergePass W it cur s).2
              = metricsData s ++ [Chart.mk it q b])
  ∧ ∀ step q cur', (convergePass W it cur s).1 = Ok (step, q, cur') →
      File.name <$> cur' = File.name <$> cur
      ∧ metricsData (convergePass W it cur s).2
        = metricsData s ++ [snapshot_of (st (convergePass W it cur s).2)]
      ∧ qualityScore (st (convergePass W it cur s).2) = q
      ∧ iteration (st (convergePass W it cur s).2) = it.
Proof.
  intros Hn. unfold convergePass. run. rewrite Hkey.
  destruct (abortController s) eqn:Ha; simpl.
  { split; [done|]. split; [by exists []; rewrite app_nil_r|]. split; [by left | done]. }
  split_stops.
  { split; [done|]. split; [by eexists|]. split; [by left | done]. }
  rewrite ?Ha. simpl.
  set (a := read_analysis (analysis_reply W (length (trace s)))).
  destruct (degraded (Analysis.vibeCheck a)) eqn:Ed; simpl;
    destruct (needsRefinement a && (it <? MAX_ITERATIONS)); simpl.
  1,3: unfold refinePass; run; rewrite ?Ha; simpl.
  1,2: match goal with
       | |- context [refactorLoop W ?x ?t ?c ?s1] =>
           destruct (refactorLoop_keeps x t c s1 Hn)
             as [(HU1 & HU2 & HU3 & HU4 & HU5 & u & HU6) HR];
           destruct (refactorLoop W x t c s1) as [[cur1|msg|] s'];
           simpl in HU1, HU2, HU3, HU4, HU5, HU6, HR |- *
       end.
  1-6: split; [congruence|]; split; [rewrite HU6, <- ?app_assoc; by eexists|];
       split; [right; rewrite HU2; by eexists _, _|]; try done.
  1,2: intros step q cur' [= <- <- <-]; split; [by apply HR|];
       split; [|by split]; rewrite HU2; unfold snapshot_of, bugCount;
       by rewrite HU3, HU4, HU5.
  all: destruct ((95 <=? Analysis.qualityScore a)%Z && _); simpl;
    [|destruct (MAX_ITERATIONS <=? it); simpl].
  all: split; [done|]; split; [by eexists|]; split; [right; by eexists _, _|].
  all: by intros step q cur' [= <- <- <-].
Qed.

Lemma convergeLoop_series fuel it q0 cur s :
  File.name <$> files (st s) = File.name <$> cur →
  File.name <$> files (st (convergeLoop W fuel it q0 cur s).2) = File.name <$> cur
  ∧ (∃ t, trace (convergeLoop W fuel it q0 cur s).2 = trace s ++ t)
  ∧ ∃ snaps,
      metricsData (convergeLoop W fuel it q0 cur s).2 = metricsData s ++ snaps
      ∧ Chart.iteration <$> snaps = seq it (length snaps)
      ∧ length snaps ≤ S MAX_ITERATIONS - it
      ∧ ∀ it' q' cur', (convergeLoop W fuel it q0 cur s).1 = Ok (it', q', cur') →
          File.name <$> cur' = File.name <$> cur
          ∧ (((it <=? MAX_ITERATIONS) && (q0 <? 95)%Z = false
              ∧ (convergeLoop W fuel it q0 cur s).2 = s ∧ it' = it ∧ q' = q0)
             ∨ (last snaps = Some (snapshot_of (st (convergeLoop W fuel it q0 cur s).2))
                ∧ q' = qualityScore (st (convergeLoop W fuel it q0 cur s).2)
                ∧ (it' = iteration (st (convergeLoop W fuel it q0 cur s).2)
                   ∨ it' = S (iteration (st (convergeLoop W fuel it q0 cur s).2))))).
Proof.
  revert it q0 cur s.
  induction fuel as [|fuel IH]; intros it q0 cur s Hn; simpl convergeLoop;
    destruct ((it <=? MAX_ITERATIONS) && (q0 <? 95)%Z) eqn:Eg.
  - split; [done|]. split; [by exists []; rewrite app_nil_r|].
    exists []. rewrite app_nil_r. repeat (split; [done || (simpl; lia)|]). done.
  - split; [done|]. split; [by exists []; rewrite app_nil_r|].
    exists []. rewrite app_nil_r. repeat (split; [done || (simpl; lia)|]).
    intros ??? [= <- <- <-]. split; [done|]. by left.
  - apply andb_true_iff in Eg as [Hit%Nat.leb_le _]. unfold MAX_ITERATIONS in Hit |- *.
    unfold mbind, M_bind.
    destruct (convergePass_series it cur s Hn) as (HN1 & (t1 & HT1) & HM1 & HR1).
    destruct (convergePass W it cur s) as [[[[step q] cur1]|msg|] s1];
      simpl in HN1, HT1, HM1, HR1 |- *.
    + destruct (HR1 step q cur1 eq_refl) as (Hc1 & Hm1 & Hq1 & Hiter).
      destruct step; simpl.
      * split; [done|]. split; [by eexists|].
        exists [snapshot_of (st s1)]. split; [done|].
        split; [simpl; f_equal; exact Hiter|].
        split; [simpl; lia|]. intros ??? [= <- <- <-]. split; [done|]. right.
        split; [done|]. split; [done | by left].
      * destruct (IH (S it) q cur1 s1) as (HN2 & (t2 & HT2) & snaps & HM2 & HS2 & HL2 & HR2);
          [congruence|].
        destruct (convergeLoop W fuel (S it) q cur1 s1) as [r s']; simpl in *.
        split; [congruence|]. split; [rewrite HT2, HT1, <- app_assoc; by eexists|].
        exists (snapshot_of (st s1) :: snaps).
        split; [rewrite HM2, Hm1, <- app_assoc; done|].
        split; [rewrite fmap_cons, HS2; simpl; f_equal; exact Hiter|].
        split; [unfold MAX_ITERATIONS in *; simpl; lia|].
        intros it' q' cur' Hr. destruct (HR2 it' q' cur' Hr) as (Hc2 & Hlast).
        split; [congruence|]. right.
        destruct Hlast as [(_ & -> & -> & ->)|(Hlast & Hq' & Hit')].
        -- destruct snaps as [|x snaps];
             [|apply (f_equal length) in HM2; rewrite length_app in HM2;
               simpl in HM2; lia].
           split; [done|]. split; [done | by right; rewrite Hiter].
        -- destruct snaps as [|x snaps]; [done|]. done.
    + split; [done|]. split; [by eexists|].
      destruct HM1 as [HM1|(q1 & b1 & HM1)].
      * exists []. rewrite app_nil_r. repeat (split; [done || (simpl; lia)|]). done.
      * exists [Chart.mk it q1 b1]. repeat (split; [done || (simpl; lia)|]). done.
    + split; [done|]. split; [by eexists|].
      destruct HM1 as [HM1|(q1 & b1 & HM1)].
      * exists []. rewrite app_nil_r. repeat (split; [done || (simpl; lia)|]). done.
      * exists [Chart.mk it q1 b1]. repeat (split; [done || (simpl; lia)|]). done.
  - split; [done|]. split; [by exists []; rewrite app_nil_r|].
    exists []. rewrite app_nil_r. repeat (split; [done || (simpl; lia)|]).
    intros ??? [= <- <- <-]. split; [done|]. by left.
Qed.

Lemma reportPhase_keeps it q cur s : Untouched s (reportPhase W it q cur s).2.
Proof.
  unfold reportPhase. run. rewrite Hkey.
  destruct (abortController s); simpl; [apply Untouched_refl|].
  split_stops; destruct (report_reply W (length (trace s))); simpl; untouched_tac.
Qed.

Lemma reportPhase_Ok it q cur s :
  (reportPhase W it q cur s).1 = Ok tt →
  trace (reportPhase W it q cur s).2
  = trace s ++ [GenerateFinalReport it q (length cur)].
Proof.
  unfold reportPhase. run. rewrite Hkey.
  destruct (abortController s); simpl; [done|].
  split_stops; by destruct (report_reply W (length (trace s))).
Qed.

Lemma snapshot_of_Untouched s s' :
  Untouched s s' → snapshot_of (st s') = snapshot_of (st s).
Proof. intros (_ & _ & H3 & H4 & H5 & _). unfold snapshot_of. by rewrite H3, H4, H5. Qed.

(** The [try] block of a build, entered with the flag clear in a busy
    phase: the plan request comes first; the artifact names are those
    of the plan from the moment the plan is stored; the series grows by
    snapshots numbered from 1, at most [MAX_ITERATIONS] of them, and the
    last one describes the project when the block returns. *)
Lemma buildBody_tracks fuel promptText s :
  abortController s = false → isBusy (status (st s)) = true →
  let n := length (trace s) in
  let sb := (buildBody W fuel promptText s).2 in
  (∃ t, trace sb = trace s ++ GenerateProjectPlan promptText :: t)
  ∧ File.name <$> files (st sb)
    = match plan_reply W n with
      | Body d => if stop_during W n then File.name <$> files (st s)
                  else File.name <$> plan_files d
      | _ => File.name <$> files (st s)
      end
  ∧ ∃ snaps,
      metricsData sb = metricsData s ++ snaps
      ∧ Chart.iteration <$> snaps = seq 1 (length snaps)
      ∧ length snaps ≤ MAX_ITERATIONS
      ∧ ((buildBody W fuel promptText s).1 = Ok tt →
         last snaps = Some (snapshot_of (st sb))
         ∧ ∃ it, last (trace sb)
                 = Some (GenerateFinalReport it (qualityScore (st sb))
                                             (length (files (st sb))))
                 ∧ (it = iteration (st sb) ∨ it = S (iteration (st sb)))).
Proof.
  intros Ha Hb. cbv zeta. unfold buildBody, planPhase. run. rewrite Hkey, Ha. simpl.
  rewrite Hb, andb_true_r.
  destruct (stop_during W (length (trace s))) eqn:Estop; simpl;
    destruct (plan_reply W (length (trace s))) as [msg| |d] eqn:Er; simpl;
    try (split; [by exists []|]; split; [done|];
         exists []; rewrite app_nil_r; unfold MAX_ITERATIONS;
         repeat (split; [done || (simpl; lia)|]); done).
  rewrite Ha. simpl. unfold codingPhase. run.
  match goal with
  | |- context [codingLoop W ?t ?p ?j ?c ?s1] =>
      destruct (codingLoop_keeps t p j c s1 eq_refl)
        as [(HU1 & HU2 & HU3 & HU4 & HU5 & u & HU6) HR];
      destruct (codingLoop W t p j c s1) as [[cur|msg|] s2];
      simpl in HU1, HU2, HU3, HU4, HU5, HU6, HR |- *
  end.
  2,3: split; [rewrite HU6, <- app_assoc; by eexists|]; split; [done|];
       exists []; rewrite app_nil_r; unfold MAX_ITERATIONS;
       repeat (split; [done || (simpl; lia)|]); done.
  specialize (HR cur eq_refl). unfold loopPhase. run.
  match goal with
  | |- context [convergeLoop W ?f ?i ?q ?c ?s1] =>
      destruct (convergeLoop_series f i q c s1)
        as (HN3 & (t3 & HT3) & snaps & HM3 & HS3 & HL3 & HR3);
        [simpl; congruence|];
      destruct (convergeLoop W f i q c s1) as [[[[it q'] cur']|msg|] s3];
      simpl in HN3, HT3, HM3, HS3, HL3, HR3 |- *
  end.
  2,3: split; [rewrite HT3, HU6, <- !app_assoc; by eexists|];
       split; [congruence|]; exists snaps;
       split; [by rewrite HM3, HU2|]; split; [done|];
       split; [unfold MAX_ITERATIONS in *; lia | done].
  destruct (HR3 it q' cur' eq_refl) as (Hc & Hlast).
  destruct Hlast as [[Hg _]|(Hlast & Hq & Hit)]; [discriminate|].
  pose proof (reportPhase_keeps it q' cur' s3) as HU.
  pose proof (snapshot_of_Untouched _ _ HU) as Hsnap.
  pose proof (reportPhase_Ok it q' cur' s3) as HO.
  destruct HU as (HV1 & HV2 & HV3 & _ & HV5 & v & HV6).
  destruct (reportPhase W it q' cur' s3) as [r s4];
    simpl in HV1, HV2, HV3, HV5, HV6, Hsnap, HO |- *.
  split; [rewrite HV6, HT3, HU6, <- !app_assoc; by eexists|].
  split; [congruence|]. exists snaps.
  split; [by rewrite HV2, HM3, HU2|]. split; [done|].
  split; [unfold MAX_ITERATIONS in *; lia|]. intros Hr.
  split; [by rewrite Hsnap|]. exists it.
  rewrite (HO Hr), last_snoc, HV3, HV5, <- Hq. split; [|done].
  do 2 f_equal. rewrite <- (length_fmap File.name cur'), Hc, <- HN3, <- HV1.
  apply length_fmap.
Qed.

End Keeps.

Lemma handleStartMarathon_tracks W promptText s :
  api_key W = true → abortController s = false →
  let n := length (trace s) in
  let s' := (handleStartMarathon W promptText s).2 in
  (∃ t, trace s' = trace s ++ GenerateProjectPlan promptText :: t)
  ∧ File.name <$> files (st s')
    = match plan_reply W n with
      | Body d => if stop_during W n then [] else File.name <$> plan_files d
      | _ => []
      end
  ∧ ∃ snaps,
      metricsData s' = snaps
      ∧ Chart.iteration <$> snaps = seq 1 (length snaps)
      ∧ length snaps ≤ MAX_ITERATIONS
      ∧ (last (messages s') = Some mission_complete →
         last snaps = Some (snapshot_of (st s'))
         ∧ ∃ it, last (trace s')
                 = Some (GenerateFinalReport it (qualityScore (st s'))
                                             (length (files (st s'))))
                 ∧ (it = iteration (st s') ∨ it = S (iteration (st s')))).
Proof.
  intros Hkey Ha. cbv zeta. unfold handleStartMarathon.
  rewrite handleStartMarathonFuel_eq. unfold tryCatch.
  set (s1 := after_start promptText s).
  destruct (buildBody_tracks W Hkey (S MAX_ITERATIONS) promptText s1 Ha eq_refl)
    as (HT & HN & snaps & HM & HS & HL & HR).
  pose proof (buildBody_post W Hkey (S MAX_ITERATIONS) promptText s1
                (or_introl (after_start_Live promptText s Ha))) as HB.
  unfold wp in HB.
  destruct (buildBody W (S MAX_ITERATIONS) promptText s1) as [[[]|msg|] sb];
    simpl in HT, HN, HM, HR, HB |- *.
  - split; [done|]. split; [done|]. exists snaps. repeat (split; [done|]).
    intros _. by apply HR.
  - destruct (buildCatch_frame msg sb) as (_ & Htr & _ & Hf & _ & Hmd & _).
    rewrite Htr, Hf, Hmd. split; [done|]. split; [done|].
    exists snaps. repeat (split; [done|]). intros Hlast. exfalso.
    destruct HB as (_ & _ & Hmsg & _).
    destruct (decide (msg = STOP_MESSAGE)) as [->|Hne].
    + destruct (buildCatch_stop sb) as (_ & _ & Hm & _).
      rewrite Hm, last_snoc in Hlast. discriminate.
    + destruct (buildCatch_fail msg sb Hne) as (_ & _ & Hm).
      rewrite Hm, last_snoc in Hlast. discriminate.
  - destruct HB as (_ & _ & Hf & _). unfold MAX_ITERATIONS in Hf. lia.
Qed.

(** X12.  After planning, a build never adds, removes, renames or reorders
    artifacts.  However a build that was started with the flag cleared
    and a configured service ends - completed, stopped or failed - the
    names of its artifacts are, in order, those of the plan it received;
    and it has no artifacts when the plan request failed or was
    cancelled. *)
Theorem files_follow_plan W (promptText : string) (s : Sys) :
  api_key W = true → abortController s = false →
  let n := length (trace s) in
  let s' := (handleStartMarathon W promptText s).2 in
  File.name <$> files (st s')
  = match plan_reply W n with
    | Body d => if stop_during W n then [] else File.name <$> plan_files d
    | _ => []
    end.
Proof.
  intros Hkey Ha. exact (proj1 (proj2 (handleStartMarathon_tracks W promptText s Hkey Ha))).
Qed.

Lemma files_follow_plan_witness :
  File.name <$> files (st (handleStartMarathon todo_world "todo app" idle_sys).2)
  = ["App.tsx"; "package.json"].
Proof. exact (files_follow_plan todo_world "todo app" idle_sys eq_refl eq_refl). Defined.



(** X14.  The report of a build that completed (its last message is the
    completion message) is requested for the project as it is stored:
    the last request of the build is the report request, and it carries
    the stored score and the number of stored artifacts.  The iteration
    count it carries is the stored one, or one more - the loop counts on
    once more when it leaves after a refine pass on a score of at least
    95. *)
Theorem report_describes_project W (promptText : string) (s : Sys) :
  api_key W = true → abortController s = false →
  let s' := (handleStartMarathon W promptText s).2 in
  last (messages s') = Some mission_complete →
  ∃ it, last (trace s')
        = Some (GenerateFinalReport it (qualityScore (st s'))
                                    (length (files (st s'))))
        ∧ (it = iteration (st s') ∨ it = S (iteration (st s'))).
Proof.
  intros Hkey Ha. cbv zeta. intros Hlast.
  destruct (handleStartMarathon_tracks W promptText s Hkey Ha)
    as (_ & _ & snaps & _ & _ & _ & HR).
  exact (proj2 (HR Hlast)).
Qed.

Lemma report_describes_project_witness :
  ∃ it, last (trace (handleStartMarathon bug_at_97 "todo app" idle_sys).2)
        = Some (GenerateFinalReport it
                  (qualityScore (st (handleStartMarathon bug_at_97 "todo app"
                                       idle_sys).2))
                  (length (files (st (handleStartMarathon bug_at_97 "todo app"
                                        idle_sys).2))))
        ∧ (it = iteration (st (handleStartMarathon bug_at_97 "todo app" idle_sys).2)
           ∨ it = S (iteration (st (handleStartMarathon bug_at_97 "todo app"
                                      idle_sys).2))).
Proof.
  apply (report_describes_project bug_at_97 "todo app" idle_sys eq_refl eq_refl).
  vm_compute. reflexivity.
Defined.

(** ** The coding phase *)

Section Coding.
Context (W : World) (Hkey : api_key W = true).
Context (Hquiet : ∀ n, stop_during W n = false).

#[local] Arguments Nat.mul : simpl never.

Lemma codingLoop_generates todo promptText i cur s :
  abortController s = false → length cur ≤ todo + i →
  ∃ s', codingLoop W todo promptText i cur s
        = (Ok (take i cur ++
               imap (λ k, generated_file W (length (trace s) + 2 * k)) (drop i cur)),
           s')
        ∧ abortController s' = false
        ∧ trace s' = trace s ++ mjoin (generation_of <$> drop i cur)
        ∧ files (st s')
          = if i <? length cur
            then take i cur ++
                 imap (λ k, generated_file W (length (trace s) + 2 * k)) (drop i cur)
            else files (st s).
Proof.
  revert i cur s.
  induction todo as [|todo IH]; intros i cur s Ha Hlen; simpl codingLoop;
    destruct (i <? length cur) eqn:Ei.
  - apply Nat.ltb_lt in Ei. lia.
  - apply Nat.ltb_ge in Ei. rewrite drop_ge by done. simpl.
    rewrite take_ge, !app_nil_r by done. by eexists.
  - apply Nat.ltb_lt in Ei. run. rewrite Hkey, Ha. simpl.
    destruct (lookup_lt_is_Some_2 cur i Ei) as [file Ef]. rewrite Ef. simpl.
    repeat (rewrite Hquiet; simpl).
    match goal with
    | |- context [codingLoop W ?t ?p ?j ?c ?s1] =>
        destruct (IH j c s1) as (s' & Hrun & Ha' & Ht' & Hf');
          [done | rewrite length_insert; lia |]
    end.
    rewrite Hrun. clear Hrun. simpl in Ht', Hf'. exists s'.
    fold (generated_file W (length (trace s)) file) in Ht', Hf' |- *.
    set (cur1 := <[i:=generated_file W (length (trace s)) file]> cur) in *.
    assert (Hcur : take (S i) cur1
                   ++ imap (λ k, generated_file W
                                   (length ((trace s ++ [GenerateFileContent (File.name file)])
                                            ++ [Delay]) + 2 * k))
                        (drop (S i) cur1)
                   = take i cur ++
                     imap (λ k, generated_file W (length (trace s) + 2 * k)) (drop i cur)).
    { unfold cur1.
      rewrite (take_S_r _ _ (generated_file W (length (trace s)) file))
        by (by apply list_lookup_insert_eq).
      rewrite take_insert_ge by lia. rewrite drop_insert_lt by lia.
      rewrite (drop_S _ _ _ Ef). simpl. rewrite <- app_assoc. simpl.
      rewrite Nat.add_0_r. do 2 f_equal.
      apply imap_ext. intros k f _. simpl. f_equal.
      rewrite !length_app. simpl. lia. }
    split; [by rewrite <- Hcur|]. split; [done|].
    split.
    + rewrite Ht'. unfold cur1. rewrite drop_insert_lt by lia.
      rewrite (drop_S _ _ _ Ef). simpl. by rewrite <- !app_assoc.
    + rewrite Hf', <- Hcur.
      destruct (S i <? length cur1) eqn:E1; [done|].
      apply Nat.ltb_ge in E1.
      rewrite drop_ge, take_ge by lia. simpl. by rewrite app_nil_r.
  - apply Nat.ltb_ge in Ei. rewrite drop_ge by done. simpl.
    rewrite take_ge, !app_nil_r by done. by eexists.
Qed.

(** X15.  The coding phase of a build in which Stop is not clicked, entered
    with the flag clear: every planned artifact is generated exactly
    once, in plan order, each request followed by the pacing delay; the
    phase returns (and stores) the planned artifacts with their names
    and language tags, status [created], and as content what
    [generateFileContent] returned for them - the text of the reply
    without its fences, or the placeholder comment when the request
    failed. *)
Theorem coding_phase_generates (promptText : string) (plan : PlanData) (s : Sys) :
  abortController s = false →
  let built :=
    imap (λ k, generated_file W (length (trace s) + 2 * k)) (plan_files plan) in
  (codingPhase W promptText plan s).1 = Ok built
  ∧ trace (codingPhase W promptText plan s).2
    = trace s ++ mjoin (generation_of <$> plan_files plan)
  ∧ (plan_files plan ≠ [] → files (st (codingPhase W promptText plan s).2) = built).
Proof.
  intros Ha. cbv zeta. unfold codingPhase. run.
  match goal with
  | |- context [codingLoop W ?t ?p ?j ?c ?s1] =>
      destruct (codingLoop_generates t p j c s1 Ha) as (s' & Hrun & _ & Ht & Hf);
        [lia|]
  end.
  rewrite Hrun. simpl in Ht, Hf |- *. split; [done|]. split; [done|].
  intros Hne. rewrite Hf. by destruct (plan_files plan).
Qed.

End Coding.

Lemma coding_phase_generates_witness :
  (codingPhase todo_world "todo app" two_files testing_sys).1
  = Ok [File.mk "App.tsx" "typescript" "code" File.created;
        File.mk "package.json" "json" "code" File.created].
Proof.
  exact (proj1 (coding_phase_generates todo_world eq_refl (λ _, eq_refl) "todo app"
                  two_files testing_sys eq_refl)).
Defined.

(* ================================================================== *)
(** * Further properties of a conversation turn *)
(* ================================================================== *)

Lemma dispatch_not_busy (view : ProjectState) :
  isBusy (status view) = false → dispatch view ≠ Ignored.
Proof.
  unfold dispatch. destruct (status view); try discriminate; intros _;
    simpl; destruct (length (files view) =? 0); simpl; discriminate.
Qed.

Lemma dispatch_Refinement_files (view : ProjectState) :
  dispatch view = Refinement → files view ≠ [].
Proof.
  unfold dispatch. intros H Hf. rewrite Hf in H. simpl in H.
  rewrite orb_true_r in H. discriminate.
Qed.

Section Turns.
Context (W : World) (Hkey : api_key W = true).

(** A refinement turn on a project with artifacts starts with the
    refine request and ends in Idle or Completed. *)
Lemma handleRefinement_end view request s :
  files view ≠ [] →
  (∃ t, trace (handleRefinement W view request s).2
        = trace s ++ RefineProject request :: t)
  ∧ (status (st (handleRefinement W view request s).2) = IDLE
     ∨ status (st (handleRefinement W view request s).2) = COMPLETED).
Proof.
  intros Hf. unfold handleRefinement. run. rewrite Hkey. simpl.
  split_stops;
    destruct (refine_reply W (length (trace s))) as [msg| |d]; simpl;
    try (destruct (bool_decide (msg ≠ STOP_MESSAGE)); simpl);
    try (split; [by exists [] | by left]);
    destruct (abortController s); simpl;
    try (split; [by exists [] | by left]).
  all: unfold handleManualTest;
    destruct (files view) as [|f0 fs]; [done|]; simpl length; simpl Nat.eqb;
    cbv iota; run; rewrite Hkey; simpl.
  all: split_stops;
    match goal with
    | |- context [degraded ?v] => destruct (degraded v); simpl
    end.
  all: (split; [rewrite <- ?app_assoc; by eexists|]).
  all: destruct (bool_decide (status view = COMPLETED)); first [by left | by right].
Qed.

End Turns.

(** X16.  A message that is accepted while the agent is not busy is never
    dropped: it is dispatched to the build or to the refinement handler,
    and the first thing that handler does with the service is the
    request that carries the message - the plan request when the phase
    is Idle or Stopped or the project has no artifacts, the refine
    request otherwise. *)
Theorem send_reaches_service W (chatInput : string) (s : Sys) :
  accepted W chatInput = true → isBusy (status (st s)) = false →
  let s' := (handleSendMessage W chatInput s).2 in
  dispatch (st s) ≠ Ignored
  ∧ ∃ t, trace s'
         = trace s ++
           (if bool_decide (status (st s) = IDLE ∨ status (st s) = STOPPED
                            ∨ files (st s) = [])
            then GenerateProjectPlan chatInput
            else RefineProject chatInput) :: t.
Proof.
  intros Hacc Hidle. cbv zeta.
  pose proof (dispatch_not_busy (st s) Hidle) as Hd. split; [done|].
  unfold handleSendMessage. rewrite Hacc. simpl.
  apply andb_true_iff in Hacc as [_ Hkey]. run.
  destruct (dispatch (st s)) eqn:Ed; [| |done].
  - rewrite bool_decide_eq_true_2.
    + match goal with
      | |- context [handleStartMarathon W chatInput ?s0] =>
          destruct (handleStartMarathon_tracks W chatInput s0 Hkey eq_refl) as ((t & Ht) & _)
      end.
      exists t. exact Ht.
    + unfold dispatch in Ed.
      destruct (status (st s)); auto; simpl in Ed;
        destruct (files (st s)); auto; discriminate.
  - rewrite bool_decide_eq_false_2.
    + match goal with
      | |- context [handleRefinement W ?v chatInput ?s0] =>
          exact (proj1 (handleRefinement_end W Hkey v chatInput s0
                          (dispatch_Refinement_files _ Ed)))
      end.
    + pose proof (dispatch_Refinement_files _ Ed) as Hf.
      unfold dispatch in Ed.
      intros [H|[H|H]]; [rewrite H in Ed| rewrite H in Ed | done]; discriminate.
Qed.

Lemma send_reaches_service_witness :
  ∃ t, trace (handleSendMessage todo_world "make it blue" completed_sys).2
       = [] ++ RefineProject "make it blue" :: t.
Proof.
  exact (proj2 (send_reaches_service todo_world "make it blue" completed_sys
                  eq_refl eq_refl)).
Defined.

(** X17.  A turn never leaves the page locked.  A message accepted while the
    agent is not busy is handled to the end - the build completes, stops
    or fails, the refinement is applied or given up - and the phase it
    ends in is not a busy one, so the next message is dispatched again.
    This needs that no request throws an error whose message is the
    text of the cancellation signal, which the build would take for a
    cancellation. *)
Theorem turn_ends_unlocked W (chatInput : string) (s : Sys) :
  accepted W chatInput = true → isBusy (status (st s)) = false →
  (∀ n c, failure_of W n c ≠ Some STOP_MESSAGE) →
  let s' := (handleSendMessage W chatInput s).2 in
  (handleSendMessage W chatInput s).1 = Ok tt
  ∧ isBusy (status (st s')) = false
  ∧ dispatch (st s') ≠ Ignored.
Proof.
  intros Hacc Hidle Hno. cbv zeta.
  assert (Hgoal : (handleSendMessage W chatInput s).1 = Ok tt
                  ∧ isBusy (status (st (handleSendMessage W chatInput s).2)) = false).
  2:{ destruct Hgoal as [Hr Hb]. split; [done|]. split; [done|].
      by apply dispatch_not_busy. }
  pose proof (dispatch_not_busy (st s) Hidle) as Hd.
  unfold handleSendMessage. rewrite Hacc. simpl.
  apply andb_true_iff in Hacc as [_ Hkey]. run.
  destruct (dispatch (st s)) eqn:Ed; [| |done].
  - match goal with
    | |- context [handleStartMarathon W chatInput ?s0] =>
        destruct (build_outcome W chatInput s0 Hkey eq_refl) as [Hr HB];
        destruct (handleStartMarathon W chatInput s0) as [r s']
    end.
    simpl in Hr, HB |- *. split; [done|].
    destruct HB as [(Hst & _)|[(Hst & _)|(msg & sb & HF & _ & [(_ & Hst & _)|(-> & _)])]];
      try (by rewrite Hst).
    destruct HF as (t & c & _ & _ & Hf). by destruct (Hno _ _ Hf).
  - pose proof (dispatch_Refinement_files _ Ed) as Hf.
    match goal with
    | |- context [handleRefinement W ?v chatInput ?s0] =>
        destruct (handleRefinement_end W Hkey v chatInput s0 Hf) as [_ Hst];
        destruct (handleRefinement W v chatInput s0) as [r s'] eqn:Er
    end.
    simpl in Hst |- *. split; [|by destruct Hst as [-> | ->]].
    revert Er. unfold handleRefinement. run. rewrite Hkey. simpl.
    split_stops;
      destruct (refine_reply W (length (trace s))) as [msg| |d]; simpl;
      try (destruct (bool_decide (msg ≠ STOP_MESSAGE)); simpl);
      try (by intros [= <- _]).
    all: unfold handleManualTest;
      destruct (files (st s)) as [|f0 fs]; [done|]; simpl length; simpl Nat.eqb;
      cbv iota; run; rewrite Hkey; simpl.
    all: split_stops;
      match goal with
      | |- context [degraded ?v] => destruct (degraded v); simpl
      end.
    all: by intros [= <- _].
Qed.

Lemma turn_ends_unlocked_witness :
  isBusy (status (st (handleSendMessage todo_world "todo app" idle_sys).2)) = false.
Proof.
  apply (turn_ends_unlocked todo_world "todo app" idle_sys eq_refl eq_refl).
  intros n c. destruct c; discriminate.
Defined.

(* ================================================================== *)
(** * The artifacts of a completed build *)
(* ================================================================== *)

Section Built.
Context (W : World) (Hkey : api_key W = true).

Lemma codingLoop_built todo promptText i cur s cur' :
  files (st s) = cur → Forall built (take i cur) →
  (codingLoop W todo promptText i cur s).1 = Ok cur' →
  Forall built cur' ∧ files (st (codingLoop W todo promptText i cur s).2) = cur'.
Proof.
  revert i cur s.
  induction todo as [|todo IH]; intros i cur s Hf Hb; simpl codingLoop;
    destruct (i <? length cur) eqn:Ei.
  - done.
  - apply Nat.ltb_ge in Ei. rewrite take_ge in Hb by done. by intros [= <-].
  - apply Nat.ltb_lt in Ei. run. rewrite Hkey.
    destruct (abortController s); simpl; [done|].
    destruct (lookup_lt_is_Some_2 cur i Ei) as [file Ef]. rewrite Ef. simpl.
    split_stops.
    all: match goal with
         | |- context [codingLoop W ?t ?p ?j ?c ?s1] =>
             pose proof (IH j c s1 eq_refl) as HI;
             destruct (codingLoop W t p j c s1) as [r s']; simpl in HI |- *
         end.
    all: intros Hr; apply HI; [|exact Hr].
    all: erewrite take_S_r by (by apply list_lookup_insert_eq).
    all: rewrite take_insert_ge by lia; apply Forall_app; split; [done|].
    all: apply Forall_singleton; by left.
  - apply Nat.ltb_ge in Ei. rewrite take_ge in Hb by done. by intros [= <-].
Qed.

Lemma refactorLoop_built context targets cur s cur' :
  files (st s) = cur → Forall built cur →
  (refactorLoop W context targets cur s).1 = Ok cur' →
  Forall built cur' ∧ files (st (refactorLoop W context targets cur s).2) = cur'.
Proof.
  revert cur s.
  induction targets as [|file rest IH]; intros cur s Hf Hb; simpl refactorLoop.
  - by intros [= <-].
  - run. rewrite Hkey.
    destruct (abortController s); simpl; [done|].
    split_stops;
      destruct (refactor_reply W (length (trace s))) as [msg| |t]; simpl;
      try done;
      destruct (list_find (has_name (File.name file)) cur) as [[idx g]|] eqn:Ef;
      simpl.
    all: match goal with
         | |- context [refactorLoop W ?x ?t ?c ?s1] =>
             pose proof (IH c s1) as HI;
             destruct (refactorLoop W x t c s1) as [r s']; simpl in HI |- *
         end.
    all: intros Hr; apply HI; [done| |exact Hr]; try done.
    all: apply Forall_insert; [done | by right].
Qed.

Lemma convergePass_built it cur s step q cur' :
  files (st s) = cur → Forall built cur →
  (convergePass W it cur s).1 = Ok (step, q, cur') →
  Forall built cur' ∧ files (st (convergePass W it cur s).2) = cur'.
Proof.
  intros Hf Hb. unfold convergePass. run. rewrite Hkey.
  destruct (abortController s) eqn:Ha; simpl; [done|].
  split_stops; [done|]. rewrite ?Ha. simpl.
  set (a := read_analysis (analysis_reply W (length (trace s)))).
  destruct (degraded (Analysis.vibeCheck a)) eqn:Ed; simpl;
    destruct (needsRefinement a && (it <? MAX_ITERATIONS)); simpl.
  1,3: unfold refinePass; run; rewrite ?Ha; simpl.
  1,2: match goal with
       | |- context [refactorLoop W ?x ?t ?c ?s1] =>
           pose proof (refactorLoop_built x t c s1) as HI;
           destruct (refactorLoop W x t c s1) as [[cur1|msg|] s'];
           simpl in HI |- *; try done
       end.
  1,2: intros [= <- <- <-]; by apply HI.
  all: destruct ((95 <=? Analysis.qualityScore a)%Z && _); simpl;
    [|destruct (MAX_ITERATIONS <=? it); simpl].
  all: by intros [= <- <- <-].
Qed.

Lemma convergeLoop_built fuel it q0 cur s it' q' cur' :
  files (st s) = cur → Forall built cur →
  (convergeLoop W fuel it q0 cur s).1 = Ok (it', q', cur') →
  Forall built cur' ∧ files (st (convergeLoop W fuel it q0 cur s).2) = cur'.
Proof.
  revert it q0 cur s.
  induction fuel as [|fuel IH]; intros it q0 cur s Hf Hb; simpl convergeLoop;
    destruct ((it <=? MAX_ITERATIONS) && (q0 <? 95)%Z).
  - done.
  - by intros [= <- <- <-].
  - unfold mbind, M_bind.
    pose proof (convergePass_built it cur s) as HP.
    destruct (convergePass W it cur s) as [[[[step q] cur1]|msg|] s1];
      simpl in HP |- *; try done.
    destruct (HP step q cur1 Hf Hb eq_refl) as [Hb1 Hf1].
    destruct step; simpl; [by intros [= <- <- <-]|].
    by apply IH.
  - by intros [= <- <- <-].
Qed.

Lemma buildBody_built fuel promptText s :
  abortController s = false → isBusy (status (st s)) = true →
  (buildBody W fuel promptText s).1 = Ok tt →
  Forall built (files (st (buildBody W fuel promptText s).2)).
Proof.
  intros Ha Hb. unfold buildBody, planPhase. run. rewrite Hkey, Ha. simpl.
  split_stops; destruct (plan_reply W (length (trace s))) as [msg| |d]; simpl;
    try done.
  rewrite Ha. simpl. unfold codingPhase. run.
  match goal with
  | |- context [codingLoop W ?t ?p ?j ?c ?s2] =>
      pose proof (codingLoop_built t p j c s2) as HC;
      destruct (codingLoop W t p j c s2) as [[cur|msg|] s3]; simpl in HC |- *;
      try done
  end.
  destruct (HC cur eq_refl (Forall_nil_2 _) eq_refl) as [Hbt Hf].
  unfold loopPhase. run.
  match goal with
  | |- context [convergeLoop W ?f ?i ?q ?c ?s4] =>
      pose proof (convergeLoop_built f i q c s4) as HL;
      destruct (convergeLoop W f i q c s4) as [[[[it q'] cur']|msg|] s5];
      simpl in HL |- *; try done
  end.
  destruct (HL it q' cur' Hf Hbt eq_refl) as [Hb' Hf'].
  unfold reportPhase. run. rewrite Hkey.
  destruct (abortController s5); simpl; [done|].
  split_stops; destruct (report_reply W (length (trace s5))) as [msg| |t]; simpl;
    try done; intros _; by rewrite Hf'.
Qed.

End Built.

(** The [try] block of a build whose last message is the completion
    message has returned. *)
Lemma completed_is_Ok W promptText s :
  api_key W = true → abortController s = false →
  last (messages (handleStartMarathon W promptText s).2) = Some mission_complete →
  (buildBody W (S MAX_ITERATIONS) promptText (after_start promptText s)).1 = Ok tt
  ∧ (handleStartMarathon W promptText s).2
    = (buildBody W (S MAX_ITERATIONS) promptText (after_start promptText s)).2.
Proof.
  intros Hkey Ha. unfold handleStartMarathon.
  rewrite handleStartMarathonFuel_eq. unfold tryCatch.
  set (s1 := after_start promptText s).
  pose proof (buildBody_post W Hkey (S MAX_ITERATIONS) promptText s1
                (or_introl (after_start_Live promptText s Ha))) as HB.
  unfold wp in HB.
  destruct (buildBody W (S MAX_ITERATIONS) promptText s1) as [[[]|msg|] sb];
    simpl in HB |- *; [done| |].
  - intros Hlast. exfalso. destruct HB as (_ & _ & Hmsg & _).
    destruct (decide (msg = STOP_MESSAGE)) as [->|Hne].
    + destruct (buildCatch_stop sb) as (_ & _ & Hm & _).
      rewrite Hm, last_snoc in Hlast. discriminate.
    + destruct (buildCatch_fail msg sb Hne) as (_ & _ & Hm).
      rewrite Hm, last_snoc in Hlast. discriminate.
  - destruct HB as (_ & _ & Hf & _). unfold MAX_ITERATIONS in Hf. lia.
Qed.

(** X18.  A build that completed (its last message is the completion message)
    leaves no artifact pending: every artifact of the project has status
    [created] or [verified]. *)
Theorem completed_build_artifacts W (promptText : string) (s : Sys) :
  api_key W = true → abortController s = false →
  let s' := (handleStartMarathon W promptText s).2 in
  last (messages s') = Some mission_complete →
  Forall built (files (st s')).
Proof.
  intros Hkey Ha. cbv zeta. intros Hlast.
  destruct (completed_is_Ok W promptText s Hkey Ha Hlast) as [Hr ->].
  by apply buildBody_built.
Qed.

Lemma completed_build_artifacts_witness :
  Forall built (files (st (handleStartMarathon todo_world "todo app" idle_sys).2)).
Proof.
  apply (completed_build_artifacts todo_world "todo app" idle_sys eq_refl eq_refl).
  vm_compute. reflexivity.
Defined.

(* ================================================================== *)
(** * How promptly a build stops *)
(* ================================================================== *)

Lemma Prompt_refl W s : Prompt W s s.
Proof.
  exists []. rewrite app_nil_r. split; [done|]. split; [done|].
  intros k Hk. simpl in Hk. lia.
Qed.

Lemma Prompt_same W s s' :
  trace s' = trace s → abortController s' = abortController s → Prompt W s s'.
Proof.
  intros Ht Ha. exists []. rewrite app_nil_r. split; [done|].
  split; [intros H; split; [done | congruence]|].
  intros k Hk. simpl in Hk. lia.
Qed.

Lemma Prompt_trans W s1 s2 s3 : Prompt W s1 s2 → Prompt W s2 s3 → Prompt W s1 s3.
Proof.
  intros (t & Ht & Ha & Hs) (u & Hu & Hb & Hr).
  exists (t ++ u). split; [by rewrite Hu, Ht, app_assoc|]. split.
  - intros H. destruct (Ha H) as [-> Ha2]. destruct (Hb Ha2) as [-> Ha3]. done.
  - intros k Hk Hstop. rewrite length_app in Hk |- *.
    destruct (decide (k < length t)) as [Hlt|Hge].
    + destruct (Hs k Hlt Hstop) as (H1 & H2 & H3).
      destruct (Hb H3) as [-> H4]. simpl. rewrite app_nil_r, Nat.add_0_r. done.
    + assert (Hk' : k - length t < length u) by lia.
      assert (Hstop' : stop_during W (length (trace s2) + (k - length t)) = true).
      { rewrite Ht, length_app.
        by replace (length (trace s1) + length t + (k - length t))
          with (length (trace s1) + k) by lia. }
      destruct (Hr _ Hk' Hstop') as (H1 & H2 & H3).
      split; [lia|]. split; [|done]. intros Hl.
      destruct u as [|x u] using rev_ind; [simpl in Hk'; lia|].
      rewrite app_assoc, last_snoc. rewrite last_snoc in H2. apply H2. lia.
Qed.

Lemma Prompt_one W s s' c :
  trace s' = trace s ++ [c] → abortController s = false →
  abortController s' = stop_during W (length (trace s)) → Prompt W s s'.
Proof.
  intros Ht Ha Ha'. exists [c]. split; [done|]. split; [congruence|].
  intros k Hk Hstop. simpl in Hk. assert (k = 0) as -> by lia.
  rewrite Nat.add_0_r in Hstop. simpl. split; [lia|]. split; [lia | congruence].
Qed.

Lemma Prompt_two W s s' c :
  trace s' = (trace s ++ [c]) ++ [Delay] → abortController s = false →
  abortController s'
  = stop_during W (length (trace s)) || stop_during W (length (trace s) + 1) →
  Prompt W s s'.
Proof.
  intros Ht Ha Ha'. exists [c; Delay]. split; [by rewrite Ht, <- app_assoc|].
  split; [congruence|].
  intros k Hk Hstop. simpl in Hk |- *.
  destruct k as [|[|k]]; [| |lia].
  - rewrite Nat.add_0_r in Hstop. rewrite Ha', Hstop. done.
  - rewrite Ha', Hstop, orb_true_r. split; [lia|]. split; [lia | done].
Qed.

Section Promptly.
Context (W : World) (Hkey : api_key W = true).

Lemma refactorLoop_prompt context targets cur s :
  Good s →
  Prompt W s (refactorLoop W context targets cur s).2
  ∧ ∀ cur', (refactorLoop W context targets cur s).1 = Ok cur' →
            Good (refactorLoop W context targets cur s).2.
Proof.
  revert cur s. induction targets as [|file rest IH]; intros cur s HG.
  - split; [apply Prompt_refl | done].
  - simpl refactorLoop. run. rewrite Hkey.
    destruct HG as [[Ha Hb]|[Ha Hs]]; rewrite Ha; simpl.
    2:{ split; [apply Prompt_refl | done]. }
    rewrite Hb, andb_true_r.
    destruct (stop_during W (length (trace s))) eqn:Estop; simpl;
      destruct (refactor_reply W (length (trace s))) as [msg| |t] eqn:Er; simpl;
      try (split; [eapply Prompt_one; [reflexivity | done | by rewrite Estop] | done]);
      destruct (list_find (has_name (File.name file)) cur) as [[index g]|]; simpl;
      match goal with
      | |- context [refactorLoop W ?ctx ?tg ?c ?s1] =>
          assert (HG1 : Good s1) by good_tac;
          assert (HP1 : Prompt W s s1)
            by (eapply Prompt_one; [reflexivity | done | by rewrite Estop]);
          destruct (IH c s1 HG1) as [HP HR];
          destruct (refactorLoop W ctx tg c s1) as [r s']; simpl in HP, HR |- *;
          split; [by eapply Prompt_trans | exact HR]
      end.
Qed.

Lemma codingLoop_prompt todo promptText i cur s :
  Good s →
  Prompt W s (codingLoop W todo promptText i cur s).2
  ∧ ∀ cur', (codingLoop W todo promptText i cur s).1 = Ok cur' →
            Good (codingLoop W todo promptText i cur s).2.
Proof.
  revert i cur s.
  induction todo as [|todo IH]; intros i cur s HG; simpl codingLoop;
    destruct (i <? length cur) eqn:Ei.
  - split; [apply Prompt_refl | done].
  - split; [apply Prompt_refl | done].
  - run. rewrite Hkey.
    destruct HG as [[Ha Hb]|[Ha Hs]]; rewrite Ha; simpl.
    2:{ split; [apply Prompt_refl | done]. }
    destruct (cur !! i) as [file|] eqn:Ef; simpl.
    2:{ split; [apply Prompt_refl | intros _ _; by left]. }
    rewrite Hb, andb_true_r.
    destruct (stop_during W (length (trace s))) eqn:Estop; simpl;
      [ rewrite andb_false_r; simpl
      | rewrite Hb, andb_true_r; rewrite length_app; simpl;
        destruct (stop_during W (length (trace s) + 1)) eqn:Estop2; simpl ].
    all: match goal with
         | |- context [codingLoop W ?t ?p ?j ?c ?s1] =>
             assert (HG1 : Good s1) by good_tac;
             assert (HP1 : Prompt W s s1)
               by (eapply Prompt_two;
                   [reflexivity | done | by rewrite Estop, ?Estop2]);
             destruct (IH j c s1 HG1) as [HP HR];
             destruct (codingLoop W t p j c s1) as [r s']; simpl in HP, HR |- *;
             split; [by eapply Prompt_trans | exact HR]
         end.
  - split; [apply Prompt_refl | done].
Qed.

Lemma planPhase_prompt promptText s :
  Good s →
  Prompt W s (planPhase W promptText s).2
  ∧ ∀ plan, (planPhase W promptText s).1 = Ok plan →
            Good (planPhase W promptText s).2.
Proof.
  intros HG. unfold planPhase. run. rewrite Hkey.
  destruct HG as [[Ha Hb]|[Ha Hs]]; rewrite Ha; simpl.
  2:{ split; [apply Prompt_refl | done]. }
  rewrite Hb, andb_true_r.
  destruct (stop_during W (length (trace s))) eqn:Estop; simpl;
    destruct (plan_reply W (length (trace s))) as [msg| |d] eqn:Er; simpl;
    rewrite ?Ha; simpl;
    (split; [eapply Prompt_one; [reflexivity | done | by rewrite Estop]|]);
    try done.
  intros _ _. by left.
Qed.

Lemma convergePass_prompt it cur s :
  Good s →
  Prompt W s (convergePass W it cur s).2
  ∧ ∀ x, (convergePass W it cur s).1 = Ok x → Good (convergePass W it cur s).2.
Proof.
  intros HG. unfold convergePass. run. rewrite Hkey.
  destruct HG as [[Ha Hb]|[Ha Hs]]; rewrite Ha; simpl.
  2:{ split; [apply Prompt_refl | done]. }
  destruct (stop_during W (length (trace s))) eqn:Estop; simpl.
  { split; [eapply Prompt_one; [reflexivity | done | by rewrite Estop] | done]. }
  rewrite Ha; simpl.
  set (a := read_analysis (analysis_reply W (length (trace s)))).
  destruct (degraded (Analysis.vibeCheck a)) eqn:Edeg; simpl;
    (destruct (needsRefinement a && (it <? MAX_ITERATIONS)) eqn:Eref; simpl;
     [ unfold refinePass; run
     | destruct ((95 <=? Analysis.qualityScore a)%Z) eqn:Eq; simpl;
       try match goal with
           | |- context [MAX_ITERATIONS <=? it] =>
               destruct (MAX_ITERATIONS <=? it) eqn:Emax; simpl
           end ]).
  all: try match goal with
      | |- context [refactorLoop W ?ctx ?tg ?c ?s1] =>
          assert (HG1 : Good s1) by good_tac;
          assert (HP1 : Prompt W s s1)
            by (eapply Prompt_one; [reflexivity | done | by rewrite Estop]);
          destruct (refactorLoop_prompt ctx tg c s1 HG1) as [HP HR];
          destruct (refactorLoop W ctx tg c s1) as [[cur'|msg|] s'];
          simpl in HP, HR |- *;
          (split; [by eapply Prompt_trans|]); try done;
          intros _ _; by apply (HR cur')
      end.
  all: (split; [eapply Prompt_one; [reflexivity | done | by rewrite Estop]|]).
  all: intros _ _; by left.
Qed.

Lemma convergeLoop_prompt fuel it q cur s :
  Good s →
  Prompt W s (convergeLoop W fuel it q cur s).2
  ∧ ∀ x, (convergeLoop W fuel it q cur s).1 = Ok x →
         Good (convergeLoop W fuel it q cur s).2.
Proof.
  revert it q cur s.
  induction fuel as [|fuel IH]; intros it q cur s HG; simpl convergeLoop;
    destruct ((it <=? MAX_ITERATIONS) && (q <? 95)%Z).
  - split; [apply Prompt_refl | done].
  - split; [apply Prompt_refl | done].
  - unfold mbind, M_bind.
    destruct (convergePass_prompt it cur s HG) as [HP1 HR1].
    destruct (convergePass W it cur s) as [[[[step q'] cur1]|msg|] s1];
      simpl in HP1, HR1 |- *; try done.
    destruct step; simpl; [split; [done | intros _ _; by eapply HR1]|].
    destruct (IH (S it) q' cur1 s1 (HR1 _ eq_refl)) as [HP HR].
    split; [by eapply Prompt_trans | exact HR].
  - split; [apply Prompt_refl | done].
Qed.

(** The suspensions of the report phase, which cannot be cancelled:
    at most the one report request. *)
Lemma reportPhase_last it q cur s :
  ∃ t, trace (reportPhase W it q cur s).2 = trace s ++ t
       ∧ length t ≤ 1
       ∧ (abortController s = true → t = []).
Proof.
  unfold reportPhase. run. rewrite Hkey.
  destruct (abortController s); simpl.
  { exists []. rewrite app_nil_r. split; [done|]. split; [simpl; lia | done]. }
  split_stops; destruct (report_reply W (length (trace s))); simpl;
    eexists [_]; (split; [reflexivity|]); (split; [simpl; lia | done]).
Qed.

(** The [try] block of a build: nothing but one pacing delay follows a
    suspension during which Stop was clicked. *)
Lemma buildBody_prompt fuel promptText s :
  Good s →
  ∃ t, trace (buildBody W fuel promptText s).2 = trace s ++ t
       ∧ ∀ k, k < length t → stop_during W (length (trace s) + k) = true →
           length t ≤ k + 2 ∧ (length t = k + 2 → last t = Some Delay).
Proof.
  intros HG.
  assert (Hweak : ∀ s', Prompt W s s' →
            ∃ t, trace s' = trace s ++ t
              ∧ ∀ k, k < length t → stop_during W (length (trace s) + k) = true →
                  length t ≤ k + 2 ∧ (length t = k + 2 → last t = Some Delay)).
  { intros s' (t & Ht & _ & Hs). exists t. split; [done|].
    intros k Hk Hstop. destruct (Hs k Hk Hstop) as (H1 & H2 & _). done. }
  unfold buildBody, mbind, M_bind.
  destruct (planPhase_prompt promptText s HG) as [HP1 HR1].
  destruct (planPhase W promptText s) as [[plan|msg|] s1]; simpl in HP1, HR1 |- *;
    [|by apply Hweak..].
  unfold codingPhase, mbind, M_bind. unfold addLog at 1. unfold setState at 1.
  match goal with
  | |- context [codingLoop W ?t ?p ?j ?c ?s1'] =>
      assert (HG1 : Good s1') by (destruct (HR1 _ eq_refl) as [[? ?]|[? ?]];
                                  [left | right]; split; simpl; done);
      assert (HP1' : Prompt W s1 s1') by (by apply Prompt_same);
      destruct (codingLoop_prompt t p j c s1' HG1) as [HP2 HR2];
      destruct (codingLoop W t p j c s1') as [[cur|msg|] s2]; simpl in HP2, HR2 |- *
  end.
  2,3: apply Hweak; eapply Prompt_trans; [exact HP1|];
       eapply Prompt_trans; [exact HP1' | exact HP2].
  unfold loopPhase, mbind, M_bind. unfold addLog at 1. unfold setState at 1.
  match goal with
  | |- context [convergeLoop W ?f ?i ?q ?c ?s2'] =>
      assert (HG2 : Good s2') by (destruct (HR2 _ eq_refl) as [[? ?]|[? ?]];
                                  [left | right]; split; simpl; done);
      assert (HP2' : Prompt W s2 s2') by (by apply Prompt_same);
      destruct (convergeLoop_prompt f i q c s2' HG2) as [HP3 HR3];
      destruct (convergeLoop W f i q c s2') as [[[[it q'] cur']|msg|] s3];
      simpl in HP3, HR3 |- *
  end.
  2,3: apply Hweak; eapply Prompt_trans; [exact HP1|];
       eapply Prompt_trans; [exact HP1'|]; eapply Prompt_trans; [exact HP2|];
       eapply Prompt_trans; [exact HP2' | exact HP3].
  assert (HP : Prompt W s s3).
  { eapply Prompt_trans; [exact HP1|].
    eapply Prompt_trans; [exact HP1'|]. eapply Prompt_trans; [exact HP2|].
    eapply Prompt_trans; [exact HP2' | exact HP3]. }
  destruct HP as (t & Ht & _ & Hs).
  destruct (reportPhase_last it q' cur' s3) as (u & Hu & Hlen & Hnil).
  destruct (reportPhase W it q' cur' s3) as [r s4]; simpl in Hu |- *.
  exists (t ++ u). split; [by rewrite Hu, Ht, app_assoc|].
  intros k Hk Hstop. rewrite length_app in Hk |- *.
  destruct (decide (k < length t)) as [Hlt|Hge].
  - destruct (Hs k Hlt Hstop) as (H1 & H2 & H3).
    rewrite (Hnil H3). simpl. rewrite app_nil_r, Nat.add_0_r. done.
  - split; [lia|]. intros Hl. lia.
Qed.

End Promptly.

(** X19.  A build stops promptly.  In a build that was started with the
    flag cleared and a configured service, once Stop is clicked during
    a request no further request is sent to the service: that request
    is the last suspension of the build, or it is followed by exactly
    one suspension, which is the pacing delay of the coding loop. *)
Theorem stop_is_prompt W (promptText : string) (s : Sys) (n : nat) :
  api_key W = true → abortController s = false →
  let s' := (handleStartMarathon W promptText s).2 in
  length (trace s) ≤ n → n < length (trace s') → stop_during W n = true →
  length (trace s') ≤ n + 2
  ∧ (length (trace s') = n + 2 → last (trace s') = Some Delay).
Proof.
  intros Hkey Ha. cbv zeta. unfold handleStartMarathon.
  rewrite handleStartMarathonFuel_eq. unfold tryCatch.
  set (s1 := after_start promptText s).
  destruct (buildBody_prompt W Hkey (S MAX_ITERATIONS) promptText s1
              (or_introl (after_start_Live promptText s Ha))) as (t & Ht & Hs).
  assert (Htr : trace (match buildBody W (S MAX_ITERATIONS) promptText s1 with
                       | (Thrown msg, s') => buildCatch msg s'
                       | r => r
                       end).2 = trace s ++ t).
  { destruct (buildBody W (S MAX_ITERATIONS) promptText s1) as [[[]|msg|] sb];
      simpl in Ht |- *; try done.
    destruct (buildCatch_frame msg sb) as (_ & -> & _). done. }
  rewrite Htr, length_app. intros Hle Hlt Hstop.
  assert (Hk : n - length (trace s) < length t) by lia.
  destruct (Hs (n - length (trace s)) Hk) as [H1 H2].
  { simpl. by replace (length (trace s) + (n - length (trace s))) with n by lia. }
  split; [lia|]. intros Hl.
  destruct t as [|x t] using rev_ind; [simpl in Hk; lia|].
  rewrite app_assoc, last_snoc. rewrite last_snoc in H2. apply H2. lia.
Qed.

Lemma stop_is_prompt_witness :
  length (trace (handleStartMarathon stop_in_coding "todo app" idle_sys).2) ≤ 1 + 2
  ∧ (length (trace (handleStartMarathon stop_in_coding "todo app" idle_sys).2) = 1 + 2 →
     last (trace (handleStartMarathon stop_in_coding "todo app" idle_sys).2)
     = Some Delay).
Proof.
  apply (stop_is_prompt stop_in_coding "todo app" idle_sys 1 eq_refl eq_refl).
  - simpl. lia.
  - vm_compute. lia.
  - reflexivity.
Defined.

(* ================================================================== *)
(** * Merging the same response again *)
(* ================================================================== *)

Lemma mergeChange_present_self l c : present (change_name c) (mergeChange l c).
Proof. destruct (mergeChange_find_self l c) as (i & f & H & _). by exists i, f. Qed.

Lemma mergeChange_present_mono l c n : present n l → present n (mergeChange l c).
Proof.
  intros Hp. destruct (decide (change_name c = n)) as [<-|Hne].
  - apply mergeChange_present_self.
  - unfold present. by rewrite mergeChange_find_other.
Qed.

Lemma mergeChanges_present_mono cs l n : present n l → present n (mergeChanges l cs).
Proof.
  revert l. induction cs as [|c cs IH]; intros l Hp; [done|].
  simpl. apply IH. by apply mergeChange_present_mono.
Qed.

Lemma mergeChanges_present cs l c : c ∈ cs → present (change_name c) (mergeChanges l cs).
Proof.
  revert l. induction cs as [|a cs IH]; intros l Hin; [by apply elem_of_nil in Hin|].
  simpl. apply elem_of_cons in Hin as [->|Hin].
  - apply mergeChanges_present_mono, mergeChange_present_self.
  - by apply IH.
Qed.

(** A second change of the same name overwrites the first one. *)
Lemma mergeChange_overwrite l a c :
  change_name a = change_name c → present (change_name a) l →
  mergeChange (mergeChange l a) c = mergeChange l c.
Proof.
  intros Hn (i & f & Hf).
  assert (Hf' : list_find (has_name (change_name c)) l = Some (i, f)) by (by rewrite <- Hn).
  rewrite (mergeChange_found _ _ _ _ Hf), (mergeChange_found _ _ _ _ Hf').
  assert (Hfind : list_find (has_name (change_name c))
                    (<[i:=with_content (change_content a) f]> l)
                  = Some (i, with_content (change_content a) f)).
  { apply list_find_Some in Hf' as (Hl & Hh & Hlt).
    apply list_find_Some. split; [|split].
    - apply list_lookup_insert_eq. by eapply lookup_lt_Some.
    - done.
    - intros j y Hy Hj. rewrite list_lookup_insert_ne in Hy by lia. by eapply Hlt. }
  rewrite (mergeChange_found _ _ _ _ Hfind). by rewrite list_insert_insert_eq.
Qed.

(** Changes of two names that the project both has commute. *)
Lemma mergeChange_commute l a c :
  change_name a ≠ change_name c →
  present (change_name a) l → present (change_name c) l →
  mergeChange (mergeChange l a) c = mergeChange (mergeChange l c) a.
Proof.
  intros Hne (i & f & Hf) (j & g & Hg).
  assert (Hij : i ≠ j).
  { intros ->. apply list_find_Some in Hf as (Hl & Hh & _).
    apply list_find_Some in Hg as (Hl' & Hh' & _).
    rewrite Hl in Hl'. injection Hl' as ->. unfold has_name in *. congruence. }
  pose proof (mergeChange_find_other l a (change_name c) Hne) as H1.
  pose proof (mergeChange_find_other l c (change_name a) (not_eq_sym Hne)) as H2.
  rewrite Hg in H1. rewrite Hf in H2.
  rewrite (mergeChange_found _ _ _ _ H1), (mergeChange_found _ _ _ _ H2).
  rewrite (mergeChange_found _ _ _ _ Hf), (mergeChange_found _ _ _ _ Hg).
  by apply list_insert_insert_ne.
Qed.

Lemma mergeChanges_congr cs c x y :
  (∀ a, a ∈ cs → present (change_name a) x ∧ present (change_name a) y) →
  present (change_name c) x → present (change_name c) y →
  mergeChange x c = mergeChange y c →
  mergeChange (mergeChanges x cs) c = mergeChange (mergeChanges y cs) c.
Proof.
  revert x y. induction cs as [|a cs IH]; intros x y Hcs Hx Hy Heq; [done|].
  simpl. destruct (Hcs a (list_elem_of_here _ _)) as [Hax Hay].
  apply IH.
  - intros b Hb. destruct (Hcs b (list_elem_of_further _ _ _ Hb)).
    split; by apply mergeChange_present_mono.
  - by apply mergeChange_present_mono.
  - by apply mergeChange_present_mono.
  - destruct (decide (change_name a = change_name c)) as [Hn|Hn].
    + by rewrite !mergeChange_overwrite.
    + rewrite !(mergeChange_commute _ a c) by done. by rewrite Heq.
Qed.

Lemma mergeChange_app_present l k a :
  present (change_name a) l → mergeChange (l ++ k) a = mergeChange l a ++ k.
Proof.
  intros (i & f & Hf).
  rewrite (mergeChange_found _ _ _ _ Hf).
  rewrite (mergeChange_found _ _ _ _ (list_find_app_l _ _ _ _ _ Hf)).
  apply list_find_Some in Hf as (Hl & _).
  apply insert_app_l. by eapply lookup_lt_Some.
Qed.

Lemma mergeChanges_app_present cs l k :
  (∀ a, a ∈ cs → present (change_name a) l) →
  mergeChanges (l ++ k) cs = mergeChanges l cs ++ k.
Proof.
  revert l. induction cs as [|a cs IH]; intros l Hcs; [done|]. simpl.
  rewrite mergeChange_app_present by (apply Hcs, list_elem_of_here).
  apply IH. intros b Hb. apply mergeChange_present_mono, Hcs.
  by apply list_elem_of_further.
Qed.

(** X20.  Merging is idempotent: merging a refinement response into a
    project that already contains it changes nothing, so applying the
    same response twice gives the project that applying it once
    gives. *)
Theorem merge_idempotent (changes : list Change) (files0 : list ProjectFile) :
  mergeChanges (mergeChanges files0 changes) changes = mergeChanges files0 changes.
Proof.
  induction changes as [|c cs IH] using rev_ind; [done|].
  unfold mergeChanges in *. rewrite !foldl_snoc.
  set (r' := foldl mergeChange files0 cs) in *.
  assert (Hcs : ∀ a, a ∈ cs → present (change_name a) r').
  { intros a Ha. by apply mergeChanges_present. }
  destruct (list_find (has_name (change_name c)) r') as [[i f]|] eqn:Ef.
  - assert (Hp : present (change_name c) r') by (by exists i, f).
    fold (mergeChanges (mergeChange r' c) cs).
    rewrite (mergeChanges_congr cs c (mergeChange r' c) r').
    + unfold mergeChanges. by rewrite IH.
    + intros a Ha. split; [apply mergeChange_present_mono|]; by apply Hcs.
    + by apply mergeChange_present_mono.
    + done.
    + by apply mergeChange_overwrite.
  - apply list_find_None in Ef. rewrite (mergeChange_fresh _ _ Ef).
    fold (mergeChanges (r' ++ [File.mk (change_name c) (change_language c)
                                       (change_content c) File.created]) cs).
    rewrite (mergeChanges_app_present cs r' _ Hcs).
    unfold mergeChanges. rewrite IH.
    assert (Hfind : list_find (has_name (change_name c))
                      (r' ++ [File.mk (change_name c) (change_language c)
                                      (change_content c) File.created])
                    = Some (length r', File.mk (change_name c) (change_language c)
                                               (change_content c) File.created)).
    { rewrite list_find_app_r by (by apply list_find_None).
      simpl. by rewrite decide_True. }
    rewrite (mergeChange_found _ _ _ _ Hfind).
    apply list_insert_id. by rewrite list_lookup_middle.
Qed.
